(** * Main.py: the broadcast engine of [TelegramUserbot]

    A shallow embedding of the three methods that make up the broadcast
    engine of [src/Main.py]:

    - [get_all_groups]            (lines 36-72),
    - [send_to_all_groups_once]   (lines 74-134),
    - [broadcast_with_delay]      (lines 136-168).

    The Telegram client ([self.client]) is an external collaborator.  The
    two client calls the engine makes ([iter_dialogs], [send_message]) and
    the event loop's [asyncio.sleep] are taken as parameters acting on an
    abstract world [W]; the methods are written in a small state-and-trace
    monad over that world, so that every client call, every sleep and
    every log line of a run can be read off its trace, in order.

    Exceptions are those a handler of the engine can catch, that is
    subclasses of [Exception]; task cancellation and interpreter exits are
    outside the model.  [get_all_groups] and [send_to_all_groups_once]
    handle what the client raises; [broadcast_with_delay] has no handler,
    and lets through what the runtime raises on the numbers its caller
    chose (see the limits of the runtime below). *)

From Stdlib Require Import String ZArith List Bool Lia.
Import ListNotations.

Local Open Scope string_scope.
Local Open Scope list_scope.
Local Open Scope Z_scope.

(** ** Data *)

(** [telethon.tl.types]: what [dialog.entity] can be.  [Channel] carries
    the two flags the code reads; [User] stands for every entity that is
    neither a [Channel] nor a [Chat]. *)
Inductive Entity : Type :=
| Channel (id : Z) (megagroup broadcast : bool)
| Chat (id : Z)
| User (id : Z).

(** A dialog as yielded by [client.iter_dialogs()]. *)
Record Dialog : Type := mkDialog
  { dlg_entity : Entity;
    dlg_title : string }.

(** The dict built at lines 53-58 and 60-65, keys ['entity'], ['title'],
    ['id'], ['type']. *)
Record Group : Type := mkGroup
  { grp_entity : Entity;
    grp_title : string;
    grp_id : Z;
    grp_type : string }.

(** The exceptions the engine distinguishes (line 5), all subclasses of
    [Exception]; [OtherException] is any other [Exception]. *)
Inductive PyExc : Type :=
| FloodWaitError (seconds : Z)
| ChatWriteForbiddenError
| UserBannedInChannelError
| OtherException (detail : string).

(** Outcome of draining the async generator [iter_dialogs()]: the dialogs
    it yielded, and the exception that ended it, if any. *)
Record IterResult : Type := mkIter
  { yielded : list Dialog;
    raised : option PyExc }.

(** Outcome of one [await client.send_message(...)]: [None] when it
    returned, [Some e] when it raised [e]. *)
Definition SendResult : Type := option PyExc.

(** The summary the specification describes (section 3). *)
Record BroadcastSummary : Type := mkSummary
  { totalSuccess : Z;
    totalFailed : Z;
    roundsExecuted : Z }.

(** ** Observable events *)

(** Which [send_message] call: line 104 or line 115. *)
Inductive SendSite : Type := FirstAttempt | Retry.

(** Which [asyncio.sleep] call: line 111 or line 163. *)
Inductive SleepSite : Type := FloodPause | RoundPause.

Inductive Level : Type := INFO | WARNING | ERROR.

(** One constructor per [logger] call of the three methods, with the
    values its f-string interpolates. *)
Inductive LogRecord : Type :=
| LogFound (n : Z)                                   (* line 67 *)
| LogGetGroupsError (e : PyExc)                      (* line 71 *)
| LogNoGroups                                        (* line 88 *)
| LogSending (n : Z)                                 (* line 94 *)
| LogSkipping (title : string)                       (* line 100 *)
| LogSent (title : string) (n total : Z)             (* line 107 *)
| LogFloodWait (seconds : Z)                         (* line 110 *)
| LogSentAfterFlood (title : string)                 (* line 117 *)
| LogRetryFailed (title : string) (e : PyExc)        (* line 119 *)
| LogNoPermission (title : string)                   (* line 123 *)
| LogBanned (title : string)                         (* line 127 *)
| LogSendError (title : string) (e : PyExc)          (* line 131 *)
| LogStart (rounds delay : Z)                        (* line 149 *)
| LogRound (round_num rounds : Z)                    (* line 152 *)
| LogRoundResults (round_num success failed : Z)     (* line 158 *)
| LogWaiting (delay : Z)                             (* line 162 *)
| LogFinalSummary                                    (* line 165 *)
| LogTotalSent (n : Z)                               (* line 166 *)
| LogTotalFailed (n : Z)                             (* line 167 *)
| LogRoundsCompleted (rounds : Z).                   (* line 168 *)

Inductive Event : Type :=
| EvIterDialogs
| EvSendMessage (site : SendSite) (e : Entity) (message : string)
| EvSleep (site : SleepSite) (seconds : Z)
| EvLog (lvl : Level) (r : LogRecord).

Definition Trace : Type := list Event.

(** ** The state-and-trace monad *)

Definition M (W A : Type) : Type := W -> A * W * Trace.

Definition ret {W A : Type} (a : A) : M W A :=
  fun w => (a, w, []).

Definition bind {W A B : Type} (m : M W A) (k : A -> M W B) : M W B :=
  fun w =>
    let '(a, w1, t1) := m w in
    let '(b, w2, t2) := k a w1 in
    (b, w2, t1 ++ t2).

Notation "x <- m ;; k" := (bind m (fun x => k))
  (at level 61, m at next level, right associativity).
Notation "' p <- m ;; k" := (bind m (fun x => let p := x in k))
  (at level 61, p pattern, m at next level, right associativity).
Notation "m ;; k" := (bind m (fun _ => k))
  (at level 61, right associativity).

Definition value {W A : Type} (r : A * W * Trace) : A := fst (fst r).
Definition world {W A : Type} (r : A * W * Trace) : W := snd (fst r).
Definition trace {W A : Type} (r : A * W * Trace) : Trace := snd r.

Definition emit {W : Type} (e : Event) : M W unit :=
  fun w => (tt, w, [e]).

Definition logger_info {W : Type} (r : LogRecord) : M W unit := emit (EvLog INFO r).
Definition logger_warning {W : Type} (r : LogRecord) : M W unit := emit (EvLog WARNING r).
Definition logger_error {W : Type} (r : LogRecord) : M W unit := emit (EvLog ERROR r).

(** A [for x in xs:] loop threading the loop-carried variables [s]. *)
Fixpoint for_each {W A S : Type} (xs : list A) (body : A -> S -> M W S) (s : S)
  : M W S :=
  match xs with
  | [] => ret s
  | x :: xs' => s' <- body x s ;; for_each xs' body s'
  end.

(** Python's [range(a, b)]. *)
Definition py_range (a b : Z) : list Z :=
  map (fun i => a + Z.of_nat i) (seq 0 (Z.to_nat (b - a))).

(** Python's [len]. *)
Definition len {A : Type} (l : list A) : Z := Z.of_nat (List.length l).

(** Python's [x in xs] on a list of ints. *)
Definition py_in (x : Z) (xs : list Z) : bool := existsb (Z.eqb x) xs.

(** ** The limits of the runtime

    Two operations of the broadcast loop act on numbers chosen by the
    caller, [rounds] and [delay_between_rounds], and each fails beyond a
    limit of the runtime (CPython 3.11 and later, default settings):

    - formatting an int in an f-string raises [ValueError] when the int has
      more than 4300 decimal digits;
    - [asyncio.sleep(delay)] with a positive int [delay] adds it to the
      loop's clock, a float, which raises [OverflowError] when the int
      rounds to a float beyond the largest one.

    The other numbers the engine formats or sleeps for are measured or
    supplied by the provider (lengths of catalogs, counts of sends made,
    identifiers, the seconds of a flood wait) and stay far below these
    limits; for them the two operations are taken to succeed. *)

Definition int_max_str_digits : Z := 4300.

(** [n], which is not negative, has more than [k] decimal digits. *)
Fixpoint longer_than (k : nat) (n : Z) : bool :=
  match k with
  | O => 0 <? n
  | S k' => if n <? 10 then false else longer_than k' (n / 10)
  end.

(** [str(n)] raises [ValueError]: the digits of [n], sign apart, are more
    than the limit. *)
Definition str_raises (n : Z) : bool :=
  longer_than (Z.to_nat int_max_str_digits) (Z.abs n).

(** [float(n)] raises [OverflowError]: [n] is at least halfway between the
    largest float, [2^1024 - 2^971], and [2^1024]. *)
Definition float_raises (n : Z) : bool := 2 ^ 1024 - 2 ^ 970 <=? n.

Arguments str_raises n : simpl never.
Arguments float_raises n : simpl never.

Definition ValueError_digits : PyExc :=
  OtherException "ValueError: Exceeds the limit (4300 digits) for integer string conversion".

Definition OverflowError_float : PyExc :=
  OtherException "OverflowError: int too large to convert to float".

(** How a method that can let an exception through ends. *)
Inductive Completion (A : Type) : Type :=
| Returned (a : A)
| Raised (e : PyExc).

Arguments Returned {A} a.
Arguments Raised {A} e.

Definition try_ret {W A : Type} (a : A) : M W (Completion A) :=
  fun w => (Returned a, w, []).

Definition raise {W A : Type} (e : PyExc) : M W (Completion A) :=
  fun w => (Raised e, w, []).

(** Sequencing that stops at the first exception. *)
Definition try_bind {W A B : Type} (m : M W (Completion A))
    (k : A -> M W (Completion B)) : M W (Completion B) :=
  fun w =>
    match m w with
    | (Returned a, w1, t1) => let '(b, w2, t2) := k a w1 in (b, w2, t1 ++ t2)
    | (Raised e, w1, t1) => (Raised e, w1, t1)
    end.

(** A step that returns, inside a method that can raise. *)
Definition attempt {W A : Type} (m : M W A) : M W (Completion A) :=
  fun w => let '(a, w1, t1) := m w in (Returned a, w1, t1).

Declare Scope try_scope.
Delimit Scope try_scope with try.
Notation "x <- m ;; k" := (try_bind m (fun x => k)) : try_scope.
Notation "' p <- m ;; k" := (try_bind m (fun x => let p := x in k)) : try_scope.
Notation "m ;; k" := (try_bind m (fun _ => k)) : try_scope.

(** [logger.info(f"...")] where the f-string formats the caller's numbers
    [ints]: they are formatted first, and the line is logged only if that
    succeeds. *)
Definition logger_info_of {W : Type} (ints : list Z) (r : LogRecord)
  : M W (Completion unit) :=
  if existsb str_raises ints then raise ValueError_digits
  else attempt (logger_info r).

(** A [for x in xs:] loop whose body can raise. *)
Fixpoint for_each_try {W A S : Type} (xs : list A)
    (body : A -> S -> M W (Completion S)) (s : S) : M W (Completion S) :=
  match xs with
  | [] => try_ret s
  | x :: xs' => try_bind (body x s) (fun s' => for_each_try xs' body s')
  end.

(** ** The engine *)

Section Engine.

Variable W : Type.

(** [self.client.iter_dialogs()], [self.client.send_message(entity, text)]
    and [asyncio.sleep(seconds)] as transitions of the world. *)
Variable iter_dialogs : W -> IterResult * W.
Variable send_message : Entity -> string -> W -> SendResult * W.
Variable sleep : Z -> W -> W.

Definition client_iter_dialogs : M W IterResult :=
  fun w => let '(r, w') := iter_dialogs w in (r, w', [EvIterDialogs]).

Definition client_send_message (site : SendSite) (e : Entity) (message : string)
  : M W SendResult :=
  fun w =>
    let '(r, w') := send_message e message w in
    (r, w', [EvSendMessage site e message]).

Definition asyncio_sleep (site : SleepSite) (seconds : Z) : M W unit :=
  fun w => (tt, sleep seconds w, [EvSleep site seconds]).

(** *** [get_all_groups], lines 36-72 *)

(** Lines 49-65: what one pass of the [async for] body appends, if
    anything.  Line 49 keeps [Channel] and [Chat] entities; line 52 keeps
    a channel when it is a megagroup or is not broadcast; line 57 picks
    the type. *)
Definition classify (dialog : Dialog) : option Group :=
  match dlg_entity dialog with
  | Channel id megagroup broadcast =>
      if megagroup || negb broadcast then
        Some {| grp_entity := dlg_entity dialog;
                grp_title := dlg_title dialog;
                grp_id := id;
                grp_type := if megagroup then "supergroup" else "channel" |}
      else None
  | Chat id =>
      Some {| grp_entity := dlg_entity dialog;
              grp_title := dlg_title dialog;
              grp_id := id;
              grp_type := "group" |}
  | User _ => None
  end.

(** One iteration of the [async for]: [groups.append(...)] or nothing. *)
Definition append_dialog (groups : list Group) (dialog : Dialog) : list Group :=
  match classify dialog with
  | Some g => groups ++ [g]
  | None => groups
  end.

(** Lines 43-65: [groups = []], then the loop over the dialogs yielded. *)
Definition collect (dialogs : list Dialog) : list Group :=
  fold_left append_dialog dialogs [].

Definition get_all_groups : M W (list Group) :=
  r <- client_iter_dialogs ;;
  let groups := collect (yielded r) in
  match raised r with
  | None =>
      logger_info (LogFound (len groups)) ;;
      ret groups
  | Some e =>
      logger_error (LogGetGroupsError e) ;;
      ret []
  end.

(** *** [send_to_all_groups_once], lines 74-134 *)

(** Lines 97-132: the body of [for group in groups], on the loop-carried
    pair [(successful_sends, failed_sends)].  [total] is [len(groups)]. *)
Definition send_to_group (message : string) (exclude_ids : list Z) (total : Z)
    (group : Group) (counts : Z * Z) : M W (Z * Z) :=
  let '(successful_sends, failed_sends) := counts in
  if py_in (grp_id group) exclude_ids then
    logger_info (LogSkipping (grp_title group)) ;;
    ret (successful_sends, failed_sends)
  else
    r <- client_send_message FirstAttempt (grp_entity group) message ;;
    match r with
    | None =>
        logger_info (LogSent (grp_title group) (successful_sends + 1) total) ;;
        ret (successful_sends + 1, failed_sends)
    | Some (FloodWaitError seconds) =>
        logger_warning (LogFloodWait seconds) ;;
        asyncio_sleep FloodPause (seconds + 1) ;;
        r' <- client_send_message Retry (grp_entity group) message ;;
        match r' with
        | None =>
            logger_info (LogSentAfterFlood (grp_title group)) ;;
            ret (successful_sends + 1, failed_sends)
        | Some retry_error =>
            logger_error (LogRetryFailed (grp_title group) retry_error) ;;
            ret (successful_sends, failed_sends + 1)
        end
    | Some ChatWriteForbiddenError =>
        logger_warning (LogNoPermission (grp_title group)) ;;
        ret (successful_sends, failed_sends + 1)
    | Some UserBannedInChannelError =>
        logger_warning (LogBanned (grp_title group)) ;;
        ret (successful_sends, failed_sends + 1)
    | Some (OtherException detail) =>
        logger_error (LogSendError (grp_title group) (OtherException detail)) ;;
        ret (successful_sends, failed_sends + 1)
    end.

Definition send_to_all_groups_once (message : string)
    (exclude_ids : option (list Z)) : M W (Z * Z) :=
  let exclude_ids := match exclude_ids with None => [] | Some l => l end in
  groups <- get_all_groups ;;
  match groups with
  | [] =>
      logger_warning LogNoGroups ;;
      ret (0, 0)
  | _ :: _ =>
      logger_info (LogSending (len groups)) ;;
      for_each groups (send_to_group message exclude_ids (len groups)) (0, 0)
  end.

(** *** [broadcast_with_delay], lines 136-168 *)

(** [await asyncio.sleep(delay_between_rounds)], line 163: a delay that is
    not positive only yields; a positive one is converted to a float. *)
Definition asyncio_sleep_for (site : SleepSite) (seconds : Z)
  : M W (Completion unit) :=
  if (0 <? seconds) && float_raises seconds then raise OverflowError_float
  else attempt (asyncio_sleep site seconds).

(** Lines 152-163: the body of [for round_num in range(1, rounds + 1)],
    on the loop-carried pair [(total_success, total_failed)]. *)
Definition run_round (message : string) (rounds delay_between_rounds : Z)
    (exclude_ids : option (list Z)) (round_num : Z) (totals : Z * Z)
  : M W (Completion (Z * Z)) :=
  (let '(total_success, total_failed) := totals in
   logger_info_of [round_num; rounds] (LogRound round_num rounds) ;;
   '(success, failed) <- attempt (send_to_all_groups_once message exclude_ids) ;;
   logger_info_of [round_num] (LogRoundResults round_num success failed) ;;
   (if round_num <? rounds then
      logger_info_of [delay_between_rounds] (LogWaiting delay_between_rounds) ;;
      asyncio_sleep_for RoundPause delay_between_rounds
    else try_ret tt) ;;
   try_ret (total_success + success, total_failed + failed))%try.

(** The method has no [return] statement: when it completes, its caller
    receives Python's [None], here [None : option BroadcastSummary]. *)
Definition broadcast_with_delay (message : string) (rounds delay_between_rounds : Z)
    (exclude_ids : option (list Z)) : M W (Completion (option BroadcastSummary)) :=
  (logger_info_of [rounds; delay_between_rounds]
                  (LogStart rounds delay_between_rounds) ;;
   '(total_success, total_failed) <-
     for_each_try (py_range 1 (rounds + 1))
                  (run_round message rounds delay_between_rounds exclude_ids) (0, 0) ;;
   attempt (logger_info LogFinalSummary) ;;
   attempt (logger_info (LogTotalSent total_success)) ;;
   attempt (logger_info (LogTotalFailed total_failed)) ;;
   logger_info_of [rounds] (LogRoundsCompleted rounds) ;;
   try_ret None)%try.

End Engine.

(** ** Reading a run *)

(** One pass of a [for] loop: the element it ran on, the loop-carried
    variables and world it started from and ended with, and the events it
    emitted. *)
Record Pass (W A S : Type) : Type := mkPass
  { pass_item : A;
    pass_start : S * W;
    pass_end : S * W;
    pass_events : Trace }.

Arguments mkPass {W A S} _ _ _ _.
Arguments pass_item {W A S} _.
Arguments pass_start {W A S} _.
Arguments pass_end {W A S} _.
Arguments pass_events {W A S} _.

(** The passes of [for_each xs body s] started in world [w], in order. *)
Fixpoint passes {W A S : Type} (xs : list A) (body : A -> S -> M W S) (s : S) (w : W)
  : list (Pass W A S) :=
  match xs with
  | [] => []
  | x :: xs' =>
      let '(s', w', t) := body x s w in
      mkPass x (s, w) (s', w') t :: passes xs' body s' w'
  end.

(** One pass of a loop whose body can raise: as [Pass], except that the
    pass ends with the loop-carried variables or with the exception it
    let through. *)
Record TryPass (W A S : Type) : Type := mkTryPass
  { try_item : A;
    try_start : S * W;
    try_end : Completion S * W;
    try_events : Trace }.

Arguments mkTryPass {W A S} _ _ _ _.
Arguments try_item {W A S} _.
Arguments try_start {W A S} _.
Arguments try_end {W A S} _.
Arguments try_events {W A S} _.

(** The passes of [for_each_try xs body s] started in world [w], in
    order, up to and including the one that raised, if any. *)
Fixpoint passes_try {W A S : Type} (xs : list A)
    (body : A -> S -> M W (Completion S)) (s : S) (w : W)
  : list (TryPass W A S) :=
  match xs with
  | [] => []
  | x :: xs' =>
      let '(c, w', t) := body x s w in
      mkTryPass x (s, w) (c, w') t
        :: match c with
           | Returned s' => passes_try xs' body s' w'
           | Raised _ => []
           end
  end.

Definition is_resolution (e : Event) : bool :=
  match e with EvIterDialogs => true | _ => false end.

Definition is_send (e : Event) : bool :=
  match e with EvSendMessage _ _ _ => true | _ => false end.

Definition is_first_attempt (e : Event) : bool :=
  match e with EvSendMessage FirstAttempt _ _ => true | _ => false end.

Definition is_retry (e : Event) : bool :=
  match e with EvSendMessage Retry _ _ => true | _ => false end.

Definition is_round_pause (e : Event) : bool :=
  match e with EvSleep RoundPause _ => true | _ => false end.

Definition is_sleep (e : Event) : bool :=
  match e with EvSleep _ _ => true | _ => false end.

Definition is_skip_log (e : Event) : bool :=
  match e with EvLog _ (LogSkipping _) => true | _ => false end.

Definition count (p : Event -> bool) (t : Trace) : Z := len (filter p t).

(** The per-round results a run logged at line 158, in order. *)
Definition round_results (t : Trace) : list (Z * Z) :=
  flat_map (fun e => match e with
                     | EvLog _ (LogRoundResults _ success failed) => [(success, failed)]
                     | _ => []
                     end) t.

Definition sum (l : list Z) : Z := fold_right Z.add 0 l.

(** The events one run of [send_to_all_groups_once] can emit: everything
    but round pauses and the log lines of [broadcast_with_delay]. *)
Definition dispatch_event (e : Event) : bool :=
  match e with
  | EvIterDialogs => true
  | EvSendMessage _ _ _ => true
  | EvSleep FloodPause _ => true
  | EvSleep RoundPause _ => false
  | EvLog _ (LogStart _ _) => false
  | EvLog _ (LogRound _ _) => false
  | EvLog _ (LogRoundResults _ _ _) => false
  | EvLog _ (LogWaiting _) => false
  | EvLog _ LogFinalSummary => false
  | EvLog _ (LogTotalSent _) => false
  | EvLog _ (LogTotalFailed _) => false
  | EvLog _ (LogRoundsCompleted _) => false
  | EvLog _ _ => true
  end.

(** Membership of a destination's identifier in the exclusion list, as
    tested at line 99. *)
Definition excluded (exclude_ids : list Z) (g : Group) : bool :=
  py_in (grp_id g) exclude_ids.

(** A pass of the dispatch loop attempted a send when it reached line 104. *)
Definition attempted {W S : Type} (p : Pass W Group S) : bool :=
  existsb is_first_attempt (pass_events p).

(** The destinations the dispatch loop sent to, and those it skipped. *)
Definition accepted {W S : Type} (ps : list (Pass W Group S)) : list Group :=
  map pass_item (filter attempted ps).

Definition skipped {W S : Type} (ps : list (Pass W Group S)) : list Group :=
  map pass_item (filter (fun p => negb (attempted p)) ps).

(** The entities a run handed to the send of line 104, and the titles it
    logged as skipped at line 100, each in the order of the trace. *)
Definition first_attempts (t : Trace) : list Entity :=
  flat_map (fun e => match e with
                     | EvSendMessage FirstAttempt entity _ => [entity]
                     | _ => []
                     end) t.

Definition skip_lines (t : Trace) : list string :=
  flat_map (fun e => match e with
                     | EvLog _ (LogSkipping title) => [title]
                     | _ => []
                     end) t.

(** The four log lines that end [broadcast_with_delay] (lines 165-168). *)
Definition final_summary (total_success total_failed rounds : Z) : Trace :=
  [ EvLog INFO LogFinalSummary;
    EvLog INFO (LogTotalSent total_success);
    EvLog INFO (LogTotalFailed total_failed);
    EvLog INFO (LogRoundsCompleted rounds) ].

(** ** A scripted provider

    A test double for the Telegram client: successive [iter_dialogs] calls
    answer with the queued enumeration results, successive [send_message]
    calls with the queued replies (an empty queue answers "no dialogs" and
    "sent"), and sleeping advances a clock. *)
Module Scripted.

Record World : Type := mkWorld
  { enumerations : list IterResult;
    replies : list SendResult;
    clock : Z }.

Definition iter_dialogs (w : World) : IterResult * World :=
  match enumerations w with
  | [] => (mkIter [] None, w)
  | r :: rs => (r, mkWorld rs (replies w) (clock w))
  end.

Definition send_message (_ : Entity) (_ : string) (w : World) : SendResult * World :=
  match replies w with
  | [] => (None, w)
  | r :: rs => (r, mkWorld (enumerations w) rs (clock w))
  end.

Definition sleep (seconds : Z) (w : World) : World :=
  mkWorld (enumerations w) (replies w) (clock w + Z.max 0 seconds).

Definition get_all_groups := get_all_groups World iter_dialogs.
Definition send_to_group := send_to_group World send_message sleep.
Definition send_to_all_groups_once :=
  send_to_all_groups_once World iter_dialogs send_message sleep.
Definition broadcast_with_delay :=
  broadcast_with_delay World iter_dialogs send_message sleep.

(** The catalog of Scenario A of the specification, and a few worlds. *)
Definition G1 : Dialog := mkDialog (Chat 1) "G1".
Definition G2 : Dialog := mkDialog (Channel 2 true false) "G2".
Definition C1 : Dialog := mkDialog (Channel 3 false true) "C1".
Definition N1 : Dialog := mkDialog (Channel 4 false false) "N1".

Definition scenario_A : World :=
  mkWorld [mkIter [G1; G2; C1] None] [] 0.

Definition failing_enumeration : World :=
  mkWorld [mkIter [G1; G2] (Some (OtherException "connection reset"))] [] 0.

Definition plain_channel : World :=
  mkWorld [mkIter [C1; N1] None] [] 0.

(** The destinations of Scenarios B and C. *)
Definition A : Group := mkGroup (Chat 10) "A" 10 "group".
Definition B : Group := mkGroup (Channel 11 true false) "B" 11 "supergroup".
Definition C : Group := mkGroup (Chat 12) "C" 12 "group".

Definition flood_then_sent : World :=
  mkWorld [] [Some (FloodWaitError 5); None] 0.

Definition write_forbidden : World :=
  mkWorld [] [Some ChatWriteForbiddenError] 0.

Definition one_chat : World :=
  mkWorld [mkIter [G1] None] [] 0.

Definition quiet : World := mkWorld [] [] 0.

(** Scenario B: the catalog is [A, B, C] and every send succeeds. *)
Definition scenario_B : World :=
  mkWorld [mkIter [mkDialog (Chat 10) "A";
                   mkDialog (Channel 11 true false) "B";
                   mkDialog (Chat 12) "C"] None] [] 0.

(** Scenario C: the catalog is [A, B, C]; the send to A succeeds, the
    send to B hits a flood wait of 5 and its retry succeeds, the send to
    C is refused. *)
Definition scenario_C : World :=
  mkWorld [mkIter [mkDialog (Chat 10) "A";
                   mkDialog (Channel 11 true false) "B";
                   mkDialog (Chat 12) "C"] None]
          [None; Some (FloodWaitError 5); None; Some ChatWriteForbiddenError] 0.

(** Scenario D: every round finds the one destination G1, and every send
    to it fails with an unclassified error. *)
Definition scenario_D : World :=
  mkWorld [mkIter [G1] None; mkIter [G1] None; mkIter [G1] None]
          [Some (OtherException "boom"); Some (OtherException "boom");
           Some (OtherException "boom")] 0.

End Scripted.

(** * The application around the engine

    The rest of [src/Main.py]: [start] (lines 31-34), [list_groups]
    (lines 170-185), [stop] (lines 187-190), [print_menu] (lines 192-202)
    and [main] (lines 204-326).  These read the keyboard, print, and can
    let exceptions through, so they live in a second monad that adds a
    keyboard script and an exceptional outcome to the one above; the engine
    is run inside it unchanged. *)

(** What a call of [input()] finds: a line typed by the user, or an
    interrupt that makes the call raise [KeyboardInterrupt], as the
    default handler of the interrupt signal does.  When the script is
    exhausted the standard input is at end of file.  What else an
    interrupt can do to a coroutine run by [asyncio.run] (line 330), which
    from Python 3.11 on handles the first interrupt by cancelling the task
    of [main], is outside this model: statements about how [main] ends
    are made for scripts of typed lines. *)
Inductive Key : Type :=
| Line (s : string)
| CtrlC.

(** The exceptions of the application layer.  [KeyboardInterrupt] is the
    one that is not a subclass of [Exception]. *)
Inductive AppExc : Type :=
| EOFError                        (* input() at end of file *)
| ValueError (s : string)         (* int(s) on a string it cannot parse *)
| KeyboardInterrupt               (* input() interrupted *)
| ClientError (e : PyExc)         (* raised by client.start / disconnect *)
| EngineError (e : PyExc).        (* let through by a method of the engine *)

Definition is_Exception (e : AppExc) : bool :=
  match e with
  | KeyboardInterrupt => false
  | _ => true
  end.

(** One constructor per [logger] call outside the engine. *)
Inductive AppLog : Type :=
| LogStarted                                 (* line 34 *)
| LogNoGroupsFound                           (* line 175 *)
| LogListHeader (n : Z)                      (* line 178 *)
| LogListRule                                (* lines 179 and 185 *)
| LogListTitle (i : Z) (title : string)      (* line 182 *)
| LogListId (id : Z)                         (* line 183 *)
| LogListType (type : string)                (* line 184 *)
| LogStopped                                 (* line 190 *)
| LogMainError (e : AppExc).                 (* line 324 *)

(** One constructor per [input] call of [main]. *)
Inductive Prompt : Type :=
| PromptChoice                 (* line 228 *)
| PromptCustomMessage          (* line 255 *)
| PromptRoundsDefault          (* line 260 *)
| PromptDelayDefault           (* line 264 *)
| PromptMessage                (* line 281 *)
| PromptRounds                 (* line 286 *)
| PromptDelay                  (* line 292 *)
| PromptContinue               (* line 314 *)
| PromptContinueAfterError.    (* line 321 *)

(** One constructor per [print] call of [print_menu] and [main]. *)
Inductive Printed : Type :=
| PrintRuleNL                                (* lines 194 and 218 *)
| PrintMenuTitle                             (* line 195 *)
| PrintRule                                  (* lines 196, 202 and 220 *)
| PrintOption (n : Z)                        (* lines 197-201 *)
| PrintScanning                              (* line 219 *)
| PrintListing                               (* line 231 *)
| PrintStartingDefault                       (* line 243 *)
| PrintCustomHeader                          (* line 252 *)
| PrintDashes                                (* lines 253 and 279 *)
| PrintEmptyMessage                          (* lines 257 and 283 *)
| PrintSendingCustom (rounds : Z)            (* line 269 *)
| PrintAdvancedHeader                        (* line 278 *)
| PrintInvalidRounds                         (* line 288 *)
| PrintInvalidDelay                          (* line 294 *)
| PrintStartingBroadcast (rounds delay : Z)  (* line 298 *)
| PrintGoodbye                               (* line 307 *)
| PrintInvalidChoice                         (* line 311 *)
| PrintInterrupted                           (* line 317 *)
| PrintError (e : AppExc).                   (* line 320 *)

Inductive AppEvent : Type :=
| Engine (e : Event)
| AppLogged (lvl : Level) (r : AppLog)
| Print (p : Printed)
| Asked (p : Prompt)
| ClientStart
| ClientDisconnect.

(** How a piece of the application ends: it returns, it raises, or the
    bounded unrolling of [while True] below was cut short (which [main]
    never is, see [main_always_ends]). *)
Inductive Result (A : Type) : Type :=
| Ok (a : A)
| Raise (e : AppExc)
| Stuck.

Arguments Ok {A} a.
Arguments Raise {A} e.
Arguments Stuck {A}.

(** The state of a session: the provider's world and what is left of the
    keyboard script. *)
Record Session (W : Type) : Type := mkSession
  { provider : W;
    keyboard : list Key }.

Arguments mkSession {W} _ _.
Arguments provider {W} _.
Arguments keyboard {W} _.

Definition App (W A : Type) : Type :=
  Session W -> Result A * Session W * list AppEvent.

Definition outcome {W A : Type} (r : Result A * Session W * list AppEvent)
  : Result A := fst (fst r).
Definition session {W A : Type} (r : Result A * Session W * list AppEvent)
  : Session W := snd (fst r).
Definition events {W A : Type} (r : Result A * Session W * list AppEvent)
  : list AppEvent := snd r.

Definition app_ret {W A : Type} (a : A) : App W A :=
  fun s => (Ok a, s, []).

Definition app_raise {W A : Type} (e : AppExc) : App W A :=
  fun s => (Raise e, s, []).

Definition app_bind {W A B : Type} (m : App W A) (k : A -> App W B) : App W B :=
  fun s =>
    match m s with
    | (Ok a, s1, t1) => let '(r, s2, t2) := k a s1 in (r, s2, t1 ++ t2)
    | (Raise e, s1, t1) => (Raise e, s1, t1)
    | (Stuck, s1, t1) => (Stuck, s1, t1)
    end.

Declare Scope app_scope.
Delimit Scope app_scope with app.
Notation "x <- m ;; k" := (app_bind m (fun x => k)) : app_scope.
Notation "m ;; k" := (app_bind m (fun _ => k)) : app_scope.

(** [try: m except (KeyboardInterrupt, Exception) as e: handler e]: the
    handler runs outside the protection of the [try]. *)
Definition try_except {W A : Type} (m : App W A) (handler : AppExc -> App W A)
  : App W A :=
  fun s =>
    match m s with
    | (Raise e, s1, t1) => let '(r, s2, t2) := handler e s1 in (r, s2, t1 ++ t2)
    | r => r
    end.

(** [try: m except Exception as e: handler e]: [KeyboardInterrupt] goes
    through. *)
Definition try_except_Exception {W A : Type} (m : App W A)
    (handler : AppExc -> App W A) : App W A :=
  fun s =>
    match m s with
    | (Raise e, s1, t1) =>
        if is_Exception e then
          let '(r, s2, t2) := handler e s1 in (r, s2, t1 ++ t2)
        else (Raise e, s1, t1)
    | r => r
    end.

(** [try: m finally: cleanup]: the cleanup runs however [m] ended; if it
    raises, that is what the caller sees. *)
Definition try_finally {W A : Type} (m : App W A) (cleanup : App W unit)
  : App W A :=
  fun s =>
    let '(r, s1, t1) := m s in
    match cleanup s1 with
    | (Ok _, s2, t2) => (r, s2, t1 ++ t2)
    | (Raise e, s2, t2) => (Raise e, s2, t1 ++ t2)
    | (Stuck, s2, t2) => (Stuck, s2, t1 ++ t2)
    end.

Definition app_emit {W : Type} (e : AppEvent) : App W unit :=
  fun s => (Ok tt, s, [e]).

Definition print {W : Type} (p : Printed) : App W unit := app_emit (Print p).

Definition app_logger_info {W : Type} (r : AppLog) : App W unit :=
  app_emit (AppLogged INFO r).
Definition app_logger_error {W : Type} (r : AppLog) : App W unit :=
  app_emit (AppLogged ERROR r).

(** [input(prompt)]. *)
Definition input {W : Type} (p : Prompt) : App W string :=
  fun s =>
    match keyboard s with
    | [] => (Raise EOFError, s, [Asked p])
    | Line l :: keys => (Ok l, mkSession (provider s) keys, [Asked p])
    | CtrlC :: keys => (Raise KeyboardInterrupt, mkSession (provider s) keys, [Asked p])
    end.

(** Running, inside the application, a method of the engine that handles
    what it raises itself ([get_all_groups], lines 70-72). *)
Definition run_engine_method {W A : Type} (m : M W A) : App W A :=
  fun s =>
    let '(a, w, t) := m (provider s) in
    (Ok a, mkSession w (keyboard s), map Engine t).

(** Running a method of the engine that can let an exception through:
    the exception reaches the caller of the method. *)
Definition run_engine_call {W A : Type} (m : M W (Completion A)) : App W A :=
  fun s =>
    let '(c, w, t) := m (provider s) in
    (match c with
     | Returned a => Ok a
     | Raised e => Raise (EngineError e)
     end,
     mkSession w (keyboard s), map Engine t).

(** A [for x in xs:] loop with no loop-carried variable. *)
Fixpoint app_for_each {W A : Type} (xs : list A) (body : A -> App W unit)
  : App W unit :=
  match xs with
  | [] => app_ret tt
  | x :: xs' => app_bind (body x) (fun _ => app_for_each xs' body)
  end.

(** [while True: again = body()], unrolled at most [fuel] times; [body]
    answers whether to go round again ([False] is [break]). *)
Fixpoint while_true {W : Type} (fuel : nat) (body : App W bool) : App W unit :=
  match fuel with
  | O => fun s => (Stuck, s, [])
  | S fuel' =>
      app_bind body (fun again => if again then while_true fuel' body else app_ret tt)
  end.

(** Python's [enumerate(xs, start)]. *)
Fixpoint enumerate {A : Type} (xs : list A) (start : Z) : list (Z * A) :=
  match xs with
  | [] => []
  | x :: xs' => (start, x) :: enumerate xs' (start + 1)
  end.

(** How the body of the menu's [try] leaves off: at its last statement
    (line 314), by [continue], or by [break]. *)
Inductive Flow : Type := FallThrough | Continue | Break.

(** The message of menu option 2 (lines 235-242). *)
Definition default_message : string := "
🤖 Hello from my userbot!

This is an automated message sent to all groups.
This will be sent 2 times with 10 seconds delay.

Best regards! 👋
".

Section Application.

Variable W : Type.

Variable iter_dialogs : W -> IterResult * W.
Variable send_message : Entity -> string -> W -> SendResult * W.
Variable sleep : Z -> W -> W.

(** [self.client.start(phone=...)] and [self.client.disconnect()]. *)
Variable client_start : W -> option PyExc * W.
Variable client_disconnect : W -> option PyExc * W.

(** The string builtins [main] uses: [s.strip()], [s.isdigit()] and
    [int(s)], the last answering [None] where Python raises
    [ValueError]. *)
Variable strip : string -> string.
Variable isdigit : string -> bool.
Variable int : string -> option Z.

Local Open Scope app_scope.

(** *** [start], lines 31-34, and [stop], lines 187-190 *)

Definition start : App W unit :=
  fun s =>
    match client_start (provider s) with
    | (None, w) => (Ok tt, mkSession w (keyboard s), [ClientStart; AppLogged INFO LogStarted])
    | (Some e, w) => (Raise (ClientError e), mkSession w (keyboard s), [ClientStart])
    end.

Definition stop : App W unit :=
  fun s =>
    match client_disconnect (provider s) with
    | (None, w) =>
        (Ok tt, mkSession w (keyboard s), [ClientDisconnect; AppLogged INFO LogStopped])
    | (Some e, w) => (Raise (ClientError e), mkSession w (keyboard s), [ClientDisconnect])
    end.

(** *** [list_groups], lines 170-185 *)

(** Lines 182-185: the body of [for i, group in enumerate(groups, 1)]. *)
Definition list_entry (entry : Z * Group) : App W unit :=
  let '(i, group) := entry in
  app_logger_info (LogListTitle i (grp_title group)) ;;
  app_logger_info (LogListId (grp_id group)) ;;
  app_logger_info (LogListType (grp_type group)) ;;
  app_logger_info LogListRule.

Definition list_groups : App W unit :=
  groups <- run_engine_method (get_all_groups W iter_dialogs) ;;
  match groups with
  | [] => app_logger_info LogNoGroupsFound
  | _ :: _ =>
      app_logger_info (LogListHeader (len groups)) ;;
      app_logger_info LogListRule ;;
      app_for_each (enumerate groups 1) list_entry
  end.

(** *** [print_menu], lines 192-202 *)

Definition print_menu : App W unit :=
  print PrintRuleNL ;;
  print PrintMenuTitle ;;
  print PrintRule ;;
  print (PrintOption 1) ;;
  print (PrintOption 2) ;;
  print (PrintOption 3) ;;
  print (PrintOption 4) ;;
  print (PrintOption 5) ;;
  print PrintRule.

(** *** [main], lines 204-326

    Constructing the bot (line 211) makes no call modelled here and is
    taken to succeed; [asyncio.run] (line 330) is the caller of [main]. *)

Definition bot_broadcast_with_delay (message : string) (rounds delay : Z)
    (exclude_ids : option (list Z)) : App W (option BroadcastSummary) :=
  run_engine_call
    (broadcast_with_delay W iter_dialogs send_message sleep
                          message rounds delay exclude_ids).

(** [int(s) if s.isdigit() else default] (lines 261 and 265). *)
Definition int_or_default (s : string) (default : Z) : App W Z :=
  if isdigit s then
    match int s with
    | Some n => app_ret n
    | None => app_raise (ValueError s)
    end
  else app_ret default.

(** [int(s)] (lines 290 and 296). *)
Definition int_of (s : string) : App W Z :=
  match int s with
  | Some n => app_ret n
  | None => app_raise (ValueError s)
  end.

(** Lines 251-275. *)
Definition option_3 : App W Flow :=
  print PrintCustomHeader ;;
  print PrintDashes ;;
  typed <- input PromptCustomMessage ;;
  let custom_msg := strip typed in
  if (custom_msg =? "")%string then
    print PrintEmptyMessage ;;
    app_ret Continue
  else
    typed <- input PromptRoundsDefault ;;
    let rounds_input := strip typed in
    rounds <- int_or_default rounds_input 1 ;;
    delay <- (if 1 <? rounds then
                typed <- input PromptDelayDefault ;;
                let delay_input := strip typed in
                int_or_default delay_input 10
              else app_ret 0) ;;
    print (PrintSendingCustom rounds) ;;
    bot_broadcast_with_delay custom_msg rounds delay (Some []) ;;
    app_ret FallThrough.

(** Lines 277-304. *)
Definition option_4 : App W Flow :=
  print PrintAdvancedHeader ;;
  print PrintDashes ;;
  typed <- input PromptMessage ;;
  let message := strip typed in
  if (message =? "")%string then
    print PrintEmptyMessage ;;
    app_ret Continue
  else
    typed <- input PromptRounds ;;
    let rounds_input := strip typed in
    if negb (isdigit rounds_input) then
      print PrintInvalidRounds ;;
      app_ret Continue
    else
      rounds <- int_of rounds_input ;;
      typed <- input PromptDelay ;;
      let delay_input := strip typed in
      if negb (isdigit delay_input) then
        print PrintInvalidDelay ;;
        app_ret Continue
      else
        delay <- int_of delay_input ;;
        print (PrintStartingBroadcast rounds delay) ;;
        bot_broadcast_with_delay message rounds delay (Some []) ;;
        app_ret FallThrough.

(** Lines 230-311: the [if choice == ...] chain. *)
Definition menu_choice (choice : string) : App W Flow :=
  if (choice =? "1")%string then
    print PrintListing ;;
    list_groups ;;
    app_ret FallThrough
  else if (choice =? "2")%string then
    print PrintStartingDefault ;;
    bot_broadcast_with_delay default_message 2 10 (Some []) ;;
    app_ret FallThrough
  else if (choice =? "3")%string then option_3
  else if (choice =? "4")%string then option_4
  else if (choice =? "5")%string then
    print PrintGoodbye ;;
    app_ret Break
  else
    print PrintInvalidChoice ;;
    app_ret FallThrough.

(** Lines 225-321: one pass of [while True]; answers whether the loop goes
    round again. *)
Definition menu_pass : App W bool :=
  print_menu ;;
  try_except
    (typed <- input PromptChoice ;;
     let choice := strip typed in
     flow <- menu_choice choice ;;
     match flow with
     | FallThrough => input PromptContinue ;; app_ret true
     | Continue => app_ret true
     | Break => app_ret false
     end)
    (fun e =>
       match e with
       | KeyboardInterrupt =>
           print PrintInterrupted ;;
           app_ret false
       | _ =>
           print (PrintError e) ;;
           input PromptContinueAfterError ;;
           app_ret true
       end).

(** Every pass that goes round again has read at least one key, so one
    more unrolling than there are keys is enough for [while True]. *)
Definition menu_loop : App W unit :=
  fun s => while_true (S (length (keyboard s))) menu_pass s.

Definition main : App W unit :=
  try_finally
    (try_except_Exception
       (start ;;
        print PrintRuleNL ;;
        print PrintScanning ;;
        print PrintRule ;;
        list_groups ;;
        menu_loop)
       (fun e => app_logger_error (LogMainError e)))
    stop.

End Application.

(** ** Reading a session *)

Definition is_engine (e : AppEvent) : bool :=
  match e with Engine _ => true | _ => false end.

Definition is_client_call (e : AppEvent) : bool :=
  match e with
  | Engine EvIterDialogs => true
  | Engine (EvSendMessage _ _ _) => true
  | ClientStart => true
  | ClientDisconnect => true
  | _ => false
  end.

Definition is_disconnect (e : AppEvent) : bool :=
  match e with ClientDisconnect => true | _ => false end.

Definition is_menu_shown (e : AppEvent) : bool :=
  match e with Print PrintMenuTitle => true | _ => false end.

Definition is_app_log (e : AppEvent) : bool :=
  match e with AppLogged _ _ => true | _ => false end.

(** The broadcasts a session started: the [(rounds, delay)] of every start
    line logged at line 149. *)
Definition broadcasts_started (t : list AppEvent) : list (Z * Z) :=
  flat_map (fun e => match e with
                     | Engine (EvLog _ (LogStart rounds delay)) => [(rounds, delay)]
                     | _ => []
                     end) t.

(** The messages a session handed to [send_message]. *)
Definition messages_sent (t : list AppEvent) : list string :=
  flat_map (fun e => match e with
                     | Engine (EvSendMessage _ _ message) => [message]
                     | _ => []
                     end) t.

(** The numbered titles [list_groups] logged at line 182, in order. *)
Definition listed_titles (t : list AppEvent) : list (Z * string) :=
  flat_map (fun e => match e with
                     | AppLogged _ (LogListTitle i title) => [(i, title)]
                     | _ => []
                     end) t.

(** Every event a piece of the application emits, from any session,
    satisfies [q]. *)
Definition emits {W A : Type} (q : AppEvent -> bool) (m : App W A) : Prop :=
  forall s, forallb q (events (m s)) = true.

(** A piece of the application never gets stuck, never adds to the
    keyboard script, and has read at least one key whenever it returns a
    value that satisfies [P]. *)
Definition eats_when {W A : Type} (P : A -> bool) (m : App W A) : Prop :=
  forall s,
    outcome (m s) <> Stuck
    /\ (length (keyboard (session (m s))) <= length (keyboard s))%nat
    /\ (forall a, outcome (m s) = Ok a -> P a = true ->
                  (length (keyboard (session (m s))) < length (keyboard s))%nat).

Definition is_line (k : Key) : bool :=
  match k with Line _ => true | CtrlC => false end.

(** On a keyboard script of typed lines, a piece of the application
    leaves such a script behind and does not end in [KeyboardInterrupt]. *)
Definition calm {W A : Type} (m : App W A) : Prop :=
  forall s,
    forallb is_line (keyboard s) = true ->
    forallb is_line (keyboard (session (m s))) = true
    /\ outcome (m s) <> Raise KeyboardInterrupt.

Definition is_skip (e : AppEvent) : bool :=
  match e with Engine (EvLog _ (LogSkipping _)) => true | _ => false end.

Definition is_start_log (e : Event) : bool :=
  match e with EvLog _ (LogStart _ _) => true | _ => false end.

Definition is_flood_pause (e : Event) : bool :=
  match e with EvSleep FloodPause _ => true | _ => false end.

(** The dialog a catalog entry was built from. *)
Definition dialog_of (g : Group) : Dialog :=
  mkDialog (grp_entity g) (grp_title g).

(** ** The builtins on ASCII text, and a scripted session *)
Module Ascii_builtins.

Definition is_space (c : Ascii.ascii) : bool :=
  let n := Ascii.nat_of_ascii c in
  ((9 <=? n) && (n <=? 13) || (n =? 32) || ((28 <=? n) && (n <=? 31)))%nat.

Definition is_digit (c : Ascii.ascii) : bool :=
  let n := Ascii.nat_of_ascii c in ((48 <=? n) && (n <=? 57))%nat.

Fixpoint lstrip (s : string) : string :=
  match s with
  | String c s' => if is_space c then lstrip s' else s
  | EmptyString => EmptyString
  end.

Fixpoint rstrip (s : string) : string :=
  match s with
  | String c s' =>
      match rstrip s' with
      | EmptyString => if is_space c then EmptyString else String c EmptyString
      | r => String c r
      end
  | EmptyString => EmptyString
  end.

Definition strip (s : string) : string := rstrip (lstrip s).

Fixpoint all_digits (s : string) : bool :=
  match s with
  | String c s' => is_digit c && all_digits s'
  | EmptyString => true
  end.

Definition isdigit (s : string) : bool :=
  match s with
  | EmptyString => false
  | _ => all_digits s
  end.

Fixpoint digits_value (s : string) (acc : Z) : Z :=
  match s with
  | String c s' => digits_value s' (10 * acc + Z.of_nat (Ascii.nat_of_ascii c - 48))
  | EmptyString => acc
  end.

(** [int] on a string of digits, the only strings [main] hands it: it
    raises [ValueError] when the digits are more than the runtime's
    limit. *)
Definition int (s : string) : option Z :=
  if isdigit s then
    if Z.of_nat (String.length s) <=? int_max_str_digits
    then Some (digits_value s 0)
    else None
  else None.

End Ascii_builtins.

(** A provider on which every send succeeds. *)
Module Reliable.

Definition send_message (_ : Entity) (_ : string) (w : Scripted.World)
  : SendResult * Scripted.World := (None, w).

Definition send_to_all_groups_once :=
  send_to_all_groups_once Scripted.World Scripted.iter_dialogs send_message
                          Scripted.sleep.

End Reliable.

Module Session_double.

Definition client_start (w : Scripted.World) : option PyExc * Scripted.World :=
  (None, w).

Definition client_refuses (w : Scripted.World) : option PyExc * Scripted.World :=
  (Some (OtherException "unauthorized"), w).

Definition client_disconnect (w : Scripted.World) : option PyExc * Scripted.World :=
  (None, w).

Definition list_groups := list_groups Scripted.World Scripted.iter_dialogs.

Definition option_3 :=
  option_3 Scripted.World Scripted.iter_dialogs Scripted.send_message Scripted.sleep
           Ascii_builtins.strip Ascii_builtins.isdigit Ascii_builtins.int.

Definition option_4 :=
  option_4 Scripted.World Scripted.iter_dialogs Scripted.send_message Scripted.sleep
           Ascii_builtins.strip Ascii_builtins.isdigit Ascii_builtins.int.

Definition typing (keys : list Key) : Session Scripted.World :=
  mkSession Scripted.one_chat keys.

(** The digits of [10^400], a delay the runtime can print and cannot
    sleep for. *)
Definition long_delay : string :=
  "10000000000000000000000000000000000000000000000000000000000000000000000000000000000000000000000000000000000000000000000000000000000000000000000000000000000000000000000000000000000000000000000000000000000000000000000000000000000000000000000000000000000000000000000000000000000000000000000000000000000000000000000000000000000000000000000000000000000000000000000000000000000000000000000000000000000000000".

Definition main_refused :=
  main Scripted.World Scripted.iter_dialogs Scripted.send_message Scripted.sleep
       client_refuses client_disconnect
       Ascii_builtins.strip Ascii_builtins.isdigit Ascii_builtins.int.

Definition main :=
  main Scripted.World Scripted.iter_dialogs Scripted.send_message Scripted.sleep
       client_start client_disconnect
       Ascii_builtins.strip Ascii_builtins.isdigit Ascii_builtins.int.

End Session_double.

(** * Properties *)

(** ** Running the monad *)

Section Laws.

Context {W : Type}.

Lemma run_bind {A B : Type} (m : M W A) (k : A -> M W B) (w : W) :
  bind m k w =
  (value (k (value (m w)) (world (m w))),
   world (k (value (m w)) (world (m w))),
   trace (m w) ++ trace (k (value (m w)) (world (m w)))).
Proof.
  unfold bind, value, world, trace.
  destruct (m w) as [[a w1] t1]; simpl.
  destruct (k a w1) as [[b w2] t2]; reflexivity.
Qed.

Lemma value_mk {A : Type} (a : A) (w : W) (t : Trace) : value (a, w, t) = a.
Proof. reflexivity. Qed.

Lemma world_mk {A : Type} (a : A) (w : W) (t : Trace) : world (a, w, t) = w.
Proof. reflexivity. Qed.

Lemma trace_mk {A : Type} (a : A) (w : W) (t : Trace) : trace (a, w, t) = t.
Proof. reflexivity. Qed.

Lemma run_eta {A : Type} (r : A * W * Trace) :
  r = (value r, world r, trace r).
Proof. destruct r as [[a w] t]; reflexivity. Qed.

Lemma for_each_app {A S : Type} (xs ys : list A) (body : A -> S -> M W S)
    (s : S) (w : W) :
  for_each (xs ++ ys) body s w =
  bind (for_each xs body s) (for_each ys body) w.
Proof.
  revert s w; induction xs as [|x xs IH]; intros s w; simpl.
  - unfold bind, ret. destruct (for_each ys body s w) as [[b w2] t2]; reflexivity.
  - unfold bind in *. destruct (body x s w) as [[s1 w1] t1].
    rewrite IH. destruct (for_each xs body s1 w1) as [[s2 w2] t2].
    destruct (for_each ys body s2 w2) as [[s3 w3] t3].
    rewrite app_assoc; reflexivity.
Qed.

(** The trace of a loop is the concatenation of the events of its
    passes, one pass per element, in order. *)
Lemma trace_for_each {A S : Type} (xs : list A) (body : A -> S -> M W S)
    (s : S) (w : W) :
  trace (for_each xs body s w) = concat (map pass_events (passes xs body s w)).
Proof.
  revert s w; induction xs as [|x xs IH]; intros s w; simpl; [reflexivity|].
  rewrite run_bind; unfold trace at 1; simpl.
  rewrite (run_eta (body x s w)); simpl. rewrite IH. reflexivity.
Qed.

Lemma passes_items {A S : Type} (xs : list A) (body : A -> S -> M W S)
    (s : S) (w : W) :
  map pass_item (passes xs body s w) = xs.
Proof.
  revert s w; induction xs as [|x xs IH]; intros s w; simpl; [reflexivity|].
  destruct (body x s w) as [[s1 w1] t1]; simpl. now rewrite IH.
Qed.

(** Every pass is a run of the body, from where the previous one ended. *)
Lemma passes_are_runs {A S : Type} (xs : list A) (body : A -> S -> M W S)
    (s : S) (w : W) :
  Forall (fun p =>
            body (pass_item p) (fst (pass_start p)) (snd (pass_start p)) =
            (fst (pass_end p), snd (pass_end p), pass_events p))
         (passes xs body s w).
Proof.
  revert s w; induction xs as [|x xs IH]; intros s w; simpl; [constructor|].
  destruct (body x s w) as [[s1 w1] t1] eqn:E; constructor; simpl; auto.
Qed.

(** A property of events that every run of the body keeps is kept by
    the loop. *)
Lemma for_each_events {A S : Type} (q : Event -> bool) (xs : list A)
    (body : A -> S -> M W S) :
  (forall x s w, forallb q (trace (body x s w)) = true) ->
  forall s w, forallb q (trace (for_each xs body s w)) = true.
Proof.
  intros Hbody; induction xs as [|x xs IH]; intros s w; simpl; [reflexivity|].
  rewrite run_bind; unfold trace at 1; simpl.
  rewrite forallb_app, Hbody, IH; reflexivity.
Qed.

End Laws.

Lemma filter_none {A : Type} (p q : A -> bool) (l : list A) :
  (forall a, q a = true -> p a = false) ->
  forallb q l = true -> filter p l = [].
Proof.
  intros Hpq; induction l as [|a l IH]; simpl; [reflexivity|].
  intros H; apply andb_true_iff in H as [Ha Hl].
  rewrite (Hpq a Ha); auto.
Qed.

Lemma len_app {A : Type} (l1 l2 : list A) : len (l1 ++ l2) = len l1 + len l2.
Proof. unfold len; rewrite length_app; lia. Qed.

Lemma count_app (p : Event -> bool) (t1 t2 : Trace) :
  count p (t1 ++ t2) = count p t1 + count p t2.
Proof. unfold count; rewrite filter_app; apply len_app. Qed.

(** ** [get_all_groups] *)

(** What one dialog contributes to the catalog. *)
Lemma collect_flat_map (dialogs : list Dialog) :
  collect dialogs =
  flat_map (fun d => match classify d with Some g => [g] | None => [] end) dialogs.
Proof.
  unfold collect.
  assert (H : forall acc,
             fold_left append_dialog dialogs acc =
             acc ++ flat_map (fun d => match classify d with
                                       | Some g => [g] | None => [] end) dialogs).
  { induction dialogs as [|d ds IH]; intros acc; simpl.
    - now rewrite app_nil_r.
    - rewrite IH; unfold append_dialog.
      destruct (classify d); simpl; [now rewrite <- app_assoc | reflexivity]. }
  apply (H []).
Qed.

Section Catalog.

Variable W : Type.
Variable iter_dialogs : W -> IterResult * W.

Lemma get_all_groups_run (w : W) :
  get_all_groups W iter_dialogs w =
  match raised (fst (iter_dialogs w)) with
  | None =>
      (collect (yielded (fst (iter_dialogs w))), snd (iter_dialogs w),
       [EvIterDialogs;
        EvLog INFO (LogFound (len (collect (yielded (fst (iter_dialogs w))))))])
  | Some e =>
      ([], snd (iter_dialogs w), [EvIterDialogs; EvLog ERROR (LogGetGroupsError e)])
  end.
Proof.
  unfold get_all_groups, client_iter_dialogs, bind.
  destruct (iter_dialogs w) as [r w']; simpl.
  destruct (raised r); reflexivity.
Qed.

End Catalog.

(** C4 : Classification policy of catalog resolution.  A channel flagged
    megagroup is classified "supergroup" whatever its broadcast flag; a
    broadcast channel that is not a megagroup contributes nothing, so the
    catalog is the same with or without it; a plain chat is classified
    "group"; when enumeration ends without an exception the catalog is
    what the dialogs contribute, in order; and the catalog of Scenario A
    resolves to [G1, G2]. *)
Theorem C4_classification_policy :
  (forall id broadcast title,
      classify (mkDialog (Channel id true broadcast) title) =
      Some (mkGroup (Channel id true broadcast) title id "supergroup"))
  /\ (forall id title before after,
        classify (mkDialog (Channel id false true) title) = None
        /\ collect (before ++ mkDialog (Channel id false true) title :: after) =
           collect (before ++ after))
  /\ (forall id title,
        classify (mkDialog (Chat id) title) =
        Some (mkGroup (Chat id) title id "group"))
  /\ (forall W iter_dialogs (w : W),
        value (get_all_groups W iter_dialogs w) =
        match raised (fst (iter_dialogs w)) with
        | None =>
            flat_map (fun d => match classify d with Some g => [g] | None => [] end)
                     (yielded (fst (iter_dialogs w)))
        | Some _ => []
        end)
  /\ value (Scripted.get_all_groups Scripted.scenario_A) =
     [ mkGroup (Chat 1) "G1" 1 "group";
       mkGroup (Channel 2 true false) "G2" 2 "supergroup" ].
Proof.
  split; [|split; [|split; [|split]]].
  - intros id broadcast title; reflexivity.
  - intros id title before after; split; [reflexivity|].
    rewrite !collect_flat_map, !flat_map_app; reflexivity.
  - intros id title; reflexivity.
  - intros W iter_dialogs w. rewrite get_all_groups_run.
    destruct (raised (fst (iter_dialogs w))); unfold value; simpl; [reflexivity|].
    apply collect_flat_map.
  - reflexivity.
Qed.

(** C5 : When the provider raises during dialog enumeration,
    [get_all_groups] returns the empty list to its caller (whatever had
    been collected so far), having logged the error. *)
Theorem C5_enumeration_failure_returns_empty :
  forall W iter_dialogs (w : W) (e : PyExc),
    raised (fst (iter_dialogs w)) = Some e ->
    get_all_groups W iter_dialogs w =
    ([], snd (iter_dialogs w), [EvIterDialogs; EvLog ERROR (LogGetGroupsError e)]).
Proof.
  intros W iter_dialogs w e H. rewrite get_all_groups_run, H. reflexivity.
Qed.

Lemma C5_enumeration_failure_returns_empty_witness :
  raised (fst (Scripted.iter_dialogs Scripted.failing_enumeration)) =
  Some (OtherException "connection reset")
  /\ Scripted.get_all_groups Scripted.failing_enumeration =
     ([], Scripted.mkWorld [] [] 0,
      [EvIterDialogs;
       EvLog ERROR (LogGetGroupsError (OtherException "connection reset"))]).
Proof.
  split; [reflexivity|].
  apply (C5_enumeration_failure_returns_empty
           Scripted.World Scripted.iter_dialogs Scripted.failing_enumeration
           (OtherException "connection reset")).
  reflexivity.
Defined.

(** C9 : A channel that is neither a megagroup nor broadcast is kept, with
    type "channel": it is classified so, and it appears in the catalog
    resolved from any enumeration that yields it and ends without an
    exception. *)
Theorem C9_plain_channel_included :
  (forall id title,
      classify (mkDialog (Channel id false false) title) =
      Some (mkGroup (Channel id false false) title id "channel"))
  /\ (forall W iter_dialogs (w : W) id title,
        raised (fst (iter_dialogs w)) = None ->
        In (mkDialog (Channel id false false) title) (yielded (fst (iter_dialogs w))) ->
        In (mkGroup (Channel id false false) title id "channel")
           (value (get_all_groups W iter_dialogs w))).
Proof.
  split; [reflexivity|].
  intros W iter_dialogs w id title Hr Hin.
  rewrite get_all_groups_run, Hr; unfold value; simpl.
  rewrite collect_flat_map. apply in_flat_map.
  exists (mkDialog (Channel id false false) title); split; [assumption|].
  simpl; auto.
Qed.

Lemma C9_plain_channel_included_witness :
  raised (fst (Scripted.iter_dialogs Scripted.plain_channel)) = None
  /\ In Scripted.N1
        (yielded (fst (Scripted.iter_dialogs
                         Scripted.plain_channel)))
  /\ In (mkGroup (Channel 4 false false) "N1" 4 "channel")
        (value (Scripted.get_all_groups
                  Scripted.plain_channel)).
Proof.
  split; [reflexivity|]. split; [simpl; auto|].
  apply (proj2 C9_plain_channel_included
               Scripted.World Scripted.iter_dialogs
               Scripted.plain_channel
               4 "N1"); [reflexivity | simpl; auto].
Defined.

(** ** The dispatch loop *)

Lemma len_filter_partition {A : Type} (p : A -> bool) (l : list A) :
  len (filter p l) + len (filter (fun a => negb (p a)) l) = len l.
Proof.
  unfold len; induction l as [|a l IH]; cbn [filter]; [reflexivity|].
  destruct (p a); cbn [negb length]; lia.
Qed.

Lemma len_cons {A : Type} (a : A) (l : list A) : len (a :: l) = 1 + len l.
Proof. unfold len; cbn [length]; lia. Qed.

Lemma len_nonneg {A : Type} (l : list A) : 0 <= len l.
Proof. unfold len; lia. Qed.

Lemma first_attempts_app (t1 t2 : Trace) :
  first_attempts (t1 ++ t2) = first_attempts t1 ++ first_attempts t2.
Proof. unfold first_attempts; apply flat_map_app. Qed.

Lemma skip_lines_app (t1 t2 : Trace) :
  skip_lines (t1 ++ t2) = skip_lines t1 ++ skip_lines t2.
Proof. unfold skip_lines; apply flat_map_app. Qed.

Ltac run_engine :=
  unfold send_to_group, bind, ret, logger_info, logger_warning, logger_error,
    emit, client_send_message, asyncio_sleep, excluded in *;
  simpl in *.

Section Dispatch.

Variable W : Type.
Variable iter_dialogs : W -> IterResult * W.
Variable send_message : Entity -> string -> W -> SendResult * W.
Variable sleep : Z -> W -> W.

Local Notation "'body'" := (send_to_group W send_message sleep).

Variable message : string.
Variable exclude_ids : list Z.
Variable total : Z.

(** Line 99-101: an excluded destination is skipped with one log line;
    nothing is sent and neither counter moves. *)
Lemma send_to_group_excluded (g : Group) (counts : Z * Z) (w : W) :
  excluded exclude_ids g = true ->
  body message exclude_ids total g counts w =
  (counts, w, [EvLog INFO (LogSkipping (grp_title g))]).
Proof.
  intros H; destruct counts as [a b]; run_engine. rewrite H; reflexivity.
Qed.

(** Lines 104-132: what a pass does for a destination that is not
    excluded, by the outcome of the send and, after a flood wait, of the
    one retry. *)
Lemma send_to_group_not_excluded (g : Group) (a b : Z) (w : W) :
  excluded exclude_ids g = false ->
  body message exclude_ids total g (a, b) w =
  let first := EvSendMessage FirstAttempt (grp_entity g) message in
  let (r, w1) := send_message (grp_entity g) message w in
  match r with
  | None =>
      ((a + 1, b), w1, [first; EvLog INFO (LogSent (grp_title g) (a + 1) total)])
  | Some (FloodWaitError seconds) =>
      let (r', w2) := send_message (grp_entity g) message (sleep (seconds + 1) w1) in
      let pause :=
        [first; EvLog WARNING (LogFloodWait seconds);
         EvSleep FloodPause (seconds + 1);
         EvSendMessage Retry (grp_entity g) message] in
      match r' with
      | None =>
          ((a + 1, b), w2, pause ++ [EvLog INFO (LogSentAfterFlood (grp_title g))])
      | Some retry_error =>
          ((a, b + 1), w2,
           pause ++ [EvLog ERROR (LogRetryFailed (grp_title g) retry_error)])
      end
  | Some ChatWriteForbiddenError =>
      ((a, b + 1), w1, [first; EvLog WARNING (LogNoPermission (grp_title g))])
  | Some UserBannedInChannelError =>
      ((a, b + 1), w1, [first; EvLog WARNING (LogBanned (grp_title g))])
  | Some (OtherException detail) =>
      ((a, b + 1), w1,
       [first; EvLog ERROR (LogSendError (grp_title g) (OtherException detail))])
  end.
Proof.
  intros H; run_engine. rewrite H.
  destruct (send_message (grp_entity g) message w) as [[[seconds| | |detail]|] w1];
    try reflexivity.
  destruct (send_message (grp_entity g) message (sleep (seconds + 1) w1))
    as [[retry_error|] w2]; reflexivity.
Qed.

Ltac pass_cases g a b w :=
  let H := fresh "Hex" in
  destruct (excluded exclude_ids g) eqn:H;
  [ rewrite (send_to_group_excluded g (a, b) w H)
  | rewrite (send_to_group_not_excluded g a b w H);
    destruct (send_message (grp_entity g) message w) as [[[?seconds| | |?detail]|] ?w1];
    [ destruct (send_message (grp_entity g) message (sleep (seconds + 1) w1))
        as [[?retry_error|] ?w2] | | | | ] ].

(** A pass emits only dispatch events, and never resolves the catalog. *)
Lemma send_to_group_events (g : Group) (counts : Z * Z) (w : W) :
  forallb (fun e => dispatch_event e && negb (is_resolution e))
          (trace (body message exclude_ids total g counts w)) = true.
Proof.
  destruct counts as [a b]. pass_cases g a b w; reflexivity.
Qed.

(** A pass reaches the send of line 104 exactly when the destination is
    not excluded. *)
Lemma send_to_group_attempted (g : Group) (counts : Z * Z) (w : W) :
  existsb is_first_attempt (trace (body message exclude_ids total g counts w)) =
  negb (excluded exclude_ids g).
Proof.
  destruct counts as [a b]. pass_cases g a b w; reflexivity.
Qed.

(** A pass logs a skip exactly when the destination is excluded. *)
Lemma send_to_group_skip_log (g : Group) (counts : Z * Z) (w : W) :
  count is_skip_log (trace (body message exclude_ids total g counts w)) =
  if excluded exclude_ids g then 1 else 0.
Proof.
  destruct counts as [a b]. pass_cases g a b w; reflexivity.
Qed.

(** A pass moves exactly one counter by one, unless the destination is
    excluded, in which case it moves none. *)
Lemma send_to_group_counts (g : Group) (a b : Z) (w : W) :
  let c := value (body message exclude_ids total g (a, b) w) in
  if excluded exclude_ids g then c = (a, b)
  else c = (a + 1, b) \/ c = (a, b + 1).
Proof.
  pass_cases g a b w; unfold value; simpl; auto.
Qed.

(** A pass calls [send_message] at most twice, of which at most one retry. *)
Lemma send_to_group_sends (g : Group) (counts : Z * Z) (w : W) :
  let t := trace (body message exclude_ids total g counts w) in
  count is_retry t <= 1 /\ count is_send t <= 2.
Proof.
  destruct counts as [a b]. pass_cases g a b w; unfold count, len; simpl; lia.
Qed.

(** *** The whole loop *)

Lemma loop_counts (groups : list Group) (a b : Z) (w : W) :
  let c := value (for_each groups (body message exclude_ids total) (a, b) w) in
  a <= fst c /\ b <= snd c /\
  fst c + snd c =
  a + b + len (filter (fun g => negb (excluded exclude_ids g)) groups).
Proof.
  revert a b w; induction groups as [|g gs IH]; intros a b w; cbv zeta;
    cbn [for_each filter].
  - unfold value, len, ret; simpl; lia.
  - rewrite run_bind.
    pose proof (send_to_group_counts g a b w) as Hc; cbv zeta in Hc.
    destruct (body message exclude_ids total g (a, b) w) as [[[a1 b1] w1] t1].
    specialize (IH a1 b1 w1); cbv zeta in IH.
    unfold value, world in *; cbn [fst snd] in *.
    destruct (excluded exclude_ids g); cbn [negb].
    + inversion Hc; subst. exact IH.
    + rewrite len_cons.
      destruct Hc as [Hc|Hc]; inversion Hc; subst; lia.
Qed.

Lemma loop_skip_logs (groups : list Group) (counts : Z * Z) (w : W) :
  count is_skip_log
        (trace (for_each groups (body message exclude_ids total) counts w)) =
  len (filter (excluded exclude_ids) groups).
Proof.
  revert counts w; induction groups as [|g gs IH]; intros counts w;
    cbn [for_each filter].
  - reflexivity.
  - rewrite run_bind; unfold trace at 1; cbn [fst snd].
    rewrite count_app, IH, send_to_group_skip_log.
    destruct (excluded exclude_ids g); rewrite ?len_cons; lia.
Qed.

Lemma loop_accepted (groups : list Group) (counts : Z * Z) (w : W) :
  accepted (passes groups (body message exclude_ids total) counts w) =
  filter (fun g => negb (excluded exclude_ids g)) groups.
Proof.
  unfold accepted.
  revert counts w; induction groups as [|g gs IH]; intros counts w;
    cbn [passes filter map].
  - reflexivity.
  - pose proof (send_to_group_attempted g counts w) as Ha.
    destruct (body message exclude_ids total g counts w) as [[c1 w1] t1].
    unfold trace in Ha; cbn [snd] in Ha. cbn [filter].
    unfold attempted at 1; cbn [pass_events].
    rewrite Ha. destruct (excluded exclude_ids g); cbn [negb map pass_item];
      now rewrite IH.
Qed.

Lemma loop_skipped (groups : list Group) (counts : Z * Z) (w : W) :
  skipped (passes groups (body message exclude_ids total) counts w) =
  filter (excluded exclude_ids) groups.
Proof.
  unfold skipped.
  revert counts w; induction groups as [|g gs IH]; intros counts w;
    cbn [passes filter map].
  - reflexivity.
  - pose proof (send_to_group_attempted g counts w) as Ha.
    destruct (body message exclude_ids total g counts w) as [[c1 w1] t1].
    unfold trace in Ha; cbn [snd] in Ha. cbn [filter].
    unfold attempted at 1; cbn [pass_events].
    rewrite Ha. destruct (excluded exclude_ids g); cbn [negb map pass_item];
      now rewrite IH.
Qed.

(** A pass hands exactly the destinations that are not excluded to the
    send of line 104, and logs exactly the excluded ones as skipped. *)
Lemma send_to_group_first_attempts (g : Group) (counts : Z * Z) (w : W) :
  first_attempts (trace (body message exclude_ids total g counts w)) =
  if excluded exclude_ids g then [] else [grp_entity g].
Proof.
  destruct counts as [a b]. pass_cases g a b w; reflexivity.
Qed.

Lemma send_to_group_skip_lines (g : Group) (counts : Z * Z) (w : W) :
  skip_lines (trace (body message exclude_ids total g counts w)) =
  if excluded exclude_ids g then [grp_title g] else [].
Proof.
  destruct counts as [a b]. pass_cases g a b w; reflexivity.
Qed.

Lemma loop_first_attempts (groups : list Group) (counts : Z * Z) (w : W) :
  first_attempts
    (trace (for_each groups (body message exclude_ids total) counts w)) =
  map grp_entity (filter (fun g => negb (excluded exclude_ids g)) groups).
Proof.
  revert counts w; induction groups as [|g gs IH]; intros counts w;
    cbn [for_each filter].
  - reflexivity.
  - rewrite run_bind, trace_mk, first_attempts_app, IH,
      send_to_group_first_attempts.
    destruct (excluded exclude_ids g); reflexivity.
Qed.

Lemma loop_skip_lines (groups : list Group) (counts : Z * Z) (w : W) :
  skip_lines
    (trace (for_each groups (body message exclude_ids total) counts w)) =
  map grp_title (filter (excluded exclude_ids) groups).
Proof.
  revert counts w; induction groups as [|g gs IH]; intros counts w;
    cbn [for_each filter].
  - reflexivity.
  - rewrite run_bind, trace_mk, skip_lines_app, IH,
      send_to_group_skip_lines.
    destruct (excluded exclude_ids g); reflexivity.
Qed.

End Dispatch.

Section DispatchClaims.

Variable W : Type.
Variable iter_dialogs : W -> IterResult * W.
Variable send_message : Entity -> string -> W -> SendResult * W.
Variable sleep : Z -> W -> W.

Local Notation "'body'" := (send_to_group W send_message sleep).
Local Notation "'dispatch'" :=
  (send_to_all_groups_once W iter_dialogs send_message sleep).

(** [send_to_all_groups_once] resolves the catalog, then either warns
    that it is empty or runs the loop over it from [(0, 0)]. *)
Lemma send_to_all_groups_once_run (message : string)
    (exclude_ids : option (list Z)) (w : W) :
  let ids := match exclude_ids with None => [] | Some l => l end in
  let r := get_all_groups W iter_dialogs w in
  let l := for_each (value r) (body message ids (len (value r))) (0, 0) (world r) in
  dispatch message exclude_ids w =
  match value r with
  | [] => ((0, 0), world r, trace r ++ [EvLog WARNING LogNoGroups])
  | _ :: _ =>
      (value l, world l, trace r ++ EvLog INFO (LogSending (len (value r))) :: trace l)
  end.
Proof.
  cbv zeta. unfold send_to_all_groups_once. rewrite run_bind.
  destruct (value (get_all_groups W iter_dialogs w)) as [|g gs] eqn:E.
  - reflexivity.
  - rewrite run_bind. unfold logger_info, emit, value, world, trace; cbn [fst snd].
    reflexivity.
Qed.

(** C3 : Rate-limit handling.  When the send to a destination raises
    [FloodWaitError] with wait [seconds], the pass sleeps [seconds + 1],
    then sends once more to the same destination; if that send returns
    the success counter goes up by one, if it raises anything the failure
    counter goes up by one, and the pass ends either way.  In every pass
    there is at most one retry. *)
Theorem C3_flood_wait_single_retry :
  (forall message exclude_ids total (g : Group) (a b : Z) (w w1 : W) (seconds : Z),
      excluded exclude_ids g = false ->
      send_message (grp_entity g) message w = (Some (FloodWaitError seconds), w1) ->
      let retry := send_message (grp_entity g) message (sleep (seconds + 1) w1) in
      body message exclude_ids total g (a, b) w =
      (match fst retry with
       | None => (a + 1, b)
       | Some _ => (a, b + 1)
       end,
       snd retry,
       [ EvSendMessage FirstAttempt (grp_entity g) message;
         EvLog WARNING (LogFloodWait seconds);
         EvSleep FloodPause (seconds + 1);
         EvSendMessage Retry (grp_entity g) message;
         match fst retry with
         | None => EvLog INFO (LogSentAfterFlood (grp_title g))
         | Some retry_error => EvLog ERROR (LogRetryFailed (grp_title g) retry_error)
         end ]))
  /\ (forall message exclude_ids total (g : Group) (counts : Z * Z) (w : W),
        count is_retry (trace (body message exclude_ids total g counts w)) <= 1).
Proof.
  split.
  - intros message exclude_ids total g a b w w1 seconds Hex Hsend retry.
    rewrite (send_to_group_not_excluded W send_message sleep
               message exclude_ids total g a b w Hex).
    cbv zeta. rewrite Hsend. subst retry.
    destruct (send_message (grp_entity g) message (sleep (seconds + 1) w1))
      as [[retry_error|] w2]; reflexivity.
  - intros. apply send_to_group_sends.
Qed.

(** C6 : Accounting of one dispatch pass.  The success count plus the
    failure count plus the number of excluded destinations of the catalog
    equals the length of the catalog; both counts are non-negative; every
    excluded destination, and nothing else, is logged as skipped; and a
    pass on an excluded destination leaves both counts as they were. *)
Theorem C6_dispatch_accounting :
  forall message exclude_ids (w : W),
    let ids := match exclude_ids with None => [] | Some l => l end in
    let catalog := value (get_all_groups W iter_dialogs w) in
    let r := dispatch message exclude_ids w in
    fst (value r) + snd (value r) + len (filter (excluded ids) catalog) = len catalog
    /\ 0 <= fst (value r) /\ 0 <= snd (value r)
    /\ count is_skip_log (trace r) = len (filter (excluded ids) catalog)
    /\ (forall total g counts w',
          excluded ids g = true ->
          value (body message ids total g counts w') = counts).
Proof.
  intros message exclude_ids w ids catalog r.
  assert (Hlast : forall total g counts w',
             excluded ids g = true ->
             value (body message ids total g counts w') = counts).
  { intros total g counts w' H.
    now rewrite (send_to_group_excluded W send_message sleep message ids total g counts w' H). }
  subst r. rewrite send_to_all_groups_once_run. cbv zeta. fold ids. fold catalog.
  assert (Hlog : count is_skip_log (trace (get_all_groups W iter_dialogs w)) = 0).
  { rewrite get_all_groups_run.
    destruct (raised (fst (iter_dialogs w))); reflexivity. }
  destruct catalog as [|g gs] eqn:Hcat.
  - rewrite !value_mk, trace_mk, count_app, Hlog.
    unfold len, count; simpl. repeat split; auto; lia.
  - pose proof (loop_counts W send_message sleep message ids (len (g :: gs))
                  (g :: gs) 0 0 (world (get_all_groups W iter_dialogs w))) as Hc.
    cbv zeta in Hc. destruct Hc as (Ha & Hb & Hsum).
    pose proof (len_filter_partition (excluded ids) (g :: gs)) as Hpart.
    rewrite !value_mk, trace_mk, count_app, Hlog.
    change (EvLog INFO (LogSending (len (g :: gs))) :: ?t)
      with ([EvLog INFO (LogSending (len (g :: gs)))] ++ t).
    rewrite count_app, loop_skip_logs.
    replace (count is_skip_log [EvLog INFO (LogSending (len (g :: gs)))]) with 0
      by reflexivity.
    repeat split; auto; lia.
Qed.

(** C7 : The exclusion test partitions the catalog.  In a run of
    [send_to_all_groups_once], the destinations handed to the send of
    line 104 are the catalog filtered by "identifier not in the exclusion
    list", and the titles logged as skipped are those of the catalog
    filtered by "identifier in the exclusion list", each in catalog order;
    the passes of the method's loop that reach the send, and those that do
    not, are these two filters; every catalog entry is in one of the two,
    none is in both; and skipping changes neither the world nor the
    counters. *)
Theorem C7_exclusion_partition :
  forall message exclude_ids (w : W),
    let ids := match exclude_ids with None => [] | Some l => l end in
    let resolved := get_all_groups W iter_dialogs w in
    let catalog := value resolved in
    let r := dispatch message exclude_ids w in
    let ps := passes catalog (body message ids (len catalog)) (0, 0)
                     (world resolved) in
    let sent_to := filter (fun g => negb (excluded ids g)) catalog in
    let skipped_over := filter (excluded ids) catalog in
    first_attempts (trace r) = map grp_entity sent_to
    /\ skip_lines (trace r) = map grp_title skipped_over
    /\ (catalog <> [] ->
        trace r =
        trace resolved
          ++ EvLog INFO (LogSending (len catalog)) :: concat (map pass_events ps))
    /\ accepted ps = sent_to
    /\ skipped ps = skipped_over
    /\ (forall g, In g catalog <-> In g sent_to \/ In g skipped_over)
    /\ (forall g, In g sent_to -> In g skipped_over -> False)
    /\ (forall total g counts' w',
          excluded ids g = true ->
          body message ids total g counts' w' =
          (counts', w', [EvLog INFO (LogSkipping (grp_title g))])).
Proof.
  intros message exclude_ids w ids resolved catalog r ps sent_to skipped_over.
  assert (Hsends : first_attempts (trace resolved) = []).
  { subst resolved. rewrite get_all_groups_run.
    destruct (raised (fst (iter_dialogs w))); reflexivity. }
  assert (Hskips : skip_lines (trace resolved) = []).
  { subst resolved. rewrite get_all_groups_run.
    destruct (raised (fst (iter_dialogs w))); reflexivity. }
  assert (Hrun : r =
                 match catalog with
                 | [] => ((0, 0), world resolved,
                          trace resolved ++ [EvLog WARNING LogNoGroups])
                 | _ :: _ =>
                     let l := for_each catalog (body message ids (len catalog))
                                       (0, 0) (world resolved) in
                     (value l, world l,
                      trace resolved
                        ++ EvLog INFO (LogSending (len catalog)) :: trace l)
                 end).
  { subst r. rewrite send_to_all_groups_once_run. reflexivity. }
  split; [|split; [|split; [|split; [|split; [|split; [|split]]]]]].
  - rewrite Hrun. subst sent_to. destruct catalog as [|g gs] eqn:Hcat.
    + rewrite trace_mk, first_attempts_app, Hsends. reflexivity.
    + cbv zeta. rewrite trace_mk, first_attempts_app, Hsends.
      change (EvLog INFO (LogSending (len (g :: gs))) :: ?t)
        with ([EvLog INFO (LogSending (len (g :: gs)))] ++ t).
      rewrite first_attempts_app. cbn [app first_attempts flat_map].
      apply (loop_first_attempts W send_message sleep).
  - rewrite Hrun. subst skipped_over. destruct catalog as [|g gs] eqn:Hcat.
    + rewrite trace_mk, skip_lines_app, Hskips. reflexivity.
    + cbv zeta. rewrite trace_mk, skip_lines_app, Hskips.
      change (EvLog INFO (LogSending (len (g :: gs))) :: ?t)
        with ([EvLog INFO (LogSending (len (g :: gs)))] ++ t).
      rewrite skip_lines_app. cbn [app skip_lines flat_map].
      apply (loop_skip_lines W send_message sleep).
  - intros Hne. rewrite Hrun. destruct catalog as [|g gs] eqn:Hcat;
      [now elim Hne|].
    cbv zeta. rewrite trace_mk. subst ps. now rewrite trace_for_each.
  - apply loop_accepted.
  - apply loop_skipped.
  - intros g. subst sent_to skipped_over. rewrite !filter_In. split.
    + intros H. destruct (excluded ids g); auto.
    + intros [[H _]|[H _]]; exact H.
  - intros g Ha Hs. apply filter_In in Ha as [_ Ha]. apply filter_In in Hs as [_ Hs].
    rewrite Hs in Ha; discriminate.
  - intros total g counts' w' H. now apply send_to_group_excluded.
Qed.

(** C8 : Errors other than a flood wait.  When the send to a destination
    raises a write-forbidden, banned or any other error, the pass logs
    it, adds one to the failure count, calls [send_message] no second
    time, and the loop goes on with the rest of the catalog from there.
    Whatever the sends raise, the loop makes one pass per destination, in
    catalog order. *)
Theorem C8_errors_do_not_abort :
  (forall message exclude_ids total (g : Group) (rest : list Group) (a b : Z)
          (w w1 : W) (e : PyExc),
      excluded exclude_ids g = false ->
      send_message (grp_entity g) message w = (Some e, w1) ->
      (forall seconds, e <> FloodWaitError seconds) ->
      let events :=
        [ EvSendMessage FirstAttempt (grp_entity g) message;
          match e with
          | ChatWriteForbiddenError => EvLog WARNING (LogNoPermission (grp_title g))
          | UserBannedInChannelError => EvLog WARNING (LogBanned (grp_title g))
          | _ => EvLog ERROR (LogSendError (grp_title g) e)
          end ] in
      let continue := for_each rest (body message exclude_ids total) (a, b + 1) w1 in
      body message exclude_ids total g (a, b) w = ((a, b + 1), w1, events)
      /\ for_each (g :: rest) (body message exclude_ids total) (a, b) w =
         (value continue, world continue, events ++ trace continue))
  /\ (forall message exclude_ids total (groups : list Group) (counts : Z * Z) (w : W),
        map pass_item (passes groups (body message exclude_ids total) counts w) =
        groups).
Proof.
  split.
  - intros message exclude_ids total g rest a b w w1 e Hex Hsend Hnf events continue.
    assert (Hpass : body message exclude_ids total g (a, b) w = ((a, b + 1), w1, events)).
    { rewrite (send_to_group_not_excluded W send_message sleep
                 message exclude_ids total g a b w Hex).
      cbv zeta. rewrite Hsend. subst events.
      destruct e as [seconds| | |detail]; try reflexivity.
      exfalso; exact (Hnf seconds eq_refl). }
    split; [exact Hpass|].
    cbn [for_each]. rewrite run_bind, Hpass. reflexivity.
  - intros. apply passes_items.
Qed.

End DispatchClaims.

(** ** The limits of the runtime *)

Lemma longer_than_spec (k : nat) (n : Z) :
  0 <= n -> longer_than k n = (10 ^ Z.of_nat k <=? n).
Proof.
  revert n; induction k as [|k IH]; intros n Hn.
  - cbn [longer_than]. change (10 ^ Z.of_nat 0) with 1.
    destruct (0 <? n) eqn:E; symmetry;
      [apply Z.leb_le; apply Z.ltb_lt in E | apply Z.leb_gt; apply Z.ltb_ge in E];
      lia.
  - cbn [longer_than]. rewrite Nat2Z.inj_succ, Z.pow_succ_r by lia.
    assert (Hp : 0 < 10 ^ Z.of_nat k) by (apply Z.pow_pos_nonneg; lia).
    destruct (n <? 10) eqn:E.
    + apply Z.ltb_lt in E. symmetry; apply Z.leb_gt.
      revert Hp; generalize (10 ^ Z.of_nat k) as P; intros P HP. lia.
    + apply Z.ltb_ge in E. rewrite IH by (apply Z.div_pos; lia).
      revert Hp; generalize (10 ^ Z.of_nat k) as P; intros P HP.
      pose proof (Z.div_mod n 10 ltac:(lia)) as Hd.
      pose proof (Z.mod_pos_bound n 10 ltac:(lia)) as Hm.
      destruct (P <=? n / 10) eqn:F; symmetry;
        [apply Z.leb_le; apply Z.leb_le in F | apply Z.leb_gt; apply Z.leb_gt in F];
        lia.
Qed.

(** [str(n)] raises exactly when [n], sign apart, is at least [10^4300]. *)
Lemma str_raises_spec (n : Z) :
  str_raises n = (10 ^ int_max_str_digits <=? Z.abs n).
Proof.
  unfold str_raises. rewrite longer_than_spec by lia.
  rewrite Z2Nat.id; [reflexivity | unfold int_max_str_digits; lia].
Qed.

Lemma str_raises_le (a b : Z) :
  Z.abs a <= Z.abs b -> str_raises b = false -> str_raises a = false.
Proof.
  rewrite !str_raises_spec. generalize (10 ^ int_max_str_digits) as P.
  intros P H Hb. apply Z.leb_gt in Hb. apply Z.leb_gt. lia.
Qed.

Lemma str_raises_limit : str_raises (10 ^ int_max_str_digits) = true.
Proof.
  rewrite str_raises_spec. apply Z.leb_le.
  rewrite Z.abs_eq; [lia | apply Z.pow_nonneg; lia].
Qed.

(** Only a positive number is too large for a float. *)
Lemma float_raises_positive (n : Z) :
  float_raises n = true -> (0 <? n) = true.
Proof.
  unfold float_raises. intros H. apply Z.leb_le in H. apply Z.ltb_lt.
  assert (Hpos : 0 < 2 ^ 1024 - 2 ^ 970).
  { replace 1024 with (970 + 54) by lia. rewrite Z.pow_add_r by lia.
    assert (0 < 2 ^ 970) by (apply Z.pow_pos_nonneg; lia).
    assert (1 < 2 ^ 54) by (apply Z.pow_gt_1; lia).
    nia. }
  lia.
Qed.

(** ** Methods that can let an exception through *)

Section TryLaws.

Variable W : Type.

Lemma run_try_bind {A B : Type} (m : M W (Completion A))
    (k : A -> M W (Completion B)) (w : W) :
  try_bind m k w =
  match value (m w) with
  | Returned a =>
      (value (k a (world (m w))), world (k a (world (m w))),
       trace (m w) ++ trace (k a (world (m w))))
  | Raised e => (Raised e, world (m w), trace (m w))
  end.
Proof.
  unfold try_bind, value, world, trace.
  destruct (m w) as [[[a|e] w1] t1]; cbn [fst snd]; [|reflexivity].
  destruct (k a w1) as [[b w2] t2]; reflexivity.
Qed.

Lemma run_attempt {A : Type} (m : M W A) (w : W) :
  attempt m w = (Returned (value (m w)), world (m w), trace (m w)).
Proof.
  unfold attempt, value, world, trace. destruct (m w) as [[a w1] t1]; reflexivity.
Qed.

Lemma run_logger_info_of (ints : list Z) (r : LogRecord) (w : W) :
  logger_info_of ints r w =
  if existsb str_raises ints then (Raised ValueError_digits, w, [])
  else (Returned tt, w, [EvLog INFO r]).
Proof.
  unfold logger_info_of. destruct (existsb str_raises ints); reflexivity.
Qed.

Lemma for_each_try_cons {A S : Type} (x : A) (xs : list A)
    (body : A -> S -> M W (Completion S)) (s : S) (w : W) :
  for_each_try (x :: xs) body s w =
  match value (body x s w) with
  | Returned s1 =>
      (value (for_each_try xs body s1 (world (body x s w))),
       world (for_each_try xs body s1 (world (body x s w))),
       trace (body x s w) ++ trace (for_each_try xs body s1 (world (body x s w))))
  | Raised e => (Raised e, world (body x s w), trace (body x s w))
  end.
Proof. cbn [for_each_try]. apply run_try_bind. Qed.

(** A loop that returned made every pass, and every pass returned. *)
Lemma for_each_try_returned {A S : Type} (x : A) (xs : list A)
    (body : A -> S -> M W (Completion S)) (s c : S) (w : W) :
  value (for_each_try (x :: xs) body s w) = Returned c ->
  exists s1,
    value (body x s w) = Returned s1
    /\ value (for_each_try xs body s1 (world (body x s w))) = Returned c
    /\ for_each_try (x :: xs) body s w =
       (Returned c,
        world (for_each_try xs body s1 (world (body x s w))),
        trace (body x s w) ++ trace (for_each_try xs body s1 (world (body x s w)))).
Proof.
  rewrite for_each_try_cons.
  destruct (value (body x s w)) as [s1|e]; rewrite value_mk; intros H;
    [|discriminate].
  exists s1. split; [reflexivity|]. split; [exact H|]. now rewrite H.
Qed.

Lemma for_each_try_app {A S : Type} (xs ys : list A)
    (body : A -> S -> M W (Completion S)) (s : S) (w : W) :
  for_each_try (xs ++ ys) body s w =
  match value (for_each_try xs body s w) with
  | Returned s1 =>
      (value (for_each_try ys body s1 (world (for_each_try xs body s w))),
       world (for_each_try ys body s1 (world (for_each_try xs body s w))),
       trace (for_each_try xs body s w)
         ++ trace (for_each_try ys body s1 (world (for_each_try xs body s w))))
  | Raised e =>
      (Raised e, world (for_each_try xs body s w), trace (for_each_try xs body s w))
  end.
Proof.
  revert s w; induction xs as [|x xs IH]; intros s w.
  - cbn [app for_each_try]. unfold try_ret. rewrite value_mk, world_mk, trace_mk.
    cbn [app]. apply run_eta.
  - cbn [app]. rewrite !for_each_try_cons.
    destruct (value (body x s w)) as [s1|e].
    + rewrite IH, value_mk, world_mk, trace_mk.
      destruct (value (for_each_try xs body s1 (world (body x s w)))) as [s2|e].
      * rewrite value_mk, world_mk, trace_mk, app_assoc. reflexivity.
      * rewrite value_mk, world_mk, trace_mk. reflexivity.
    + rewrite value_mk, world_mk, trace_mk. reflexivity.
Qed.

(** Whether it returns or raises, a loop emits only what its passes do. *)
Lemma for_each_try_events {A S : Type} (q : Event -> bool) (xs : list A)
    (body : A -> S -> M W (Completion S)) (s : S) (w : W) :
  (forall x s' w', forallb q (trace (body x s' w')) = true) ->
  forallb q (trace (for_each_try xs body s w)) = true.
Proof.
  intros Hb. revert s w; induction xs as [|x xs IH]; intros s w.
  - reflexivity.
  - rewrite for_each_try_cons.
    destruct (value (body x s w)) as [s1|e]; rewrite trace_mk.
    + rewrite forallb_app, Hb, IH. reflexivity.
    + apply Hb.
Qed.

(** The trace of a loop is the traces of its passes, one after another. *)
Lemma trace_for_each_try {A S : Type} (xs : list A)
    (body : A -> S -> M W (Completion S)) (s : S) (w : W) :
  trace (for_each_try xs body s w) =
  concat (map try_events (passes_try xs body s w)).
Proof.
  revert s w; induction xs as [|x xs IH]; intros s w.
  - reflexivity.
  - rewrite for_each_try_cons. cbn [passes_try].
    rewrite (run_eta (body x s w)).
    rewrite value_mk, world_mk, trace_mk.
    destruct (value (body x s w)) as [s1|e]; rewrite trace_mk;
      cbn [map concat try_events].
    + now rewrite IH.
    + now rewrite app_nil_r.
Qed.

(** Each recorded pass is a run of the body on its item, from the state
    the pass started in. *)
Lemma passes_try_are_runs {A S : Type} (xs : list A)
    (body : A -> S -> M W (Completion S)) (s : S) (w : W) :
  Forall (fun p =>
            body (try_item p) (fst (try_start p)) (snd (try_start p)) =
            (fst (try_end p), snd (try_end p), try_events p))
         (passes_try xs body s w).
Proof.
  revert s w; induction xs as [|x xs IH]; intros s w; cbn [passes_try].
  - constructor.
  - destruct (body x s w) as [[c w1] t1] eqn:E.
    constructor; [exact E|].
    destruct c as [s1|e]; [apply IH | constructor].
Qed.

(** A loop that returned has one recorded pass per item, in order. *)
Lemma passes_try_items {A S : Type} (xs : list A)
    (body : A -> S -> M W (Completion S)) (s c : S) (w : W) :
  value (for_each_try xs body s w) = Returned c ->
  map try_item (passes_try xs body s w) = xs.
Proof.
  revert s w; induction xs as [|x xs IH]; intros s w H.
  - reflexivity.
  - apply for_each_try_returned in H as (s1 & Hb & Hl & _).
    cbn [passes_try]. rewrite (run_eta (body x s w)), Hb.
    cbn [map try_item]. f_equal. now apply IH.
Qed.

End TryLaws.

(** ** Rounds *)

Lemma forallb_weaken {A : Type} (p q : A -> bool) (l : list A) :
  (forall a, p a = true -> q a = true) ->
  forallb p l = true -> forallb q l = true.
Proof.
  intros Hpq; induction l as [|a l IH]; simpl; [reflexivity|].
  intros H; apply andb_true_iff in H as [Ha Hl].
  rewrite (Hpq a Ha), IH; auto.
Qed.

Lemma filter_all {A : Type} (p : A -> bool) (l : list A) :
  forallb p l = true -> filter p l = l.
Proof.
  induction l as [|a l IH]; simpl; [reflexivity|].
  intros H; apply andb_true_iff in H as [Ha Hl].
  rewrite Ha, IH; auto.
Qed.

Lemma round_results_app (t1 t2 : Trace) :
  round_results (t1 ++ t2) = round_results t1 ++ round_results t2.
Proof. unfold round_results; apply flat_map_app. Qed.

Lemma round_results_dispatch (t : Trace) :
  forallb dispatch_event t = true -> round_results t = [].
Proof.
  induction t as [|e t IH]; simpl; [reflexivity|].
  intros H; apply andb_true_iff in H as [He Ht].
  rewrite (IH Ht).
  destruct e as [| | |lvl r]; try reflexivity.
  destruct r; try reflexivity; discriminate.
Qed.

Lemma sum_app (l1 l2 : list Z) : sum (l1 ++ l2) = sum l1 + sum l2.
Proof. unfold sum; induction l1 as [|a l1 IH]; simpl; lia. Qed.

(** [range(1, R + 1)] is [range(1, R)] followed by [R], when [R >= 1]. *)
Lemma py_range_last (R : Z) :
  1 <= R -> py_range 1 (R + 1) = py_range 1 R ++ [R].
Proof.
  intros H; unfold py_range.
  replace (Z.to_nat (R + 1 - 1)) with (S (Z.to_nat (R - 1))) by lia.
  rewrite seq_S, map_app; cbn [map Nat.add]. do 2 f_equal. lia.
Qed.

Lemma py_range_length (a b : Z) : length (py_range a b) = Z.to_nat (b - a).
Proof. unfold py_range; now rewrite length_map, length_seq. Qed.

Lemma py_range_below (a b : Z) :
  forallb (fun i => i <? b) (py_range a b) = true.
Proof.
  apply forallb_forall; intros i Hi.
  unfold py_range in Hi. apply in_map_iff in Hi as (n & <- & Hn).
  apply in_seq in Hn. apply Z.ltb_lt. lia.
Qed.

Lemma py_range_bounds (a b i : Z) : In i (py_range a b) -> a <= i < b.
Proof.
  unfold py_range. intros Hi. apply in_map_iff in Hi as (n & <- & Hn).
  apply in_seq in Hn. lia.
Qed.

Lemma py_range_first (a b : Z) :
  a < b -> py_range a b = a :: py_range (a + 1) b.
Proof.
  intros H; unfold py_range.
  replace (Z.to_nat (b - a)) with (S (Z.to_nat (b - (a + 1)))) by lia.
  cbn [seq map]. f_equal; [lia|].
  rewrite <- seq_shift, map_map. apply map_ext. intros n. lia.
Qed.

Section Rounds.

Variable W : Type.
Variable iter_dialogs : W -> IterResult * W.
Variable send_message : Entity -> string -> W -> SendResult * W.
Variable sleep : Z -> W -> W.

Local Notation "'dispatch'" :=
  (send_to_all_groups_once W iter_dialogs send_message sleep).
Local Notation "'round'" :=
  (run_round W iter_dialogs send_message sleep).
Local Notation "'broadcast'" :=
  (broadcast_with_delay W iter_dialogs send_message sleep).

Variable message : string.
Variable exclude_ids : option (list Z).

(** One dispatch pass emits only dispatch events... *)
Lemma dispatch_events (w : W) :
  forallb dispatch_event (trace (dispatch message exclude_ids w)) = true.
Proof.
  rewrite send_to_all_groups_once_run; cbv zeta.
  assert (Hg : forallb dispatch_event (trace (get_all_groups W iter_dialogs w)) = true).
  { rewrite get_all_groups_run.
    destruct (raised (fst (iter_dialogs w))); reflexivity. }
  destruct (value (get_all_groups W iter_dialogs w)) as [|g gs].
  - rewrite trace_mk, forallb_app, Hg; reflexivity.
  - rewrite trace_mk, forallb_app, Hg; cbn [forallb dispatch_event andb].
    apply forallb_weaken
      with (p := fun e => dispatch_event e && negb (is_resolution e)).
    + intros e He; apply andb_true_iff in He; tauto.
    + apply for_each_events; intros. apply send_to_group_events.
Qed.

(** ...and resolves the catalog exactly once. *)
Lemma dispatch_resolutions (w : W) :
  count is_resolution (trace (dispatch message exclude_ids w)) = 1.
Proof.
  rewrite send_to_all_groups_once_run; cbv zeta.
  assert (Hg : count is_resolution (trace (get_all_groups W iter_dialogs w)) = 1).
  { rewrite get_all_groups_run.
    destruct (raised (fst (iter_dialogs w))); reflexivity. }
  destruct (value (get_all_groups W iter_dialogs w)) as [|g gs].
  - rewrite trace_mk, count_app, Hg; reflexivity.
  - rewrite trace_mk, count_app, Hg. unfold count at 1; cbn [filter is_resolution].
    rewrite (filter_none is_resolution
               (fun e => dispatch_event e && negb (is_resolution e))).
    + reflexivity.
    + intros e He; apply andb_true_iff in He as [_ He].
      now destruct (is_resolution e).
    + apply for_each_events; intros. apply send_to_group_events.
Qed.

Lemma dispatch_no_round_pause (w : W) :
  filter is_round_pause (trace (dispatch message exclude_ids w)) = [].
Proof.
  apply (filter_none is_round_pause dispatch_event); [|apply dispatch_events].
  intros [| |[]|] H; try reflexivity; discriminate.
Qed.

Variable rounds : Z.
Variable delay_between_rounds : Z.

(** The events of the pause that follows round [round_num], if any
    (lines 161-163). *)
Local Notation "'pause_after' round_num" :=
  (if round_num <? rounds then
     [EvLog INFO (LogWaiting delay_between_rounds);
      EvSleep RoundPause delay_between_rounds]
   else []) (at level 10).

(** Lines 152-163, in full: where a round can stop, and what it has done
    by then.  Line 152 formats the round number and [rounds]; line 154 is
    one dispatch pass; line 158 formats the round number again; when the
    round is not the last, line 162 formats the delay and line 163 sleeps
    for it. *)
Lemma run_round_run (round_num : Z) (total_success total_failed : Z) (w : W) :
  let r := dispatch message exclude_ids w in
  let t := EvLog INFO (LogRound round_num rounds)
             :: trace r
             ++ [EvLog INFO (LogRoundResults round_num (fst (value r)) (snd (value r)))] in
  let totals := (total_success + fst (value r), total_failed + snd (value r)) in
  round message rounds delay_between_rounds exclude_ids round_num
        (total_success, total_failed) w =
  if str_raises round_num || str_raises rounds then
    (Raised ValueError_digits, w, [])
  else if round_num <? rounds then
    if str_raises delay_between_rounds then
      (Raised ValueError_digits, world r, t)
    else if float_raises delay_between_rounds then
      (Raised OverflowError_float, world r,
       t ++ [EvLog INFO (LogWaiting delay_between_rounds)])
    else
      (Returned totals, sleep delay_between_rounds (world r),
       t ++ [EvLog INFO (LogWaiting delay_between_rounds);
             EvSleep RoundPause delay_between_rounds])
  else (Returned totals, world r, t).
Proof.
  cbv zeta.
  unfold run_round, try_bind, logger_info_of, attempt, raise, try_ret,
    asyncio_sleep_for, asyncio_sleep, logger_info, emit.
  cbn [existsb]. rewrite !orb_false_r.
  destruct (str_raises round_num) eqn:Hi; cbn [orb]; [reflexivity|].
  destruct (str_raises rounds) eqn:HR; [reflexivity|].
  destruct (dispatch message exclude_ids w) as [[[s f] w1] t1].
  unfold value, world, trace; cbn [fst snd].
  destruct (round_num <? rounds).
  - destruct (str_raises delay_between_rounds);
      [cbn [app]; rewrite ?app_nil_r; reflexivity|].
    destruct (float_raises delay_between_rounds) eqn:Hf.
    + rewrite (float_raises_positive _ Hf). unfold raise. cbn [andb app].
      rewrite ?app_nil_r, <- ?app_assoc. reflexivity.
    + rewrite andb_false_r. unfold attempt. cbn [app].
      rewrite ?app_nil_r, <- ?app_assoc. reflexivity.
  - cbn [app]. rewrite ?app_nil_r. reflexivity.
Qed.

(** A round that returned has made one dispatch pass between its two log
    lines, followed by the pause when it is not the last round. *)
Lemma run_round_returned (round_num : Z) (total_success total_failed : Z)
    (w : W) (c : Z * Z) :
  value (round message rounds delay_between_rounds exclude_ids round_num
               (total_success, total_failed) w) = Returned c ->
  let r := dispatch message exclude_ids w in
  round message rounds delay_between_rounds exclude_ids round_num
        (total_success, total_failed) w =
  (Returned (total_success + fst (value r), total_failed + snd (value r)),
   (if round_num <? rounds then sleep delay_between_rounds (world r) else world r),
   EvLog INFO (LogRound round_num rounds)
     :: trace r
     ++ EvLog INFO (LogRoundResults round_num (fst (value r)) (snd (value r)))
     :: pause_after round_num).
Proof.
  rewrite run_round_run; cbv zeta.
  destruct (str_raises round_num || str_raises rounds);
    [rewrite value_mk; discriminate|].
  destruct (round_num <? rounds).
  - destruct (str_raises delay_between_rounds); [rewrite value_mk; discriminate|].
    destruct (float_raises delay_between_rounds); [rewrite value_mk; discriminate|].
    intros _. cbn [app]. rewrite <- app_assoc. reflexivity.
  - intros _. reflexivity.
Qed.

(** Within the limits of the runtime, a round returns. *)
Lemma run_round_within (round_num : Z) (totals : Z * Z) (w : W) :
  str_raises round_num = false ->
  str_raises rounds = false ->
  str_raises delay_between_rounds = false ->
  (round_num < rounds -> float_raises delay_between_rounds = false) ->
  exists c,
    value (round message rounds delay_between_rounds exclude_ids round_num
                 totals w) = Returned c.
Proof.
  intros Hi HR Hd Hf. destruct totals as [ts tf].
  rewrite run_round_run; cbv zeta. rewrite Hi, HR, Hd. cbn [orb].
  destruct (round_num <? rounds) eqn:E.
  - apply Z.ltb_lt in E. rewrite (Hf E), value_mk. eauto.
  - rewrite value_mk. eauto.
Qed.

Lemma run_round_within_run (round_num : Z) (total_success total_failed : Z)
    (w : W) :
  str_raises round_num = false ->
  str_raises rounds = false ->
  str_raises delay_between_rounds = false ->
  (round_num < rounds -> float_raises delay_between_rounds = false) ->
  let r := dispatch message exclude_ids w in
  round message rounds delay_between_rounds exclude_ids round_num
        (total_success, total_failed) w =
  (Returned (total_success + fst (value r), total_failed + snd (value r)),
   (if round_num <? rounds then sleep delay_between_rounds (world r) else world r),
   EvLog INFO (LogRound round_num rounds)
     :: trace r
     ++ EvLog INFO (LogRoundResults round_num (fst (value r)) (snd (value r)))
     :: pause_after round_num).
Proof.
  intros Hi HR Hd Hf.
  destruct (run_round_within round_num (total_success, total_failed) w
                             Hi HR Hd Hf) as [c Hc].
  exact (run_round_returned _ _ _ _ _ Hc).
Qed.

(** Whether it returns or raises, a round emits its own log lines and
    pause around the events of one dispatch pass. *)
Lemma run_round_events (q : Event -> bool) (round_num : Z) (totals : Z * Z) (w : W) :
  (forall e, dispatch_event e = true -> q e = true) ->
  q (EvLog INFO (LogRound round_num rounds)) = true ->
  (forall s f, q (EvLog INFO (LogRoundResults round_num s f)) = true) ->
  q (EvLog INFO (LogWaiting delay_between_rounds)) = true ->
  q (EvSleep RoundPause delay_between_rounds) = true ->
  forallb q (trace (round message rounds delay_between_rounds exclude_ids
                          round_num totals w)) = true.
Proof.
  intros Hd H1 H2 H3 H4. destruct totals as [ts tf].
  assert (Ht : forallb q (trace (dispatch message exclude_ids w)) = true)
    by (apply (forallb_weaken dispatch_event); [exact Hd | apply dispatch_events]).
  rewrite run_round_run; cbv zeta.
  destruct (str_raises round_num || str_raises rounds); [reflexivity|].
  destruct (round_num <? rounds);
    [destruct (str_raises delay_between_rounds);
     [|destruct (float_raises delay_between_rounds)]|];
    rewrite trace_mk; cbn [forallb app];
    rewrite ?forallb_app; cbn [forallb];
    rewrite ?forallb_app; cbn [forallb];
    rewrite H1, Ht, ?H2, ?H3, ?H4; reflexivity.
Qed.

Local Notation "'loop' l" :=
  (for_each_try l (round message rounds delay_between_rounds exclude_ids))
    (at level 10).

(** The first round of a loop that returned, and the rest of the loop. *)
Lemma loop_returned (round_num : Z) (l : list Z) (total_success total_failed : Z)
    (w : W) (c : Z * Z) :
  value (loop (round_num :: l) (total_success, total_failed) w) = Returned c ->
  let r := dispatch message exclude_ids w in
  let totals := (total_success + fst (value r), total_failed + snd (value r)) in
  let w' := if round_num <? rounds
            then sleep delay_between_rounds (world r) else world r in
  value (loop l totals w') = Returned c
  /\ loop (round_num :: l) (total_success, total_failed) w =
     (Returned c, world (loop l totals w'),
      (EvLog INFO (LogRound round_num rounds)
         :: trace r
         ++ EvLog INFO (LogRoundResults round_num (fst (value r)) (snd (value r)))
         :: pause_after round_num)
        ++ trace (loop l totals w')).
Proof.
  intros H. apply for_each_try_returned in H as (c1 & Hb & Hl & Hrun).
  pose proof (run_round_returned _ _ _ _ _ Hb) as Hr.
  cbv zeta in *. rewrite Hrun. clear Hrun. rewrite Hr in Hb, Hl |- *.
  rewrite value_mk in Hb. rewrite world_mk in Hl. rewrite world_mk, trace_mk.
  inversion Hb; subst c1. split; [exact Hl | reflexivity].
Qed.

(** A loop that returned resolved the catalog once per round. *)
Lemma loop_resolutions (l : list Z) (totals : Z * Z) (w : W) (c : Z * Z) :
  value (loop l totals w) = Returned c ->
  count is_resolution (trace (loop l totals w)) = len l.
Proof.
  revert totals w; induction l as [|i l IH]; intros [ts tf] w H.
  - reflexivity.
  - apply loop_returned in H as (Hl & Hrun). cbv zeta in *.
    rewrite Hrun, trace_mk, count_app, (IH _ _ Hl), len_cons.
    change (EvLog INFO (LogRound i rounds) :: ?t)
      with ([EvLog INFO (LogRound i rounds)] ++ t).
    rewrite !count_app, dispatch_resolutions.
    replace (count is_resolution [EvLog INFO (LogRound i rounds)]) with 0
      by reflexivity.
    match goal with
    | |- context [count is_resolution (?e :: ?p)] =>
        replace (count is_resolution (e :: p)) with 0
          by (destruct (i <? rounds); reflexivity)
    end.
    lia.
Qed.

(** It paused once, for the configured delay, after every round whose
    number is below [rounds]. *)
Lemma loop_round_pauses (l : list Z) (totals : Z * Z) (w : W) (c : Z * Z) :
  value (loop l totals w) = Returned c ->
  filter is_round_pause (trace (loop l totals w)) =
  repeat (EvSleep RoundPause delay_between_rounds)
         (length (filter (fun i => i <? rounds) l)).
Proof.
  revert totals w; induction l as [|i l IH]; intros [ts tf] w H.
  - reflexivity.
  - apply loop_returned in H as (Hl & Hrun). cbv zeta in *.
    rewrite Hrun, trace_mk, filter_app, (IH _ _ Hl).
    cbn [filter is_round_pause]. rewrite filter_app, dispatch_no_round_pause.
    cbn [app filter is_round_pause].
    destruct (i <? rounds); reflexivity.
Qed.

Lemma round_results_pause (i : Z) : round_results (pause_after i) = [].
Proof. destruct (i <? rounds); reflexivity. Qed.

(** The totals it returned are the sums of the per-round results. *)
Lemma loop_totals (l : list Z) (total_success total_failed : Z) (w : W)
    (c : Z * Z) :
  let r := loop l (total_success, total_failed) w in
  value r = Returned c ->
  c = (total_success + sum (map fst (round_results (trace r))),
       total_failed + sum (map snd (round_results (trace r)))).
Proof.
  revert total_success total_failed w; induction l as [|i l IH];
    intros ts tf w; cbv zeta; intros H.
  - cbn [for_each_try] in *. unfold try_ret in *.
    rewrite value_mk in H. rewrite trace_mk. inversion H.
    cbn [round_results flat_map map]. unfold sum; cbn [fold_right]. f_equal; lia.
  - apply loop_returned in H as (Hl & Hrun). cbv zeta in *.
    rewrite Hrun, trace_mk. apply IH in Hl. rewrite Hl at 1.
    set (r := dispatch message exclude_ids w).
    set (w' := if i <? rounds then _ else _).
    set (rest := trace (loop l _ w')).
    change (EvLog INFO (LogRound i rounds) :: ?t)
      with ([EvLog INFO (LogRound i rounds)] ++ t).
    change (EvLog INFO (LogRoundResults i (fst (value r)) (snd (value r))) :: ?t)
      with ([EvLog INFO (LogRoundResults i (fst (value r)) (snd (value r)))] ++ t).
    rewrite !round_results_app, (round_results_dispatch (trace r))
      by apply dispatch_events.
    rewrite round_results_pause.
    cbn [round_results flat_map app map fst snd]. unfold sum; cbn [fold_right].
    f_equal; lia.
Qed.

(** Within the limits of the runtime, the loop returns. *)
Lemma loop_within (l : list Z) (totals : Z * Z) (w : W) :
  str_raises rounds = false ->
  str_raises delay_between_rounds = false ->
  (forall i, In i l ->
             str_raises i = false
             /\ (i < rounds -> float_raises delay_between_rounds = false)) ->
  exists c, value (loop l totals w) = Returned c.
Proof.
  intros HR Hd. revert totals w; induction l as [|i l IH]; intros totals w Hl.
  - exists totals. reflexivity.
  - destruct (Hl i (or_introl eq_refl)) as [Hi Hf].
    destruct (run_round_within i totals w Hi HR Hd Hf) as [c1 Hc1].
    rewrite for_each_try_cons, Hc1, value_mk.
    apply IH. intros j Hj. apply Hl. now right.
Qed.

(** The rounds of [range(1, rounds + 1)] are within the limits when
    [rounds] is. *)
Lemma range_within :
  str_raises rounds = false ->
  (2 <= rounds -> float_raises delay_between_rounds = false) ->
  forall i, In i (py_range 1 (rounds + 1)) ->
            str_raises i = false
            /\ (i < rounds -> float_raises delay_between_rounds = false).
Proof.
  intros HR Hf i Hi. apply py_range_bounds in Hi. split.
  - apply (str_raises_le i rounds); [lia | exact HR].
  - intros Hlt. apply Hf. lia.
Qed.

(** Lines 146-168, in full: line 149 formats [rounds] and the delay, and
    logs the start; then comes the loop over [range(1, rounds + 1)]; when
    the loop returned, the four summary lines follow and the method
    returns [None]; what the loop let through, the method lets through. *)
Lemma broadcast_with_delay_run (w : W) :
  let l := loop (py_range 1 (rounds + 1)) (0, 0) w in
  broadcast message rounds delay_between_rounds exclude_ids w =
  if str_raises rounds || str_raises delay_between_rounds then
    (Raised ValueError_digits, w, [])
  else
    match value l with
    | Returned (total_success, total_failed) =>
        (Returned None, world l,
         EvLog INFO (LogStart rounds delay_between_rounds)
           :: trace l ++ final_summary total_success total_failed rounds)
    | Raised e =>
        (Raised e, world l,
         EvLog INFO (LogStart rounds delay_between_rounds) :: trace l)
    end.
Proof.
  cbv zeta. unfold broadcast_with_delay.
  rewrite run_try_bind, run_logger_info_of. cbn [existsb]. rewrite orb_false_r.
  destruct (str_raises rounds) eqn:HR; cbn [orb];
    [rewrite !value_mk, !world_mk, !trace_mk; reflexivity|].
  destruct (str_raises delay_between_rounds);
    rewrite !value_mk, !world_mk, !trace_mk; [reflexivity|].
  rewrite run_try_bind.
  destruct (loop (py_range 1 (rounds + 1)) (0, 0) w) as [[[[ts tf]|e] w1] t1];
    rewrite !value_mk, !world_mk, !trace_mk; [|reflexivity].
  rewrite run_try_bind, run_attempt. unfold logger_info at 1 2 3, emit.
  rewrite !value_mk, !world_mk, !trace_mk.
  rewrite run_try_bind, run_attempt. unfold logger_info at 1 2 3, emit.
  rewrite !value_mk, !world_mk, !trace_mk.
  rewrite run_try_bind, run_attempt. unfold logger_info at 1 2 3, emit.
  rewrite !value_mk, !world_mk, !trace_mk.
  rewrite run_try_bind, run_logger_info_of. cbn [existsb]. rewrite HR. cbn [orb].
  rewrite !value_mk, !world_mk, !trace_mk. unfold try_ret.
  rewrite !value_mk, !world_mk, !trace_mk. unfold final_summary. cbn [app].
  reflexivity.
Qed.

(** The call returns exactly when [rounds] and the delay can be formatted
    and, when there is a pause to make, the delay can be slept for. *)
Lemma broadcast_returns_iff (w : W) :
  (exists v, value (broadcast message rounds delay_between_rounds exclude_ids w)
             = Returned v)
  <-> str_raises rounds = false
      /\ str_raises delay_between_rounds = false
      /\ (2 <= rounds -> float_raises delay_between_rounds = false).
Proof.
  rewrite broadcast_with_delay_run; cbv zeta. split.
  - intros [v Hv].
    destruct (str_raises rounds) eqn:HR; cbn [orb] in Hv;
      [rewrite value_mk in Hv; discriminate|].
    destruct (str_raises delay_between_rounds) eqn:Hd;
      [rewrite value_mk in Hv; discriminate|].
    split; [reflexivity|]. split; [reflexivity|]. intros H2.
    destruct (float_raises delay_between_rounds) eqn:Hf; [exfalso|reflexivity].
    rewrite (py_range_first 1 (rounds + 1)) in Hv by lia.
    rewrite for_each_try_cons, run_round_run in Hv. cbv zeta in Hv.
    assert (H1 : str_raises 1 = false) by reflexivity.
    assert (Hlt : (1 <? rounds) = true) by (apply Z.ltb_lt; lia).
    rewrite H1, HR, Hd, Hf, Hlt in Hv. cbn [orb] in Hv.
    rewrite !value_mk in Hv. discriminate.
  - intros (HR & Hd & Hf). rewrite HR, Hd. cbn [orb].
    destruct (loop_within (py_range 1 (rounds + 1)) (0, 0) w HR Hd
                          (range_within HR Hf)) as [[ts tf] Hc].
    rewrite Hc, value_mk. eauto.
Qed.

End Rounds.

Section BroadcastClaims.

Variable W : Type.
Variable iter_dialogs : W -> IterResult * W.
Variable send_message : Entity -> string -> W -> SendResult * W.
Variable sleep : Z -> W -> W.

Local Notation "'dispatch'" :=
  (send_to_all_groups_once W iter_dialogs send_message sleep).
Local Notation "'round'" :=
  (run_round W iter_dialogs send_message sleep).
Local Notation "'broadcast'" :=
  (broadcast_with_delay W iter_dialogs send_message sleep).

(** C1, as the code has it : whenever [broadcast_with_delay] returns, it
    returns [None] to its caller; the accumulated totals, which are the
    sums of the per-round results, and the [rounds] argument are written
    to the log in the last four lines of the run and are not returned.
    The call returns exactly when the runtime can format [rounds] and the
    delay and, if there are two rounds or more, can sleep for the delay;
    otherwise it lets the exception through and returns nothing either. *)
Theorem C1_broadcast_returns_none_and_logs_totals :
  forall message rounds delay_between_rounds exclude_ids (w : W),
    let r := broadcast message rounds delay_between_rounds exclude_ids w in
    (forall v, value r = Returned v ->
       v = None
       /\ exists t0,
           trace r =
           t0 ++ final_summary (sum (map fst (round_results t0)))
                               (sum (map snd (round_results t0)))
                               rounds)
    /\ ((exists v, value r = Returned v)
        <-> str_raises rounds = false
            /\ str_raises delay_between_rounds = false
            /\ (2 <= rounds -> float_raises delay_between_rounds = false)).
Proof.
  intros message rounds delay exclude_ids w r; subst r.
  split; [|apply broadcast_returns_iff].
  intros v. rewrite broadcast_with_delay_run; cbv zeta.
  destruct (str_raises rounds || str_raises delay);
    [rewrite value_mk; discriminate|].
  set (l := for_each_try _ _ _ w).
  pose proof (loop_totals W iter_dialogs send_message sleep message exclude_ids
                rounds delay (py_range 1 (rounds + 1)) 0 0 w) as H.
  cbv zeta in H. fold l in H.
  destruct (value l) as [[ts tf]|e]; rewrite value_mk, trace_mk;
    [|discriminate].
  intros Hv. inversion Hv. split; [reflexivity|].
  exists (EvLog INFO (LogStart rounds delay) :: trace l).
  specialize (H (ts, tf) eq_refl). inversion H as [[Hts Htf]].
  cbn [round_results flat_map app]. fold (round_results (trace l)).
  cbn [app]. rewrite <- Hts, <- Htf. reflexivity.
Qed.

(** C2, within the limits of the runtime : with [rounds = R >= 1], when
    [R] and the delay can be formatted and, for [R >= 2], the delay can be
    slept for, the call returns and the loop makes exactly [R] passes,
    numbered 1 to [R]; each pass is one complete run of
    [send_to_all_groups_once] between its two log lines, followed by the
    pause unless it is pass [R]; so the run resolves the catalog exactly
    [R] times and sleeps between rounds exactly [R - 1] times, each time
    for the configured delay; and nothing but the final summary follows
    the results line of round [R]. *)
Theorem C2_rounds_and_pauses :
  forall message (R : Z) delay_between_rounds exclude_ids (w : W),
    1 <= R ->
    str_raises R = false ->
    str_raises delay_between_rounds = false ->
    (2 <= R -> float_raises delay_between_rounds = false) ->
    let r := broadcast message R delay_between_rounds exclude_ids w in
    let ps := passes_try (py_range 1 (R + 1))
                         (round message R delay_between_rounds exclude_ids)
                         (0, 0) w in
    value r = Returned None
    /\ map try_item ps = py_range 1 (R + 1)
    /\ len ps = R
    /\ Forall (fun p =>
                 let d := dispatch message exclude_ids (snd (try_start p)) in
                 try_events p =
                 EvLog INFO (LogRound (try_item p) R)
                   :: trace d
                   ++ EvLog INFO (LogRoundResults (try_item p)
                                                  (fst (value d)) (snd (value d)))
                   :: (if try_item p <? R then
                         [EvLog INFO (LogWaiting delay_between_rounds);
                          EvSleep RoundPause delay_between_rounds]
                       else [])) ps
    /\ (exists total_success total_failed,
           trace r =
           EvLog INFO (LogStart R delay_between_rounds)
             :: concat (map try_events ps)
             ++ final_summary total_success total_failed R)
    /\ count is_resolution (trace r) = R
    /\ filter is_round_pause (trace r) =
       repeat (EvSleep RoundPause delay_between_rounds) (Z.to_nat (R - 1))
    /\ count is_round_pause (trace r) = R - 1
    /\ (exists t0 success failed total_success total_failed,
           trace r =
           t0 ++ EvLog INFO (LogRoundResults R success failed)
              :: final_summary total_success total_failed R).
Proof.
  intros message R delay exclude_ids w HR HsR Hsd Hfd r ps.
  set (l := for_each_try (py_range 1 (R + 1))
                         (round message R delay exclude_ids) (0, 0) w).
  pose proof (range_within R delay HsR Hfd) as Hrange.
  destruct (loop_within W iter_dialogs send_message sleep message exclude_ids
                        R delay (py_range 1 (R + 1)) (0, 0) w HsR Hsd Hrange)
    as [[ts tf] Hc].
  fold l in Hc.
  assert (Hrun : r = (Returned None, world l,
                      EvLog INFO (LogStart R delay)
                        :: trace l ++ final_summary ts tf R)).
  { subst r. rewrite broadcast_with_delay_run; cbv zeta.
    rewrite HsR, Hsd. cbn [orb]. fold l. now rewrite Hc. }
  assert (Htrace : trace r =
                   EvLog INFO (LogStart R delay)
                     :: trace l ++ final_summary ts tf R)
    by (now rewrite Hrun, trace_mk).
  assert (Hitems : map try_item ps = py_range 1 (R + 1))
    by (apply (passes_try_items _ _ _ _ _ _ Hc)).
  assert (Hlen : len ps = R).
  { unfold len. rewrite <- (length_map try_item), Hitems, py_range_length. lia. }
  assert (Hpauses : filter is_round_pause (trace r) =
                    repeat (EvSleep RoundPause delay) (Z.to_nat (R - 1))).
  { rewrite Htrace. cbn [filter is_round_pause]. rewrite filter_app.
    unfold l.
    rewrite (loop_round_pauses W iter_dialogs send_message sleep message
               exclude_ids R delay _ _ _ _ Hc).
    cbn [final_summary filter is_round_pause].
    rewrite app_nil_r. f_equal.
    rewrite (py_range_last R HR), filter_app, (filter_all _ _ (py_range_below 1 R)).
    cbn [filter]. rewrite Z.ltb_irrefl, app_nil_r, py_range_length. reflexivity. }
  split; [now rewrite Hrun, value_mk|].
  split; [exact Hitems|]. split; [exact Hlen|].
  split; [|split; [|split; [|split; [|split]]]].
  - apply Forall_forall. intros p Hp.
    pose proof (passes_try_are_runs W (py_range 1 (R + 1))
                  (round message R delay exclude_ids) (0, 0) w) as Hruns.
    rewrite Forall_forall in Hruns. specialize (Hruns p Hp).
    assert (Hin : In (try_item p) (py_range 1 (R + 1))).
    { rewrite <- Hitems. now apply in_map. }
    destruct (Hrange _ Hin) as [Hi Hf].
    destruct (try_start p) as [[ts0 tf0] w0]; cbn [fst snd] in *.
    rewrite (run_round_within_run W iter_dialogs send_message sleep message
               exclude_ids R delay (try_item p) ts0 tf0 w0 Hi HsR Hsd Hf) in Hruns.
    cbv zeta in *. now inversion Hruns.
  - exists ts, tf. rewrite Htrace. unfold l, ps.
    now rewrite trace_for_each_try.
  - rewrite Htrace.
    change (EvLog INFO (LogStart R delay) :: ?t)
      with ([EvLog INFO (LogStart R delay)] ++ t).
    rewrite !count_app. unfold l.
    rewrite (loop_resolutions W iter_dialogs send_message sleep message
               exclude_ids R delay _ _ _ _ Hc).
    unfold len at 1. rewrite py_range_length.
    replace (count is_resolution [EvLog INFO (LogStart R delay)]) with 0 by reflexivity.
    replace (count is_resolution (final_summary ts tf R)) with 0 by reflexivity.
    lia.
  - exact Hpauses.
  - unfold count, len. rewrite Hpauses, repeat_length. lia.
  - rewrite Htrace. unfold l in Hc |- *.
    rewrite (py_range_last R HR), for_each_try_app in Hc |- *.
    destruct (value (for_each_try (py_range 1 R)
                       (round message R delay exclude_ids) (0, 0) w))
      as [[ts1 tf1]|e] eqn:Hfirst;
      [|rewrite value_mk in Hc; discriminate].
    rewrite value_mk in Hc. rewrite trace_mk.
    set (l1 := for_each_try (py_range 1 R) _ (0, 0) w) in *.
    apply (loop_returned W iter_dialogs send_message sleep) in Hc
      as (_ & Hlast). cbv zeta in Hlast.
    rewrite Hlast, trace_mk, Z.ltb_irrefl.
    cbn [for_each_try]. unfold try_ret at 1. rewrite trace_mk, app_nil_r.
    set (d := dispatch message exclude_ids (world l1)).
    exists (EvLog INFO (LogStart R delay)
              :: trace l1 ++ EvLog INFO (LogRound R R) :: trace d).
    exists (fst (value d)), (snd (value d)), ts, tf.
    cbn [app]. f_equal. rewrite <- !app_assoc. cbn [app].
    rewrite <- app_assoc. cbn [app]. reflexivity.
Qed.

(** C10, for a delay the runtime can format : with [rounds = 0] the loop
    body never runs: the call returns, and the run is the start line
    followed by the final summary with both totals 0; the world is
    untouched, the catalog is never resolved, nothing is sent and nothing
    sleeps. *)
Theorem C10_zero_rounds :
  forall message delay_between_rounds exclude_ids (w : W),
    str_raises delay_between_rounds = false ->
    let r := broadcast message 0 delay_between_rounds exclude_ids w in
    r = (Returned None, w,
         EvLog INFO (LogStart 0 delay_between_rounds) :: final_summary 0 0 0)
    /\ count is_resolution (trace r) = 0
    /\ count is_send (trace r) = 0
    /\ count is_sleep (trace r) = 0.
Proof.
  intros message delay exclude_ids w Hd r.
  assert (Hrun : r = (Returned None, w,
                      EvLog INFO (LogStart 0 delay) :: final_summary 0 0 0)).
  { subst r. rewrite broadcast_with_delay_run; cbv zeta.
    replace (str_raises 0) with false by reflexivity. rewrite Hd. reflexivity. }
  rewrite Hrun, trace_mk. repeat split.
Qed.

End BroadcastClaims.

(** ** Instances on the scripted provider *)

(** C1, as the specification has it, fails: on a one-round broadcast to a
    catalog of one chat, the message is sent and the total is logged, yet
    the call returns [None], not a summary. *)
Lemma C1_no_summary_returned :
  value (Scripted.broadcast_with_delay "hi" 1 0 None Scripted.one_chat)
  = Returned None
  /\ ~ (exists s : BroadcastSummary,
          value (Scripted.broadcast_with_delay "hi" 1 0 None Scripted.one_chat)
          = Returned (Some s)
          /\ totalSuccess s = 1 /\ totalFailed s = 0 /\ roundsExecuted s = 1).
Proof.
  split; [vm_compute; reflexivity|].
  intros (s & H & _). vm_compute in H. discriminate H.
Qed.

Lemma C1_broadcast_returns_none_and_logs_totals_witness :
  value (Scripted.broadcast_with_delay "hi" 1 0 None Scripted.one_chat)
  = Returned None
  /\ exists t0,
      trace (Scripted.broadcast_with_delay "hi" 1 0 None Scripted.one_chat) =
      t0 ++ final_summary (sum (map fst (round_results t0)))
                          (sum (map snd (round_results t0))) 1.
Proof.
  pose proof (C1_broadcast_returns_none_and_logs_totals
                Scripted.World Scripted.iter_dialogs Scripted.send_message
                Scripted.sleep "hi" 1 0 None Scripted.one_chat) as H.
  cbv zeta in H. destruct H as (Hret & _).
  assert (Hv : value (Scripted.broadcast_with_delay "hi" 1 0 None Scripted.one_chat)
               = Returned None) by (vm_compute; reflexivity).
  split; [exact Hv|]. exact (proj2 (Hret None Hv)).
Defined.

(** C2, as the specification has it, fails: with two rounds and a delay
    of [10^400] seconds, a number the runtime can print and cannot turn
    into a float, the first round is made and logged, the sleep of line
    163 raises [OverflowError], and the call ends there: one resolution of
    the catalog instead of two, and no pause instead of one. *)
Lemma C2_pause_overflows :
  let r := Scripted.broadcast_with_delay "hi" 2 (10 ^ 400) None Scripted.one_chat in
  1 <= 2
  /\ value r = Raised OverflowError_float
  /\ count is_resolution (trace r) = 1
  /\ count is_round_pause (trace r) = 0
  /\ ~ (count is_resolution (trace r) = 2 /\ count is_round_pause (trace r) = 2 - 1).
Proof.
  vm_compute.
  split; [discriminate|]. split; [reflexivity|]. split; [reflexivity|].
  split; [reflexivity|]. intros [H _]. discriminate H.
Qed.

Lemma C2_rounds_and_pauses_witness :
  1 <= 3
  /\ str_raises 3 = false
  /\ str_raises 10 = false
  /\ float_raises 10 = false
  /\ value (Scripted.broadcast_with_delay "hi" 3 10 None Scripted.scenario_D)
     = Returned None
  /\ count is_resolution
        (trace (Scripted.broadcast_with_delay "hi" 3 10 None Scripted.scenario_D)) = 3
  /\ filter is_round_pause
        (trace (Scripted.broadcast_with_delay "hi" 3 10 None Scripted.scenario_D)) =
     [EvSleep RoundPause 10; EvSleep RoundPause 10].
Proof.
  split; [lia|]. split; [reflexivity|]. split; [reflexivity|].
  split; [reflexivity|].
  pose proof (C2_rounds_and_pauses
                Scripted.World Scripted.iter_dialogs Scripted.send_message Scripted.sleep
                "hi" 3 10 None Scripted.scenario_D ltac:(lia)
                eq_refl eq_refl (fun _ => eq_refl)) as H.
  cbv zeta in H. destruct H as (Hv & _ & _ & _ & _ & Hres & Hpauses & _).
  split; [exact Hv|]. split; [exact Hres | exact Hpauses].
Defined.

(** C10, as the specification has it, fails: with no round to make and a
    delay of [10^4300], a number of 4301 digits, formatting the start
    line raises [ValueError] and the call ends in that error before it
    has logged anything. *)
Lemma C10_start_line_raises :
  Scripted.broadcast_with_delay "hi" 0 (10 ^ 4300) None Scripted.quiet
  = (Raised ValueError_digits, Scripted.quiet, []).
Proof.
  unfold Scripted.broadcast_with_delay.
  rewrite broadcast_with_delay_run; cbv zeta.
  change (10 ^ 4300) with (10 ^ int_max_str_digits).
  rewrite str_raises_limit, orb_true_r. reflexivity.
Qed.

Lemma C10_zero_rounds_witness :
  str_raises 5 = false
  /\ Scripted.broadcast_with_delay "hi" 0 5 None Scripted.quiet
     = (Returned None, Scripted.quiet,
        EvLog INFO (LogStart 0 5) :: final_summary 0 0 0).
Proof.
  split; [reflexivity|].
  exact (proj1 (C10_zero_rounds
                  Scripted.World Scripted.iter_dialogs Scripted.send_message
                  Scripted.sleep "hi" 5 None Scripted.quiet eq_refl)).
Defined.

Lemma C3_flood_wait_single_retry_witness :
  excluded [] Scripted.B = false
  /\ Scripted.send_message (grp_entity Scripted.B) "hi" Scripted.flood_then_sent =
     (Some (FloodWaitError 5), Scripted.mkWorld [] [None] 0)
  /\ Scripted.send_to_group "hi" [] 1 Scripted.B (0, 0) Scripted.flood_then_sent =
     ((1, 0), Scripted.mkWorld [] [] 6,
      [ EvSendMessage FirstAttempt (Channel 11 true false) "hi";
        EvLog WARNING (LogFloodWait 5);
        EvSleep FloodPause 6;
        EvSendMessage Retry (Channel 11 true false) "hi";
        EvLog INFO (LogSentAfterFlood "B") ]).
Proof.
  split; [reflexivity|]. split; [reflexivity|].
  exact (proj1 (C3_flood_wait_single_retry
                  Scripted.World Scripted.send_message Scripted.sleep)
               "hi" [] 1 Scripted.B 0 0 Scripted.flood_then_sent
               (Scripted.mkWorld [] [None] 0) 5 eq_refl eq_refl).
Defined.

Lemma C6_dispatch_accounting_witness :
  excluded [2] (mkGroup (Channel 2 true false) "G2" 2 "supergroup") = true
  /\ value (Scripted.send_to_all_groups_once "hi" (Some [2]) Scripted.scenario_A) = (1, 0)
  /\ 1 + 0 + len (filter (excluded [2])
                         (value (Scripted.get_all_groups Scripted.scenario_A))) =
     len (value (Scripted.get_all_groups Scripted.scenario_A))
  /\ value (Scripted.send_to_group
              "hi" [2] 2 (mkGroup (Channel 2 true false) "G2" 2 "supergroup")
              (1, 0) Scripted.quiet) = (1, 0).
Proof.
  pose proof (C6_dispatch_accounting
                Scripted.World Scripted.iter_dialogs Scripted.send_message Scripted.sleep
                "hi" (Some [2]) Scripted.scenario_A) as H.
  cbv zeta in H. destruct H as (Hsum & _ & _ & _ & Hskip).
  split; [reflexivity|]. split; [reflexivity|]. split; [exact Hsum|].
  apply Hskip. reflexivity.
Defined.

Lemma C7_exclusion_partition_witness :
  first_attempts
    (trace (Scripted.send_to_all_groups_once "hi" (Some [11]) Scripted.scenario_B))
  = [Chat 10; Chat 12]
  /\ skip_lines
       (trace (Scripted.send_to_all_groups_once "hi" (Some [11]) Scripted.scenario_B))
     = ["B"]
  /\ excluded [11] Scripted.B = true
  /\ Scripted.send_to_group "hi" [11] 3 Scripted.B (1, 0) Scripted.quiet =
     ((1, 0), Scripted.quiet, [EvLog INFO (LogSkipping "B")]).
Proof.
  pose proof (C7_exclusion_partition
                Scripted.World Scripted.iter_dialogs Scripted.send_message
                Scripted.sleep "hi" (Some [11]) Scripted.scenario_B) as H.
  cbv zeta in H. destruct H as (Hsent & Hskp & _ & _ & _ & _ & _ & Hskip).
  split; [exact Hsent|]. split; [exact Hskp|]. split; [reflexivity|].
  apply Hskip. reflexivity.
Defined.

Lemma C8_errors_do_not_abort_witness :
  excluded [] Scripted.A = false
  /\ Scripted.send_message (grp_entity Scripted.A) "hi" Scripted.write_forbidden =
     (Some ChatWriteForbiddenError, Scripted.quiet)
  /\ Scripted.send_to_group "hi" [] 2 Scripted.A (0, 0) Scripted.write_forbidden =
     ((0, 1), Scripted.quiet,
      [ EvSendMessage FirstAttempt (Chat 10) "hi";
        EvLog WARNING (LogNoPermission "A") ])
  /\ for_each [Scripted.A; Scripted.C] (Scripted.send_to_group "hi" [] 2) (0, 0)
              Scripted.write_forbidden =
     ((1, 1), Scripted.quiet,
      [ EvSendMessage FirstAttempt (Chat 10) "hi";
        EvLog WARNING (LogNoPermission "A");
        EvSendMessage FirstAttempt (Chat 12) "hi";
        EvLog INFO (LogSent "C" 1 2) ]).
Proof.
  split; [reflexivity|]. split; [reflexivity|].
  exact (proj1 (C8_errors_do_not_abort
                  Scripted.World Scripted.send_message Scripted.sleep)
               "hi" [] 2 Scripted.A [Scripted.C] 0 0 Scripted.write_forbidden
               Scripted.quiet ChatWriteForbiddenError eq_refl eq_refl
               ltac:(intros seconds; discriminate)).
Defined.

(** ** The scenarios of the specification, run *)

(** Scenario B: with B excluded, only A and C are sent to. *)
Example scenario_B_run :
  Scripted.send_to_all_groups_once "hi" (Some [11]) Scripted.scenario_B =
  ((2, 0), Scripted.quiet,
   [ EvIterDialogs; EvLog INFO (LogFound 3); EvLog INFO (LogSending 3);
     EvSendMessage FirstAttempt (Chat 10) "hi"; EvLog INFO (LogSent "A" 1 3);
     EvLog INFO (LogSkipping "B");
     EvSendMessage FirstAttempt (Chat 12) "hi"; EvLog INFO (LogSent "C" 2 3) ]).
Proof. reflexivity. Qed.

(** Scenario C: two sent, one failed, six time units slept for B. *)
Example scenario_C_run :
  Scripted.send_to_all_groups_once "hi" None Scripted.scenario_C =
  ((2, 1), Scripted.mkWorld [] [] 6,
   [ EvIterDialogs; EvLog INFO (LogFound 3); EvLog INFO (LogSending 3);
     EvSendMessage FirstAttempt (Chat 10) "hi"; EvLog INFO (LogSent "A" 1 3);
     EvSendMessage FirstAttempt (Channel 11 true false) "hi";
     EvLog WARNING (LogFloodWait 5); EvSleep FloodPause 6;
     EvSendMessage Retry (Channel 11 true false) "hi";
     EvLog INFO (LogSentAfterFlood "B");
     EvSendMessage FirstAttempt (Chat 12) "hi";
     EvLog WARNING (LogNoPermission "C") ]).
Proof. reflexivity. Qed.

(** Scenario D: three rounds, three failures, two pauses of ten. *)
Example scenario_D_run :
  let r := Scripted.broadcast_with_delay "hi" 3 10 None Scripted.scenario_D in
  value r = Returned None
  /\ Scripted.clock (world r) = 20
  /\ round_results (trace r) = [(0, 1); (0, 1); (0, 1)]
  /\ filter is_sleep (trace r) = [EvSleep RoundPause 10; EvSleep RoundPause 10]
  /\ skipn 26 (trace r) = final_summary 0 3 3.
Proof. vm_compute. repeat split. Qed.

(** * Further properties of the engine *)

(** ** The catalog *)

Lemma classify_some (d : Dialog) (g : Group) :
  classify d = Some g ->
  dialog_of g = d
  /\ match grp_entity g with
     | Channel id megagroup broadcast =>
         grp_id g = id
         /\ (megagroup = true \/ broadcast = false)
         /\ grp_type g = if megagroup then "supergroup" else "channel"
     | Chat id => grp_id g = id /\ grp_type g = "group"
     | User _ => False
     end.
Proof.
  destruct d as [[id megagroup broadcast|id|id] title]; unfold classify; cbn.
  - destruct megagroup, broadcast; cbn; intros H; inversion H; subst; cbn; auto.
  - intros H; inversion H; subst; cbn; auto.
  - discriminate.
Qed.

Lemma classify_dialog_of (d : Dialog) (g : Group) :
  classify d = Some g -> classify (dialog_of g) = Some g.
Proof.
  intros H. destruct (classify_some d g H) as [Hd _]. now rewrite Hd.
Qed.

Lemma in_collect (dialogs : list Dialog) (g : Group) :
  In g (collect dialogs) <-> exists d, In d dialogs /\ classify d = Some g.
Proof.
  rewrite collect_flat_map, in_flat_map. split; intros (d & Hd & H); exists d.
  - split; [exact Hd|]. destruct (classify d) as [g'|]; cbn in H; [|tauto].
    destruct H as [->|[]]; reflexivity.
  - split; [exact Hd|]. rewrite H; cbn; auto.
Qed.

(** X1: every entry of the resolved catalog was built from a dialog the
    enumeration yielded, keeps that dialog's entity and title, carries the
    entity's identifier, and is either a chat typed "group" or a channel
    that is a megagroup (typed "supergroup") or is not broadcast (typed
    "channel"); a user or a broadcast-only channel is never in it. *)
Theorem catalog_entries_are_groups :
  forall W iter_dialogs (w : W) (g : Group),
    In g (value (get_all_groups W iter_dialogs w)) ->
    In (dialog_of g) (yielded (fst (iter_dialogs w)))
    /\ raised (fst (iter_dialogs w)) = None
    /\ match grp_entity g with
       | Channel id megagroup broadcast =>
           grp_id g = id
           /\ (megagroup = true \/ broadcast = false)
           /\ grp_type g = if megagroup then "supergroup" else "channel"
       | Chat id => grp_id g = id /\ grp_type g = "group"
       | User _ => False
       end.
Proof.
  intros W iter_dialogs w g. rewrite get_all_groups_run.
  destruct (raised (fst (iter_dialogs w))) as [e|]; rewrite value_mk; [intros []|].
  intros H. apply in_collect in H as (d & Hd & Hc).
  destruct (classify_some d g Hc) as [Hdg Hshape].
  rewrite Hdg. auto.
Qed.

Lemma catalog_entries_are_groups_witness :
  In (mkGroup (Channel 2 true false) "G2" 2 "supergroup")
     (value (Scripted.get_all_groups Scripted.scenario_A))
  /\ In Scripted.G2 (yielded (fst (Scripted.iter_dialogs Scripted.scenario_A))).
Proof.
  assert (H : In (mkGroup (Channel 2 true false) "G2" 2 "supergroup")
                 (value (Scripted.get_all_groups Scripted.scenario_A)))
    by (cbn; auto).
  split; [exact H|].
  exact (proj1 (catalog_entries_are_groups
                  Scripted.World Scripted.iter_dialogs Scripted.scenario_A _ H)).
Defined.

(** X2: resolving the catalog is idempotent: the dialogs the entries of a
    catalog were built from resolve to that same catalog, entry for entry
    and in the same order; and a catalog is never longer than the
    enumeration it came from. *)
Theorem catalog_resolution_idempotent :
  forall dialogs : list Dialog,
    collect (map dialog_of (collect dialogs)) = collect dialogs
    /\ len (collect dialogs) <= len dialogs.
Proof.
  intros dialogs. rewrite !collect_flat_map. split.
  - induction dialogs as [|d ds IH]; [reflexivity|].
    cbn [flat_map]. rewrite map_app, flat_map_app, IH. f_equal.
    destruct (classify d) as [g|] eqn:H; [|reflexivity].
    cbn. now rewrite (classify_dialog_of d g H).
  - induction dialogs as [|d ds IH]; [reflexivity|].
    cbn [flat_map]. rewrite len_app, len_cons.
    destruct (classify d); [rewrite len_cons|]; unfold len in *; cbn [length]; lia.
Qed.

(** ** One dispatch pass *)

Lemma count_cons (p : Event -> bool) (e : Event) (t : Trace) :
  count p (e :: t) = (if p e then 1 else 0) + count p t.
Proof.
  unfold count; cbn [filter]. destruct (p e); [rewrite len_cons|]; lia.
Qed.

Lemma count_nil (p : Event -> bool) : count p [] = 0.
Proof. reflexivity. Qed.

Lemma count_nonneg (p : Event -> bool) (t : Trace) : 0 <= count p t.
Proof. apply len_nonneg. Qed.

Section DispatchTally.

Variable W : Type.
Variable iter_dialogs : W -> IterResult * W.
Variable send_message : Entity -> string -> W -> SendResult * W.
Variable sleep : Z -> W -> W.

Local Notation "'body'" := (send_to_group W send_message sleep).
Local Notation "'dispatch'" :=
  (send_to_all_groups_once W iter_dialogs send_message sleep).

Variable message : string.
Variable exclude_ids : list Z.
Variable total : Z.

Ltac by_outcome g a b w :=
  let H := fresh "Hex" in
  destruct (excluded exclude_ids g) eqn:H;
  [ rewrite (send_to_group_excluded W send_message sleep
               message exclude_ids total g (a, b) w H)
  | rewrite (send_to_group_not_excluded W send_message sleep
               message exclude_ids total g a b w H);
    cbv zeta;
    let r := fresh "r" in
    let w1 := fresh "w1" in
    destruct (send_message (grp_entity g) message w) as [r w1] eqn:?Hfirst;
    destruct r as [[?seconds| | |?detail]|];
    [ let r' := fresh "r'" in
      let w2 := fresh "w2" in
      destruct (send_message (grp_entity g) message (sleep (seconds + 1) w1))
        as [r' w2] eqn:?Hretry;
      destruct r' as [?retry_error|]
    | | | | ] ].

Ltac tally :=
  rewrite ?value_mk, ?trace_mk; cbn [app fst snd];
  repeat rewrite count_cons; rewrite ?count_nil;
  cbn [is_first_attempt is_retry is_send is_sleep is_flood_pause];
  repeat split; lia.

(** What the five counters of a pass are, in terms of the two counts it
    returns. *)
Lemma pass_tally (g : Group) (a b : Z) (w : W) :
  let r := body message exclude_ids total g (a, b) w in
  count is_first_attempt (trace r) = fst (value r) + snd (value r) - (a + b)
  /\ count is_flood_pause (trace r) = count is_retry (trace r)
  /\ count is_retry (trace r) <= count is_first_attempt (trace r)
  /\ count is_send (trace r) =
     count is_first_attempt (trace r) + count is_retry (trace r)
  /\ count is_sleep (trace r) = count is_flood_pause (trace r)
  /\ a <= fst (value r) /\ b <= snd (value r).
Proof.
  cbv zeta. by_outcome g a b w; tally.
Qed.

Lemma loop_tally (groups : list Group) (a b : Z) (w : W) :
  let r := for_each groups (body message exclude_ids total) (a, b) w in
  count is_first_attempt (trace r) = fst (value r) + snd (value r) - (a + b)
  /\ count is_flood_pause (trace r) = count is_retry (trace r)
  /\ count is_retry (trace r) <= count is_first_attempt (trace r)
  /\ count is_send (trace r) =
     count is_first_attempt (trace r) + count is_retry (trace r)
  /\ count is_sleep (trace r) = count is_flood_pause (trace r)
  /\ a <= fst (value r) /\ b <= snd (value r).
Proof.
  revert a b w; induction groups as [|g gs IH]; intros a b w; cbv zeta;
    cbn [for_each].
  - unfold ret. tally.
  - rewrite run_bind, value_mk, trace_mk, !count_app.
    pose proof (pass_tally g a b w) as Hp; cbv zeta in Hp.
    destruct (value (body message exclude_ids total g (a, b) w)) as [a1 b1] eqn:Hv.
    cbn [fst snd] in Hp.
    specialize (IH a1 b1 (world (body message exclude_ids total g (a, b) w))).
    cbv zeta in IH. lia.
Qed.

(** A pass sends only the message it was given, only to the destination
    it is about, and only when that destination is not excluded. *)
Lemma pass_sends_to (g : Group) (counts : Z * Z) (w : W)
    (site : SendSite) (e : Entity) (m : string) :
  In (EvSendMessage site e m) (trace (body message exclude_ids total g counts w)) ->
  m = message /\ e = grp_entity g /\ excluded exclude_ids g = false.
Proof.
  destruct counts as [a b].
  by_outcome g a b w; rewrite trace_mk; cbn [app In]; intros H;
    repeat match goal with
           | H : _ \/ _ |- _ => destruct H as [H|H]
           | H : False |- _ => destruct H
           | H : EvSendMessage _ _ _ = EvSendMessage _ _ _ |- _ =>
               inversion H; subst; clear H
           | H : _ = EvSendMessage _ _ _ |- _ => discriminate H
           end; auto.
Qed.

Lemma loop_sends_to (groups : list Group) (counts : Z * Z) (w : W)
    (site : SendSite) (e : Entity) (m : string) :
  In (EvSendMessage site e m)
     (trace (for_each groups (body message exclude_ids total) counts w)) ->
  m = message
  /\ exists g, In g groups /\ e = grp_entity g /\ excluded exclude_ids g = false.
Proof.
  revert counts w; induction groups as [|g gs IH]; intros counts w;
    cbn [for_each].
  - intros [].
  - rewrite run_bind, trace_mk, in_app_iff. intros [H|H].
    + apply pass_sends_to in H as (Hm & He & Hx).
      split; [exact Hm|]. exists g; cbn; auto.
    + apply IH in H as (Hm & g' & Hin & He & Hx).
      split; [exact Hm|]. exists g'; cbn; auto.
Qed.

(** When no send ever ends in a flood wait, a pass never sleeps and
    never retries. *)
Lemma pass_without_flood (g : Group) (counts : Z * Z) (w : W) :
  (forall e m w' seconds, fst (send_message e m w') <> Some (FloodWaitError seconds)) ->
  count is_sleep (trace (body message exclude_ids total g counts w)) = 0
  /\ count is_retry (trace (body message exclude_ids total g counts w)) = 0.
Proof.
  intros Hnf. destruct counts as [a b].
  by_outcome g a b w;
    try (exfalso; apply (Hnf (grp_entity g) message w seconds);
         rewrite Hfirst; reflexivity);
    tally.
Qed.

Lemma loop_without_flood (groups : list Group) (counts : Z * Z) (w : W) :
  (forall e m w' seconds, fst (send_message e m w') <> Some (FloodWaitError seconds)) ->
  count is_sleep (trace (for_each groups (body message exclude_ids total) counts w)) = 0
  /\ count is_retry
       (trace (for_each groups (body message exclude_ids total) counts w)) = 0.
Proof.
  intros Hnf. revert counts w; induction groups as [|g gs IH]; intros counts w;
    cbn [for_each].
  - split; reflexivity.
  - rewrite run_bind, trace_mk, !count_app.
    destruct (pass_without_flood g counts w Hnf) as [-> ->].
    destruct (IH (value (body message exclude_ids total g counts w))
                 (world (body message exclude_ids total g counts w))) as [-> ->].
    split; reflexivity.
Qed.

(** When every send succeeds, the loop counts one success per destination
    that is not excluded and no failure. *)
Lemma loop_all_sent (groups : list Group) (a b : Z) (w : W) :
  (forall e m w', fst (send_message e m w') = None) ->
  value (for_each groups (body message exclude_ids total) (a, b) w) =
  (a + len (filter (fun g => negb (excluded exclude_ids g)) groups), b).
Proof.
  intros Hok. revert a b w; induction groups as [|g gs IH]; intros a b w;
    cbn [for_each filter].
  - unfold ret; rewrite value_mk. f_equal. unfold len; cbn; lia.
  - rewrite run_bind, value_mk.
    by_outcome g a b w;
      try (pose proof (Hok (grp_entity g) message w) as Hc;
           rewrite Hfirst in Hc; discriminate Hc);
      rewrite value_mk, world_mk, IH; cbn [negb]; rewrite ?len_cons;
      f_equal; lia.
Qed.

End DispatchTally.

(** ** A whole dispatch *)

Section DispatchFacts.

Variable W : Type.
Variable iter_dialogs : W -> IterResult * W.
Variable send_message : Entity -> string -> W -> SendResult * W.
Variable sleep : Z -> W -> W.

Local Notation "'dispatch'" :=
  (send_to_all_groups_once W iter_dialogs send_message sleep).
Local Notation "'catalog' w" := (value (get_all_groups W iter_dialogs w))
  (at level 10).
Local Notation "'ids_of' exclude_ids" :=
  (match exclude_ids with None => [] | Some l => l end) (at level 10).

(** Resolving the catalog calls [iter_dialogs] and logs; it neither sends
    nor sleeps. *)
Lemma get_all_groups_quiet (w : W) :
  forallb (fun e => negb (is_send e) && negb (is_sleep e))
          (trace (get_all_groups W iter_dialogs w)) = true.
Proof.
  rewrite get_all_groups_run. destruct (raised (fst (iter_dialogs w))); reflexivity.
Qed.

Lemma get_all_groups_counts (p : Event -> bool) (w : W) :
  (forall e, p e = true -> is_send e || is_sleep e = true) ->
  count p (trace (get_all_groups W iter_dialogs w)) = 0.
Proof.
  intros Hp. unfold count.
  rewrite (filter_none p (fun e => negb (is_send e) && negb (is_sleep e)));
    [reflexivity| |apply get_all_groups_quiet].
  intros e He. destruct (p e) eqn:E; [|reflexivity].
  apply Hp in E. destruct (is_send e), (is_sleep e); discriminate.
Qed.

(** The trace of a dispatch is the trace of the resolution, one log line,
    and the trace of the loop, whichever way the catalog test goes, as far
    as sends and sleeps are concerned. *)
Lemma dispatch_count (p : Event -> bool) (message : string)
    (exclude_ids : option (list Z)) (w : W) :
  (forall e, p e = true -> is_send e || is_sleep e = true) ->
  count p (trace (dispatch message exclude_ids w)) =
  count p (trace (for_each (catalog w)
                           (send_to_group W send_message sleep message
                                          (ids_of exclude_ids) (len (catalog w)))
                           (0, 0) (world (get_all_groups W iter_dialogs w)))).
Proof.
  intros Hp. rewrite send_to_all_groups_once_run; cbv zeta.
  destruct (catalog w) as [|g gs] eqn:Hc.
  - rewrite trace_mk, count_app, (get_all_groups_counts p w Hp), count_cons.
    destruct (p (EvLog WARNING LogNoGroups)) eqn:E; [|reflexivity].
    apply Hp in E; discriminate E.
  - rewrite trace_mk, count_app, (get_all_groups_counts p w Hp), count_cons.
    destruct (p (EvLog INFO (LogSending (len (g :: gs))))) eqn:E; [|reflexivity].
    apply Hp in E; discriminate E.
Qed.

Lemma dispatch_value (message : string) (exclude_ids : option (list Z)) (w : W) :
  value (dispatch message exclude_ids w) =
  value (for_each (catalog w)
                  (send_to_group W send_message sleep message
                                 (ids_of exclude_ids) (len (catalog w)))
                  (0, 0) (world (get_all_groups W iter_dialogs w))).
Proof.
  rewrite send_to_all_groups_once_run; cbv zeta.
  destruct (catalog w) as [|g gs] eqn:Hc; rewrite value_mk; reflexivity.
Qed.

Ltac send_or_sleep :=
  let e := fresh "e" in
  intros e; destruct e as [|[]| []|]; cbn; intros; try reflexivity; try discriminate.

(** X3: when the enumeration raises, the dispatch pass returns [(0, 0)]
    having logged the error and the "no groups" warning; it sends
    nothing and does not sleep, exactly as for an account with no group. *)
Theorem failed_enumeration_dispatches_nothing :
  forall message exclude_ids (w : W) (e : PyExc),
    raised (fst (iter_dialogs w)) = Some e ->
    dispatch message exclude_ids w =
    ((0, 0), snd (iter_dialogs w),
     [EvIterDialogs; EvLog ERROR (LogGetGroupsError e); EvLog WARNING LogNoGroups]).
Proof.
  intros message exclude_ids w e H.
  rewrite send_to_all_groups_once_run; cbv zeta.
  rewrite get_all_groups_run, H, value_mk, world_mk, trace_mk. reflexivity.
Qed.

(** X4: in a dispatch pass every first attempt is counted exactly once, as
    a success or as a failure; every retry follows exactly one flood
    pause; there are no more retries than first attempts; and the pass
    sleeps for flood pauses only. *)
Theorem every_attempt_is_counted_once :
  forall message exclude_ids (w : W),
    let r := dispatch message exclude_ids w in
    count is_first_attempt (trace r) = fst (value r) + snd (value r)
    /\ count is_flood_pause (trace r) = count is_retry (trace r)
    /\ count is_retry (trace r) <= count is_first_attempt (trace r)
    /\ count is_send (trace r) =
       count is_first_attempt (trace r) + count is_retry (trace r)
    /\ count is_sleep (trace r) = count is_flood_pause (trace r).
Proof.
  intros message exclude_ids w r; subst r.
  rewrite dispatch_value.
  rewrite !dispatch_count by send_or_sleep.
  pose proof (loop_tally W send_message sleep message (ids_of exclude_ids)
                (len (catalog w)) (catalog w) 0 0
                (world (get_all_groups W iter_dialogs w))) as H.
  cbv zeta in H. repeat split; lia.
Qed.

(** X5: a dispatch pass hands [send_message] the message it was given,
    unchanged, and only entities of catalog entries whose identifier is not
    in the exclusion list: an excluded destination is never sent to. *)
Theorem sends_only_to_destinations_not_excluded :
  forall message exclude_ids (w : W) site (e : Entity) (m : string),
    In (EvSendMessage site e m) (trace (dispatch message exclude_ids w)) ->
    m = message
    /\ exists g, In g (catalog w)
                 /\ e = grp_entity g
                 /\ excluded (ids_of exclude_ids) g = false.
Proof.
  intros message exclude_ids w site e m.
  rewrite send_to_all_groups_once_run; cbv zeta.
  assert (Hquiet : ~ In (EvSendMessage site e m)
                        (trace (get_all_groups W iter_dialogs w))).
  { rewrite get_all_groups_run.
    destruct (raised (fst (iter_dialogs w))); rewrite trace_mk; cbn;
      intros [H|[H|[]]]; discriminate H. }
  destruct (catalog w) as [|g gs] eqn:Hc; rewrite trace_mk, in_app_iff.
  - intros [H|[H|[]]]; [contradiction | discriminate H].
  - intros [H|[H|H]]; [contradiction | discriminate H |].
    apply loop_sends_to in H. exact H.
Qed.

(** X6: on a provider whose sends never end in a flood wait, a dispatch
    pass never sleeps and never retries: it calls [send_message] exactly
    once per counted destination. *)
Theorem no_flood_no_sleep :
  forall message exclude_ids (w : W),
    (forall e m w' seconds,
        fst (send_message e m w') <> Some (FloodWaitError seconds)) ->
    let r := dispatch message exclude_ids w in
    count is_sleep (trace r) = 0
    /\ count is_retry (trace r) = 0
    /\ count is_send (trace r) = fst (value r) + snd (value r).
Proof.
  intros message exclude_ids w Hnf r; subst r.
  rewrite dispatch_value.
  rewrite !dispatch_count by send_or_sleep.
  destruct (loop_without_flood W send_message sleep message (ids_of exclude_ids)
              (len (catalog w)) (catalog w) (0, 0)
              (world (get_all_groups W iter_dialogs w)) Hnf) as [Hs Hr].
  pose proof (loop_tally W send_message sleep message (ids_of exclude_ids)
                (len (catalog w)) (catalog w) 0 0
                (world (get_all_groups W iter_dialogs w))) as H.
  cbv zeta in H. repeat split; lia.
Qed.

(** X7: on a provider whose sends always succeed, a dispatch pass returns
    the number of catalog entries that are not excluded as its success
    count, and 0 as its failure count. *)
Theorem all_sent_when_every_send_succeeds :
  forall message exclude_ids (w : W),
    (forall e m w', fst (send_message e m w') = None) ->
    value (dispatch message exclude_ids w) =
    (len (filter (fun g => negb (excluded (ids_of exclude_ids) g)) (catalog w)), 0).
Proof.
  intros message exclude_ids w Hok.
  rewrite dispatch_value, (loop_all_sent W send_message sleep) by exact Hok.
  reflexivity.
Qed.

(** Both counts of a dispatch are non-negative. *)
Lemma dispatch_counts_nonneg (message : string) (exclude_ids : option (list Z))
    (w : W) :
  0 <= fst (value (dispatch message exclude_ids w))
  /\ 0 <= snd (value (dispatch message exclude_ids w)).
Proof.
  rewrite dispatch_value.
  pose proof (loop_tally W send_message sleep message (ids_of exclude_ids)
                (len (catalog w)) (catalog w) 0 0
                (world (get_all_groups W iter_dialogs w))) as H.
  cbv zeta in H. lia.
Qed.

(** With an empty exclusion list nothing is logged as skipped. *)
Lemma dispatch_skips_nothing (message : string) (exclude_ids : option (list Z))
    (w : W) :
  ids_of exclude_ids = [] ->
  count is_skip_log (trace (dispatch message exclude_ids w)) = 0.
Proof.
  intros Hids. rewrite send_to_all_groups_once_run; cbv zeta. rewrite Hids.
  assert (Hg : count is_skip_log (trace (get_all_groups W iter_dialogs w)) = 0).
  { rewrite get_all_groups_run.
    destruct (raised (fst (iter_dialogs w))); reflexivity. }
  destruct (catalog w) as [|g gs] eqn:Hc;
    rewrite trace_mk, count_app, Hg, count_cons; [reflexivity|].
  rewrite loop_skip_logs. cbn [is_skip_log].
  replace (filter (excluded []) (g :: gs)) with (@nil Group); [reflexivity|].
  symmetry. apply (filter_none _ (fun _ => true)); [reflexivity|].
  apply forallb_forall; reflexivity.
Qed.

End DispatchFacts.

(** ** A whole broadcast *)

Section BroadcastFacts.

Variable W : Type.
Variable iter_dialogs : W -> IterResult * W.
Variable send_message : Entity -> string -> W -> SendResult * W.
Variable sleep : Z -> W -> W.

Local Notation "'dispatch'" :=
  (send_to_all_groups_once W iter_dialogs send_message sleep).
Local Notation "'round'" :=
  (run_round W iter_dialogs send_message sleep).
Local Notation "'broadcast'" :=
  (broadcast_with_delay W iter_dialogs send_message sleep).

Variable message : string.
Variable exclude_ids : option (list Z).
Variable rounds : Z.
Variable delay_between_rounds : Z.

Local Notation "'loop' l" :=
  (for_each_try l (round message rounds delay_between_rounds exclude_ids))
    (at level 10).

Lemma dispatch_attempts (w : W) :
  count is_first_attempt (trace (dispatch message exclude_ids w)) =
  fst (value (dispatch message exclude_ids w))
  + snd (value (dispatch message exclude_ids w)).
Proof.
  rewrite dispatch_value, dispatch_count.
  - pose proof (loop_tally W send_message sleep message
                  (match exclude_ids with None => [] | Some l => l end)
                  (len (value (get_all_groups W iter_dialogs w)))
                  (value (get_all_groups W iter_dialogs w)) 0 0
                  (world (get_all_groups W iter_dialogs w))) as H.
    cbv zeta in H. lia.
  - intros [|[]| |]; cbn; intros; try reflexivity; discriminate.
Qed.

(** When the loop over the rounds returned, the first attempts of the
    rounds add up to what the totals grew by. *)
Lemma rounds_tally (l : list Z) (total_success total_failed : Z) (w : W)
    (c : Z * Z) :
  let r := loop l (total_success, total_failed) w in
  value r = Returned c ->
  count is_first_attempt (trace r) =
  fst c + snd c - (total_success + total_failed)
  /\ total_success <= fst c
  /\ total_failed <= snd c.
Proof.
  revert total_success total_failed w; induction l as [|i l IH];
    intros ts tf w; cbv zeta; intros H.
  - cbn [for_each_try] in *; unfold try_ret in *.
    rewrite value_mk in H. rewrite trace_mk, count_nil. inversion H.
    cbn [fst snd]. lia.
  - apply (loop_returned W iter_dialogs send_message sleep) in H as (Hl & Hrun).
    cbv zeta in *. rewrite Hrun, trace_mk, count_app.
    apply IH in Hl. cbv zeta in Hl.
    rewrite count_cons, count_app, count_cons, dispatch_attempts.
    cbn [is_first_attempt].
    pose proof (dispatch_counts_nonneg W iter_dialogs send_message sleep
                  message exclude_ids w) as [Hs Hf].
    assert (Hp : forall t, (t = [] \/ t = [EvLog INFO (LogWaiting delay_between_rounds);
                                           EvSleep RoundPause delay_between_rounds]) ->
                           count is_first_attempt t = 0)
      by (intros t [->| ->]; reflexivity).
    rewrite (Hp (if i <? rounds then _ else _))
      by (destruct (i <? rounds); auto).
    lia.
Qed.

(** A property of events that every dispatch keeps, and that holds of the
    lines and the pause [broadcast_with_delay] adds after its start line,
    holds of everything after the start line, whether the loop returned
    or raised. *)
Lemma rounds_events (q : Event -> bool) (l : list Z) (totals : Z * Z) (w : W) :
  (forall w', forallb q (trace (dispatch message exclude_ids w')) = true) ->
  (forall e, dispatch_event e = false -> is_start_log e = false -> q e = true) ->
  forallb q (trace (loop l totals w)) = true.
Proof.
  intros Hd Hq. apply for_each_try_events. intros i [ts tf] w'.
  rewrite (run_round_run W iter_dialogs send_message sleep message exclude_ids
             rounds delay_between_rounds i ts tf w'); cbv zeta.
  destruct (str_raises i || str_raises rounds); [reflexivity|].
  destruct (i <? rounds);
    [destruct (str_raises delay_between_rounds);
     [|destruct (float_raises delay_between_rounds)]|];
    rewrite trace_mk; cbn [forallb app];
    rewrite ?forallb_app; cbn [forallb];
    rewrite ?forallb_app; cbn [forallb];
    rewrite Hd, !Hq by reflexivity; reflexivity.
Qed.

Lemma broadcast_events (q : Event -> bool) (w : W) :
  (forall w', forallb q (trace (dispatch message exclude_ids w')) = true) ->
  (forall e, dispatch_event e = false -> is_start_log e = false -> q e = true) ->
  q (EvLog INFO (LogStart rounds delay_between_rounds)) = true ->
  forallb q (trace (broadcast message rounds delay_between_rounds exclude_ids w)) = true.
Proof.
  intros Hd Hq Hs.
  rewrite (broadcast_with_delay_run W iter_dialogs send_message sleep message
             exclude_ids rounds delay_between_rounds w); cbv zeta.
  destruct (str_raises rounds || str_raises delay_between_rounds); [reflexivity|].
  pose proof (rounds_events q (py_range 1 (rounds + 1)) (0, 0) w Hd Hq) as Hl.
  destruct (value (loop (py_range 1 (rounds + 1)) (0, 0) w)) as [[ts tf]|e];
    rewrite trace_mk; cbn [forallb]; rewrite Hs; cbn [andb]; [|exact Hl].
  rewrite forallb_app, Hl.
  unfold final_summary; cbn [forallb andb]. rewrite !Hq by reflexivity. reflexivity.
Qed.

End BroadcastFacts.

(** X8: whenever a broadcast returns, the totals it has logged in its
    final summary are non-negative and add up to the number of first
    attempts made over all its rounds: every destination attempted in any
    round is counted exactly once. *)
Theorem broadcast_totals_count_attempts :
  forall W iter_dialogs send_message sleep message rounds delay exclude_ids (w : W) v,
    value (broadcast_with_delay W iter_dialogs send_message sleep
                                message rounds delay exclude_ids w) = Returned v ->
    exists t0 total_success total_failed,
      trace (broadcast_with_delay W iter_dialogs send_message sleep
                                  message rounds delay exclude_ids w) =
      t0 ++ final_summary total_success total_failed rounds
      /\ count is_first_attempt t0 = total_success + total_failed
      /\ 0 <= total_success
      /\ 0 <= total_failed.
Proof.
  intros W iter_dialogs send_message sleep message rounds delay exclude_ids w v.
  rewrite broadcast_with_delay_run; cbv zeta.
  destruct (str_raises rounds || str_raises delay);
    [rewrite value_mk; discriminate|].
  pose proof (rounds_tally W iter_dialogs send_message sleep message exclude_ids
                rounds delay (py_range 1 (rounds + 1)) 0 0 w) as H.
  cbv zeta in H.
  destruct (value (for_each_try (py_range 1 (rounds + 1)) _ (0, 0) w))
    as [[ts tf]|e]; rewrite value_mk, trace_mk; [|discriminate].
  intros _. specialize (H (ts, tf) eq_refl). cbn [fst snd] in H.
  eexists (_ :: _), ts, tf. split; [reflexivity|].
  rewrite count_cons; cbn [is_first_attempt]. lia.
Qed.

Lemma broadcast_totals_count_attempts_witness :
  value (Scripted.broadcast_with_delay "hi" 3 10 None Scripted.scenario_D)
  = Returned None
  /\ exists t0 total_success total_failed,
      trace (Scripted.broadcast_with_delay "hi" 3 10 None Scripted.scenario_D) =
      t0 ++ final_summary total_success total_failed 3
      /\ count is_first_attempt t0 = total_success + total_failed.
Proof.
  assert (Hv : value (Scripted.broadcast_with_delay
                        "hi" 3 10 None Scripted.scenario_D) = Returned None)
    by (vm_compute; reflexivity).
  split; [exact Hv|].
  destruct (broadcast_totals_count_attempts
              Scripted.World Scripted.iter_dialogs Scripted.send_message
              Scripted.sleep "hi" 3 10 None Scripted.scenario_D None Hv)
    as (t0 & ts & tf & Ht & Hc & _).
  exists t0, ts, tf. split; [exact Ht | exact Hc].
Defined.

(** X9: for any [rounds <= 0], negative values included, that the runtime
    can format together with the delay, the broadcast returns and does
    nothing but log: the start line, then the final summary with both
    totals 0 and the [rounds] argument as "rounds completed"; the world is
    untouched. *)
Theorem nonpositive_rounds_do_nothing :
  forall W iter_dialogs send_message sleep message rounds delay exclude_ids (w : W),
    rounds <= 0 ->
    str_raises rounds = false ->
    str_raises delay = false ->
    broadcast_with_delay W iter_dialogs send_message sleep
                         message rounds delay exclude_ids w =
    (Returned None, w,
     EvLog INFO (LogStart rounds delay) :: final_summary 0 0 rounds).
Proof.
  intros W iter_dialogs send_message sleep message rounds delay exclude_ids w
         H HR Hd.
  rewrite broadcast_with_delay_run; cbv zeta. rewrite HR, Hd. cbn [orb].
  replace (py_range 1 (rounds + 1)) with (@nil Z).
  - reflexivity.
  - unfold py_range. replace (Z.to_nat (rounds + 1 - 1)) with 0%nat by lia.
    reflexivity.
Qed.

Lemma nonpositive_rounds_do_nothing_witness :
  -3 <= 0
  /\ str_raises (-3) = false
  /\ str_raises 10 = false
  /\ Scripted.broadcast_with_delay "hi" (-3) 10 None Scripted.one_chat =
     (Returned None, Scripted.one_chat,
      EvLog INFO (LogStart (-3) 10) :: final_summary 0 0 (-3)).
Proof.
  split; [lia|]. split; [reflexivity|]. split; [reflexivity|].
  apply (nonpositive_rounds_do_nothing
           Scripted.World Scripted.iter_dialogs Scripted.send_message Scripted.sleep
           "hi" (-3) 10 None Scripted.one_chat); [lia | reflexivity | reflexivity].
Defined.

(** X21: how a broadcast fails.  When [broadcast_with_delay] lets an
    exception through, either it is the [ValueError] of the start line,
    [rounds] or the delay having too many digits to format, and nothing
    has been done or logged; or it is the [OverflowError] of the first
    pause, with two rounds or more and a delay too large for a float: the
    first round has been dispatched in full and its results logged, the
    wait has been announced, nobody has slept, and no later round and no
    final summary follows. *)
Theorem broadcast_failure_modes :
  forall W iter_dialogs send_message sleep message rounds delay exclude_ids
         (w : W) (e : PyExc),
    let r := broadcast_with_delay W iter_dialogs send_message sleep
                                  message rounds delay exclude_ids w in
    let d := send_to_all_groups_once W iter_dialogs send_message sleep
                                     message exclude_ids w in
    value r = Raised e ->
    (e = ValueError_digits
     /\ (str_raises rounds = true \/ str_raises delay = true)
     /\ world r = w
     /\ trace r = [])
    \/ (e = OverflowError_float
        /\ 2 <= rounds
        /\ str_raises rounds = false
        /\ str_raises delay = false
        /\ float_raises delay = true
        /\ world r = world d
        /\ trace r =
           EvLog INFO (LogStart rounds delay)
             :: EvLog INFO (LogRound 1 rounds)
             :: trace d
             ++ [EvLog INFO (LogRoundResults 1 (fst (value d)) (snd (value d)));
                 EvLog INFO (LogWaiting delay)]).
Proof.
  intros W iter_dialogs send_message sleep message rounds delay exclude_ids w e
         r d Hr.
  destruct (str_raises rounds) eqn:HR.
  { left. subst r. rewrite broadcast_with_delay_run in *; cbv zeta in *.
    rewrite HR in *. cbn [orb] in *.
    rewrite value_mk in Hr. rewrite world_mk, trace_mk. inversion Hr. auto. }
  destruct (str_raises delay) eqn:Hd.
  { left. subst r. rewrite broadcast_with_delay_run in *; cbv zeta in *.
    rewrite HR, Hd in *. cbn [orb] in *.
    rewrite value_mk in Hr. rewrite world_mk, trace_mk. inversion Hr. auto. }
  destruct (float_raises delay) eqn:Hf;
    [destruct (Z_lt_le_dec rounds 2) as [Hlt|Hge]|].
  - exfalso.
    assert (Hret : exists v, value r = Returned v).
    { apply broadcast_returns_iff. split; [exact HR|]. split; [exact Hd|]. lia. }
    destruct Hret as [v Hv]. rewrite Hv in Hr. discriminate Hr.
  - right. subst r. rewrite broadcast_with_delay_run in *; cbv zeta in *.
    rewrite HR, Hd in *. cbn [orb] in *.
    rewrite (py_range_first 1 (rounds + 1)) in * by lia.
    rewrite for_each_try_cons, run_round_run in *. cbv zeta in *.
    assert (H1 : str_raises 1 = false) by reflexivity.
    assert (Hlt : (1 <? rounds) = true) by (apply Z.ltb_lt; lia).
    rewrite H1, HR, Hd, Hf, Hlt in *. cbn [orb] in *.
    rewrite !value_mk, !world_mk, !trace_mk in *.
    inversion Hr. fold d. cbn [app]. rewrite <- app_assoc. cbn [app].
    repeat (split; [solve [auto]|]). reflexivity.
  - exfalso.
    assert (Hret : exists v, value r = Returned v).
    { apply broadcast_returns_iff. split; [exact HR|]. split; [exact Hd|]. auto. }
    destruct Hret as [v Hv]. rewrite Hv in Hr. discriminate Hr.
Qed.

Lemma broadcast_failure_modes_witness :
  let r := broadcast_with_delay
             Scripted.World Scripted.iter_dialogs Scripted.send_message
             Scripted.sleep "hi" 2 (10 ^ 400) None Scripted.one_chat in
  value r = Raised OverflowError_float
  /\ float_raises (10 ^ 400) = true
  /\ world r =
     world (send_to_all_groups_once
              Scripted.World Scripted.iter_dialogs Scripted.send_message
              Scripted.sleep "hi" None Scripted.one_chat).
Proof.
  intros r.
  assert (Hv : value r = Raised OverflowError_float) by (vm_compute; reflexivity).
  split; [exact Hv|].
  destruct (broadcast_failure_modes
              Scripted.World Scripted.iter_dialogs Scripted.send_message
              Scripted.sleep "hi" 2 (10 ^ 400) None Scripted.one_chat
              OverflowError_float Hv)
    as [(He & _)|(_ & _ & _ & _ & Hf & Hw & _)].
  - discriminate He.
  - split; [exact Hf | exact Hw].
Defined.

(** ** Instances of the dispatch properties *)

Lemma failed_enumeration_dispatches_nothing_witness :
  raised (fst (Scripted.iter_dialogs Scripted.failing_enumeration)) =
  Some (OtherException "connection reset")
  /\ Scripted.send_to_all_groups_once "hi" None Scripted.failing_enumeration =
     ((0, 0), Scripted.quiet,
      [EvIterDialogs;
       EvLog ERROR (LogGetGroupsError (OtherException "connection reset"));
       EvLog WARNING LogNoGroups]).
Proof.
  split; [reflexivity|].
  exact (failed_enumeration_dispatches_nothing
           Scripted.World Scripted.iter_dialogs Scripted.send_message Scripted.sleep
           "hi" None Scripted.failing_enumeration _ eq_refl).
Defined.

Lemma sends_only_to_destinations_not_excluded_witness :
  In (EvSendMessage FirstAttempt (Chat 12) "hi")
     (trace (Scripted.send_to_all_groups_once "hi" (Some [11]) Scripted.scenario_B))
  /\ exists g, In g (value (Scripted.get_all_groups Scripted.scenario_B))
               /\ Chat 12 = grp_entity g
               /\ excluded [11] g = false.
Proof.
  assert (H : In (EvSendMessage FirstAttempt (Chat 12) "hi")
                 (trace (Scripted.send_to_all_groups_once
                           "hi" (Some [11]) Scripted.scenario_B)))
    by (cbn; tauto).
  split; [exact H|].
  exact (proj2 (sends_only_to_destinations_not_excluded
                  Scripted.World Scripted.iter_dialogs Scripted.send_message
                  Scripted.sleep "hi" (Some [11]) Scripted.scenario_B _ _ _ H)).
Defined.

Lemma no_flood_no_sleep_witness :
  (forall e m w' seconds,
      fst (Reliable.send_message e m w') <> Some (FloodWaitError seconds))
  /\ count is_sleep
       (trace (Reliable.send_to_all_groups_once "hi" None Scripted.scenario_B)) = 0.
Proof.
  assert (H : forall e m w' seconds,
             fst (Reliable.send_message e m w') <> Some (FloodWaitError seconds))
    by (intros; discriminate).
  split; [exact H|].
  exact (proj1 (no_flood_no_sleep
                  Scripted.World Scripted.iter_dialogs Reliable.send_message
                  Scripted.sleep "hi" None Scripted.scenario_B H)).
Defined.

Lemma all_sent_when_every_send_succeeds_witness :
  (forall e m w', fst (Reliable.send_message e m w') = None)
  /\ value (Reliable.send_to_all_groups_once "hi" (Some [11]) Scripted.scenario_B) =
     (2, 0).
Proof.
  assert (H : forall e m w', fst (Reliable.send_message e m w') = None)
    by reflexivity.
  split; [exact H|].
  exact (all_sent_when_every_send_succeeds
           Scripted.World Scripted.iter_dialogs Reliable.send_message
           Scripted.sleep "hi" (Some [11]) Scripted.scenario_B H).
Defined.

(** * Properties of the application *)

(** ** Running the application monad *)

Section AppLaws.

Context {W : Type}.

Lemma outcome_mk {A : Type} (r : Result A) (s : Session W) (t : list AppEvent) :
  outcome (r, s, t) = r.
Proof. reflexivity. Qed.

Lemma session_mk {A : Type} (r : Result A) (s : Session W) (t : list AppEvent) :
  session (r, s, t) = s.
Proof. reflexivity. Qed.

Lemma events_mk {A : Type} (r : Result A) (s : Session W) (t : list AppEvent) :
  events (r, s, t) = t.
Proof. reflexivity. Qed.

Lemma app_bind_ok {A B : Type} (m : App W A) (k : A -> App W B) (s : Session W)
    (a : A) :
  outcome (m s) = Ok a ->
  app_bind m k s =
  (outcome (k a (session (m s))), session (k a (session (m s))),
   events (m s) ++ events (k a (session (m s)))).
Proof.
  unfold app_bind, outcome, session, events.
  destruct (m s) as [[r s1] t1]; cbn. intros ->.
  destruct (k a s1) as [[r2 s2] t2]; reflexivity.
Qed.

Lemma app_bind_raise {A B : Type} (m : App W A) (k : A -> App W B) (s : Session W)
    (e : AppExc) :
  outcome (m s) = Raise e ->
  app_bind m k s = (Raise e, session (m s), events (m s)).
Proof.
  unfold app_bind, outcome, session, events.
  destruct (m s) as [[r s1] t1]; cbn. intros ->. reflexivity.
Qed.

Lemma app_bind_stuck {A B : Type} (m : App W A) (k : A -> App W B) (s : Session W) :
  outcome (m s) = Stuck ->
  app_bind m k s = (Stuck, session (m s), events (m s)).
Proof.
  unfold app_bind, outcome, session, events.
  destruct (m s) as [[r s1] t1]; cbn. intros ->. reflexivity.
Qed.


(** *** What a piece emits *)

Lemma emits_ret {A : Type} (q : AppEvent -> bool) (a : A) :
  emits q (@app_ret W A a).
Proof. intros s; reflexivity. Qed.

Lemma emits_raise {A : Type} (q : AppEvent -> bool) (e : AppExc) :
  emits q (@app_raise W A e).
Proof. intros s; reflexivity. Qed.

Lemma emits_emit (q : AppEvent -> bool) (e : AppEvent) :
  q e = true -> emits q (@app_emit W e).
Proof. intros H s; cbn. now rewrite H. Qed.

Lemma emits_input (q : AppEvent -> bool) (p : Prompt) :
  q (Asked p) = true -> emits q (@input W p).
Proof.
  intros H s; unfold input, events.
  destruct (keyboard s) as [|[l|] ks]; cbn; now rewrite H.
Qed.

Lemma emits_bind {A B : Type} (q : AppEvent -> bool) (m : App W A)
    (k : A -> App W B) :
  emits q m -> (forall a, emits q (k a)) -> emits q (app_bind m k).
Proof.
  intros Hm Hk s. specialize (Hm s).
  unfold app_bind, events in *.
  destruct (m s) as [[[a|e|] s1] t1]; cbn in *; try exact Hm.
  specialize (Hk a s1). unfold events in Hk.
  destruct (k a s1) as [[r s2] t2]; cbn in *.
  now rewrite forallb_app, Hm, Hk.
Qed.

Lemma forallb_map_engine (q : AppEvent -> bool) (t : Trace) :
  forallb q (map Engine t) = forallb (fun e => q (Engine e)) t.
Proof. induction t as [|e t IH]; cbn; [reflexivity | now rewrite IH]. Qed.

Lemma emits_engine {A : Type} (q : AppEvent -> bool) (m : M W A) :
  (forall w, forallb (fun e => q (Engine e)) (trace (m w)) = true) ->
  emits q (run_engine_method m).
Proof.
  intros H s. specialize (H (provider s)).
  unfold run_engine_method, events, trace in *.
  destruct (m (provider s)) as [[a w] t]; cbn in *.
  now rewrite forallb_map_engine.
Qed.

Lemma emits_engine_call {A : Type} (q : AppEvent -> bool)
    (m : M W (Completion A)) :
  (forall w, forallb (fun e => q (Engine e)) (trace (m w)) = true) ->
  emits q (run_engine_call m).
Proof.
  intros H s. specialize (H (provider s)).
  unfold run_engine_call, events, trace in *.
  destruct (m (provider s)) as [[a w] t]; cbn in *.
  now rewrite forallb_map_engine.
Qed.

Lemma emits_try_except {A : Type} (q : AppEvent -> bool) (m : App W A)
    (h : AppExc -> App W A) :
  emits q m -> (forall e, emits q (h e)) -> emits q (try_except m h).
Proof.
  intros Hm Hh s. specialize (Hm s).
  unfold try_except, events in *.
  destruct (m s) as [[[a|e|] s1] t1]; cbn in *; try exact Hm.
  specialize (Hh e s1). unfold events in Hh.
  destruct (h e s1) as [[r s2] t2]; cbn in *.
  now rewrite forallb_app, Hm, Hh.
Qed.

Lemma emits_try_except_Exception {A : Type} (q : AppEvent -> bool) (m : App W A)
    (h : AppExc -> App W A) :
  emits q m -> (forall e, emits q (h e)) -> emits q (try_except_Exception m h).
Proof.
  intros Hm Hh s. specialize (Hm s).
  unfold try_except_Exception, events in *.
  destruct (m s) as [[[a|e|] s1] t1]; cbn in *; try exact Hm.
  destruct (is_Exception e); [|exact Hm].
  specialize (Hh e s1). unfold events in Hh.
  destruct (h e s1) as [[r s2] t2]; cbn in *.
  now rewrite forallb_app, Hm, Hh.
Qed.

Lemma emits_for_each {A : Type} (q : AppEvent -> bool) (xs : list A)
    (body : A -> App W unit) :
  (forall x, emits q (body x)) -> emits q (app_for_each xs body).
Proof.
  intros H; induction xs as [|x xs IH]; cbn [app_for_each].
  - apply emits_ret.
  - apply emits_bind; [apply H | intros _; exact IH].
Qed.

Lemma emits_while (q : AppEvent -> bool) (fuel : nat) (body : App W bool) :
  emits q body -> emits q (while_true fuel body).
Proof.
  intros H; induction fuel as [|fuel IH]; cbn [while_true].
  - intros s; reflexivity.
  - apply emits_bind; [exact H|]. intros [|]; [exact IH | apply emits_ret].
Qed.

(** *** What a piece reads *)

Lemma eats_ret {A : Type} (P : A -> bool) (a : A) :
  P a = false -> eats_when P (@app_ret W A a).
Proof.
  intros H s; cbn. split; [discriminate|]. split; [lia|].
  intros a' E; inversion E; subst. rewrite H; discriminate.
Qed.

Lemma eats_raise {A : Type} (P : A -> bool) (e : AppExc) :
  eats_when P (@app_raise W A e).
Proof.
  intros s; cbn. split; [discriminate|]. split; [lia|]. discriminate.
Qed.

Lemma eats_emit (e : AppEvent) :
  eats_when (fun _ => false) (@app_emit W e).
Proof.
  intros s; cbn. split; [discriminate|]. split; [lia|]. discriminate.
Qed.

Lemma eats_input (P : string -> bool) (p : Prompt) :
  eats_when P (@input W p).
Proof.
  intros s; unfold input, outcome, session.
  destruct (keyboard s) as [|[l|] ks] eqn:E; cbn; rewrite ?E; cbn.
  - split; [discriminate|]. split; [lia|]. discriminate.
  - split; [discriminate|]. split; [lia|]. intros; lia.
  - split; [discriminate|]. split; [lia|]. discriminate.
Qed.

Lemma eats_weaken {A : Type} (P Q : A -> bool) (m : App W A) :
  eats_when P m -> (forall a, Q a = true -> P a = true) -> eats_when Q m.
Proof.
  intros H HPQ s. destruct (H s) as (H1 & H2 & H3).
  split; [exact H1|]. split; [exact H2|]. intros a E Qa. apply (H3 a E), HPQ, Qa.
Qed.

Lemma eats_steady {A : Type} (P : A -> bool) (m : App W A) :
  eats_when P m -> eats_when (fun _ => false) m.
Proof. intros H; apply (eats_weaken P); [exact H | discriminate]. Qed.

(** After a piece that reads a key whenever it returns, anything that adds
    no key. *)
Lemma eats_bind_l {A B : Type} (P : B -> bool) (m : App W A) (k : A -> App W B) :
  eats_when (fun _ => true) m ->
  (forall a, eats_when (fun _ => false) (k a)) ->
  eats_when P (app_bind m k).
Proof.
  intros Hm Hk s. destruct (Hm s) as (H1 & H2 & H3).
  destruct (outcome (m s)) as [a|e|] eqn:E; [| |contradiction].
  - rewrite (app_bind_ok m k s a E). rewrite ?outcome_mk, ?session_mk.
    destruct (Hk a (session (m s))) as (K1 & K2 & _).
    specialize (H3 a eq_refl eq_refl).
    split; [exact K1|]. split; [lia|]. intros; lia.
  - rewrite (app_bind_raise m k s e E). rewrite ?outcome_mk, ?session_mk.
    split; [discriminate|]. split; [exact H2|]. discriminate.
Qed.

(** After a piece that adds no key, a piece that reads one when [P]. *)
Lemma eats_bind_r {A B : Type} (P : B -> bool) (m : App W A) (k : A -> App W B) :
  eats_when (fun _ => false) m ->
  (forall a, eats_when P (k a)) ->
  eats_when P (app_bind m k).
Proof.
  intros Hm Hk s. destruct (Hm s) as (H1 & H2 & _).
  destruct (outcome (m s)) as [a|e|] eqn:E; [| |contradiction].
  - rewrite (app_bind_ok m k s a E). rewrite ?outcome_mk, ?session_mk.
    destruct (Hk a (session (m s))) as (K1 & K2 & K3).
    split; [exact K1|]. split; [lia|].
    intros b Eb Pb. specialize (K3 b Eb Pb). lia.
  - rewrite (app_bind_raise m k s e E). rewrite ?outcome_mk, ?session_mk.
    split; [discriminate|]. split; [exact H2|]. discriminate.
Qed.

Lemma eats_engine {A : Type} (m : M W A) :
  eats_when (fun _ => false) (run_engine_method m).
Proof.
  intros s; unfold run_engine_method, outcome, session.
  destruct (m (provider s)) as [[a w] t]; cbn.
  split; [discriminate|]. split; [lia|]. discriminate.
Qed.

Lemma eats_engine_call {A : Type} (m : M W (Completion A)) :
  eats_when (fun _ => false) (run_engine_call m).
Proof.
  intros s; unfold run_engine_call, outcome, session.
  destruct (m (provider s)) as [[[a|e] w] t]; cbn;
    (split; [discriminate|]); (split; [lia|]); discriminate.
Qed.

Lemma eats_try_except {A : Type} (P : A -> bool) (m : App W A)
    (h : AppExc -> App W A) :
  eats_when P m -> (forall e, eats_when P (h e)) -> eats_when P (try_except m h).
Proof.
  intros Hm Hh s. destruct (Hm s) as (H1 & H2 & H3).
  unfold try_except, outcome, session in *.
  destruct (m s) as [[[a|e|] s1] t1]; cbn [fst snd] in *.
  - split; [discriminate|]. split; [exact H2|]. exact H3.
  - destruct (Hh e s1) as (K1 & K2 & K3). unfold outcome, session in *.
    destruct (h e s1) as [[r s2] t2]; cbn [fst snd] in *.
    split; [exact K1|]. split; [lia|].
    intros a Ea Pa. specialize (K3 a Ea Pa). lia.
  - contradiction.
Qed.

Lemma eats_try_except_Exception {A : Type} (m : App W A) (h : AppExc -> App W A) :
  eats_when (fun _ => false) m -> (forall e, eats_when (fun _ => false) (h e)) ->
  eats_when (fun _ => false) (try_except_Exception m h).
Proof.
  intros Hm Hh s. destruct (Hm s) as (H1 & H2 & _).
  unfold try_except_Exception, outcome, session in *.
  destruct (m s) as [[[a|e|] s1] t1]; cbn [fst snd] in *.
  - split; [discriminate|]. split; [exact H2|]. discriminate.
  - destruct (is_Exception e); cbn [fst snd].
    + destruct (Hh e s1) as (K1 & K2 & _). unfold outcome, session in *.
      destruct (h e s1) as [[r s2] t2]; cbn [fst snd] in *.
      split; [exact K1|]. split; [lia|]. discriminate.
    + split; [discriminate|]. split; [exact H2|]. discriminate.
  - contradiction.
Qed.

Lemma eats_for_each {A : Type} (xs : list A) (body : A -> App W unit) :
  (forall x, eats_when (fun _ => false) (body x)) ->
  eats_when (fun _ => false) (app_for_each xs body).
Proof.
  intros H; induction xs as [|x xs IH]; cbn [app_for_each].
  - now apply eats_ret.
  - apply eats_bind_r; [apply H | intros _; exact IH].
Qed.

(** [while True] ends within the keyboard script: when every pass that
    goes round again has read a key, one more unrolling than there are
    keys left is never cut short. *)
Lemma while_true_ends (body : App W bool) :
  eats_when (fun again => again) body ->
  forall fuel s,
    (length (keyboard s) < fuel)%nat ->
    outcome (while_true fuel body s) <> Stuck
    /\ (length (keyboard (session (while_true fuel body s))) <= length (keyboard s))%nat.
Proof.
  intros Hb; induction fuel as [|fuel IH]; intros s Hlt; [lia|].
  cbn [while_true]. destruct (Hb s) as (H1 & H2 & H3).
  destruct (outcome (body s)) as [again|e|] eqn:E; [| |contradiction].
  - rewrite (app_bind_ok _ _ s again E). rewrite ?outcome_mk, ?session_mk.
    destruct again.
    + specialize (H3 true eq_refl eq_refl).
      destruct (IH (session (body s))) as [I1 I2]; [lia|].
      split; [exact I1 | lia].
    + cbn. split; [discriminate | lia].
  - rewrite (app_bind_raise _ _ s e E). rewrite ?outcome_mk, ?session_mk.
    split; [discriminate | exact H2].
Qed.

(** *** Scripts of typed lines *)

Lemma calm_ret {A : Type} (a : A) : calm (@app_ret W A a).
Proof. intros s H; split; [exact H | discriminate]. Qed.

Lemma calm_raise {A : Type} (e : AppExc) :
  is_Exception e = true -> calm (@app_raise W A e).
Proof.
  intros He s H; split; [exact H|]. cbn. intros E; inversion E; subst.
  discriminate He.
Qed.

Lemma calm_emit (e : AppEvent) : calm (@app_emit W e).
Proof. intros s H; split; [exact H | discriminate]. Qed.

Lemma calm_input (p : Prompt) : calm (@input W p).
Proof.
  intros s H; unfold input, outcome, session.
  destruct (keyboard s) as [|[l|] ks] eqn:E; cbn [fst snd keyboard forallb is_line andb] in *.
  - rewrite E. split; [reflexivity | discriminate].
  - split; [exact H | discriminate].
  - discriminate H.
Qed.

Lemma calm_bind {A B : Type} (m : App W A) (k : A -> App W B) :
  calm m -> (forall a, calm (k a)) -> calm (app_bind m k).
Proof.
  intros Hm Hk s H. destruct (Hm s H) as [H1 H2].
  destruct (outcome (m s)) as [a|e|] eqn:E.
  - rewrite (app_bind_ok m k s a E), outcome_mk, session_mk.
    exact (Hk a (session (m s)) H1).
  - rewrite (app_bind_raise m k s e E), outcome_mk, session_mk.
    split; [exact H1|]. intros K; inversion K; subst. now apply H2.
  - rewrite (app_bind_stuck m k s E), outcome_mk, session_mk.
    split; [exact H1 | discriminate].
Qed.

Lemma calm_engine {A : Type} (m : M W A) : calm (run_engine_method m).
Proof.
  intros s H; unfold run_engine_method, outcome, session.
  destruct (m (provider s)) as [[a w] t]; cbn [fst snd keyboard].
  split; [exact H | discriminate].
Qed.

Lemma calm_engine_call {A : Type} (m : M W (Completion A)) :
  calm (run_engine_call m).
Proof.
  intros s H; unfold run_engine_call, outcome, session.
  destruct (m (provider s)) as [[[a|e] w] t]; cbn [fst snd keyboard];
    (split; [exact H | discriminate]).
Qed.

Lemma calm_try_except {A : Type} (m : App W A) (h : AppExc -> App W A) :
  calm m -> (forall e, calm (h e)) -> calm (try_except m h).
Proof.
  intros Hm Hh s H. destruct (Hm s H) as [H1 H2].
  unfold try_except, outcome, session in *.
  destruct (m s) as [[[a|e|] s1] t1]; cbn [fst snd] in *.
  - split; [exact H1 | discriminate].
  - destruct (Hh e s1 H1) as [K1 K2]. unfold outcome, session in *.
    destruct (h e s1) as [[r s2] t2]; cbn [fst snd] in *.
    split; [exact K1 | exact K2].
  - split; [exact H1 | discriminate].
Qed.

Lemma calm_try_except_Exception {A : Type} (m : App W A)
    (h : AppExc -> App W A) :
  calm m -> (forall e, calm (h e)) -> calm (try_except_Exception m h).
Proof.
  intros Hm Hh s H. destruct (Hm s H) as [H1 H2].
  unfold try_except_Exception, outcome, session in *.
  destruct (m s) as [[[a|e|] s1] t1]; cbn [fst snd] in *.
  - split; [exact H1 | discriminate].
  - destruct (is_Exception e); cbn [fst snd].
    + destruct (Hh e s1 H1) as [K1 K2]. unfold outcome, session in *.
      destruct (h e s1) as [[r s2] t2]; cbn [fst snd] in *.
      split; [exact K1 | exact K2].
    + split; [exact H1 | exact H2].
  - split; [exact H1 | discriminate].
Qed.

Lemma calm_for_each {A : Type} (xs : list A) (body : A -> App W unit) :
  (forall x, calm (body x)) -> calm (app_for_each xs body).
Proof.
  intros H; induction xs as [|x xs IH]; cbn [app_for_each].
  - apply calm_ret.
  - apply calm_bind; [apply H | intros _; exact IH].
Qed.

Lemma calm_while (fuel : nat) (body : App W bool) :
  calm body -> calm (while_true fuel body).
Proof.
  intros H; induction fuel as [|fuel IH]; cbn [while_true].
  - intros s Hs; split; [exact Hs | discriminate].
  - apply calm_bind; [exact H|]. intros [|]; [exact IH | apply calm_ret].
Qed.

End AppLaws.

(** ** [list_groups] *)

Lemma py_range_cons (a b : Z) :
  a < b -> py_range a b = a :: py_range (a + 1) b.
Proof.
  intros H. unfold py_range.
  replace (Z.to_nat (b - a)) with (S (Z.to_nat (b - (a + 1)))) by lia.
  cbn [seq map]. f_equal; [lia|].
  rewrite <- seq_shift, map_map. apply map_ext. intros n. lia.
Qed.

Section Listing.

Variable W : Type.
Variable iter_dialogs : W -> IterResult * W.

Local Notation "'entry_lines'" :=
  (fun entry : Z * Group =>
     [AppLogged INFO (LogListTitle (fst entry) (grp_title (snd entry)));
      AppLogged INFO (LogListId (grp_id (snd entry)));
      AppLogged INFO (LogListType (grp_type (snd entry)));
      AppLogged INFO LogListRule]).

Lemma list_entries_run (entries : list (Z * Group)) (s : Session W) :
  app_for_each entries (list_entry W) s = (Ok tt, s, flat_map entry_lines entries).
Proof.
  revert s; induction entries as [|[i g] l IH]; intros s; [reflexivity|].
  cbn [app_for_each flat_map]. unfold app_bind at 1.
  unfold list_entry, app_bind, app_logger_info, app_emit; cbn.
  rewrite IH. reflexivity.
Qed.

(** Lines 172-185 as one equation: the resolution, then either the one
    "no groups" line or the header, the rule and four lines per entry. *)
Lemma list_groups_run (s : Session W) :
  let g := get_all_groups W iter_dialogs (provider s) in
  list_groups W iter_dialogs s =
  (Ok tt, mkSession (world g) (keyboard s),
   map Engine (trace g)
   ++ match value g with
      | [] => [AppLogged INFO LogNoGroupsFound]
      | _ :: _ =>
          AppLogged INFO (LogListHeader (len (value g)))
            :: AppLogged INFO LogListRule
            :: flat_map entry_lines (enumerate (value g) 1)
      end).
Proof.
  cbv zeta. unfold list_groups, app_bind at 1, run_engine_method.
  destruct (get_all_groups W iter_dialogs (provider s)) as [[groups w] t].
  rewrite value_mk, world_mk, trace_mk.
  destruct groups as [|g gs].
  - reflexivity.
  - unfold app_bind, app_logger_info, app_emit.
    rewrite list_entries_run. reflexivity.
Qed.

Lemma listed_titles_entries (groups : list Group) (start : Z) :
  listed_titles (flat_map entry_lines (enumerate groups start)) =
  combine (py_range start (start + len groups)) (map grp_title groups).
Proof.
  revert start; induction groups as [|g gs IH]; intros start.
  - cbn [enumerate flat_map map]. unfold listed_titles; cbn [flat_map].
    symmetry; apply combine_nil.
  - cbn [enumerate flat_map app]. unfold listed_titles in *.
    cbn [flat_map fst snd app]. rewrite IH, len_cons.
    rewrite (py_range_cons start) by (pose proof (len_nonneg gs); lia).
    cbn [map combine]. do 3 f_equal. lia.
Qed.

Lemma entries_are_app_logs (entries : list (Z * Group)) :
  filter is_client_call (flat_map entry_lines entries) = []
  /\ len (filter is_app_log (flat_map entry_lines entries)) = 4 * len entries.
Proof.
  induction entries as [|[i g] l [IH1 IH2]]; [split; reflexivity|].
  cbn [flat_map app filter is_client_call is_app_log].
  split; [exact IH1|]. rewrite !len_cons, IH2. lia.
Qed.

Lemma len_enumerate {A : Type} (xs : list A) (start : Z) :
  len (enumerate xs start) = len xs.
Proof.
  revert start; induction xs as [|x xs IH]; intros start; [reflexivity|].
  cbn [enumerate]. now rewrite !len_cons, IH.
Qed.

(** X10: [list_groups] only reads: it always returns normally, leaves the
    keyboard alone, and its one client call is the enumeration; in
    particular it never sends a message. *)
Theorem list_groups_only_enumerates :
  forall s : Session W,
    let r := list_groups W iter_dialogs s in
    outcome r = Ok tt
    /\ session r = mkSession (snd (iter_dialogs (provider s))) (keyboard s)
    /\ filter is_client_call (events r) = [Engine EvIterDialogs].
Proof.
  intros s r; subst r. rewrite list_groups_run; cbv zeta.
  rewrite outcome_mk, session_mk, events_mk.
  rewrite get_all_groups_run.
  destruct (raised (fst (iter_dialogs (provider s)))) as [e|];
    rewrite world_mk, trace_mk, value_mk.
  - repeat split.
  - split; [reflexivity|]. split; [reflexivity|].
    destruct (collect (yielded (fst (iter_dialogs (provider s))))) as [|g gs].
    + reflexivity.
    + cbn [map app filter is_client_call].
      now rewrite (proj1 (entries_are_app_logs _)).
Qed.

(** X11: [list_groups] numbers the entries 1, 2, ... in catalog order, and
    logs four lines per entry after a two-line header; on an empty catalog,
    which is also what a failed enumeration gives, it logs the single line
    "No groups found!". *)
Theorem list_groups_numbers_the_catalog :
  forall s : Session W,
    let catalog := value (get_all_groups W iter_dialogs (provider s)) in
    let r := list_groups W iter_dialogs s in
    listed_titles (events r) =
    combine (py_range 1 (1 + len catalog)) (map grp_title catalog)
    /\ len (filter is_app_log (events r)) =
       match catalog with
       | [] => 1
       | _ :: _ => 2 + 4 * len catalog
       end
    /\ (catalog = [] ->
        filter is_app_log (events r) = [AppLogged INFO LogNoGroupsFound]).
Proof.
  intros s catalog r; subst r catalog. rewrite list_groups_run; cbv zeta.
  rewrite events_mk.
  assert (Hq : listed_titles
                 (map Engine (trace (get_all_groups W iter_dialogs (provider s)))) = []
               /\ filter is_app_log
                    (map Engine (trace (get_all_groups W iter_dialogs (provider s))))
                  = []).
  { rewrite get_all_groups_run.
    destruct (raised (fst (iter_dialogs (provider s)))); split; reflexivity. }
  destruct Hq as [Hq1 Hq2].
  unfold listed_titles at 1. rewrite flat_map_app. fold (listed_titles
    (map Engine (trace (get_all_groups W iter_dialogs (provider s))))).
  rewrite Hq1, filter_app, Hq2. cbn [app].
  destruct (value (get_all_groups W iter_dialogs (provider s))) as [|g gs].
  - repeat split.
  - split; [|split; [|discriminate]].
    + cbn [flat_map app].
      fold (listed_titles (flat_map entry_lines (enumerate (g :: gs) 1))).
      apply listed_titles_entries.
    + cbn [filter is_app_log]. rewrite !len_cons.
      rewrite (proj2 (entries_are_app_logs _)), len_enumerate, ?len_cons. lia.
Qed.

End Listing.

(** ** The menu reads the keyboard and ends *)

Ltac app_unfold :=
  unfold print, app_logger_info, app_logger_error, bot_broadcast_with_delay.

Ltac steady_step :=
  first
    [ apply eats_engine
    | apply eats_engine_call
    | apply eats_emit
    | apply eats_raise
    | apply eats_ret; reflexivity
    | apply (eats_steady (fun _ => true)); apply eats_input
    | apply eats_bind_r; [|intros ?]
    | match goal with
      | |- eats_when _ (if ?c then _ else _) => destruct c
      | |- eats_when _ (match ?x with _ => _ end) => destruct x
      end ].

Ltac steady := app_unfold; cbv zeta; repeat steady_step.

Ltac calm_step :=
  first
    [ apply calm_engine
    | apply calm_engine_call
    | apply calm_emit
    | apply calm_raise; reflexivity
    | apply calm_ret
    | apply calm_input
    | apply calm_bind; [|intros ?]
    | match goal with
      | |- calm (if ?c then _ else _) => destruct c
      | |- calm (match ?x with _ => _ end) => destruct x
      end ].

Ltac calmly := app_unfold; cbv zeta; repeat calm_step.

Section Sessions.

Variable W : Type.
Variable iter_dialogs : W -> IterResult * W.
Variable send_message : Entity -> string -> W -> SendResult * W.
Variable sleep : Z -> W -> W.
Variable client_start : W -> option PyExc * W.
Variable client_disconnect : W -> option PyExc * W.
Variable strip : string -> string.
Variable isdigit : string -> bool.
Variable int : string -> option Z.

Local Notation "'the_list_groups'" := (list_groups W iter_dialogs).
Local Notation "'the_option_3'" :=
  (option_3 W iter_dialogs send_message sleep strip isdigit int).
Local Notation "'the_option_4'" :=
  (option_4 W iter_dialogs send_message sleep strip isdigit int).
Local Notation "'the_menu_choice'" :=
  (menu_choice W iter_dialogs send_message sleep strip isdigit int).
Local Notation "'the_menu_pass'" :=
  (menu_pass W iter_dialogs send_message sleep strip isdigit int).
Local Notation "'the_menu_loop'" :=
  (menu_loop W iter_dialogs send_message sleep strip isdigit int).
Local Notation "'the_main'" :=
  (main W iter_dialogs send_message sleep client_start client_disconnect
        strip isdigit int).

Lemma list_groups_steady : eats_when (fun _ => false) the_list_groups.
Proof.
  intros s. rewrite list_groups_run; cbv zeta.
  rewrite outcome_mk, session_mk; cbn [keyboard].
  split; [discriminate|]. split; [lia|]. discriminate.
Qed.

Lemma print_menu_steady : eats_when (fun _ => false) (@print_menu W).
Proof. unfold print_menu. steady. Qed.

Lemma start_steady : eats_when (fun _ => false) (start W client_start).
Proof.
  intros s; unfold start, outcome, session.
  destruct (client_start (provider s)) as [[e|] w]; cbn;
    (split; [discriminate|]); (split; [lia|]); discriminate.
Qed.

Lemma int_or_default_steady (s : string) (d : Z) :
  eats_when (fun _ => false) (int_or_default W isdigit int s d).
Proof. unfold int_or_default. steady. Qed.

Lemma int_of_steady (s : string) :
  eats_when (fun _ => false) (int_of W int s).
Proof. unfold int_of. steady. Qed.

Lemma option_3_steady : eats_when (fun _ => false) the_option_3.
Proof.
  unfold option_3. app_unfold. cbv zeta.
  repeat first [ apply int_or_default_steady | steady_step ].
Qed.

Lemma option_4_steady : eats_when (fun _ => false) the_option_4.
Proof.
  unfold option_4. app_unfold. cbv zeta.
  repeat first [ apply int_of_steady | steady_step ].
Qed.

Lemma menu_choice_steady (choice : string) :
  eats_when (fun _ => false) (the_menu_choice choice).
Proof.
  unfold menu_choice. app_unfold.
  repeat first [ apply list_groups_steady | apply option_3_steady
               | apply option_4_steady | steady_step ].
Qed.

(** A pass of the menu that goes round again has read at least one key. *)
Lemma menu_pass_eats : eats_when (fun again => again) the_menu_pass.
Proof.
  unfold menu_pass.
  apply eats_bind_r; [apply print_menu_steady | intros _].
  apply eats_try_except.
  - apply eats_bind_l; [apply eats_input | intros typed]. cbv zeta.
    apply eats_bind_r; [apply menu_choice_steady | intros flow].
    destruct flow; steady.
  - intros e. destruct e; app_unfold.
    + apply eats_bind_r; [apply eats_emit | intros _].
      apply eats_bind_l; [apply eats_input | intros _]. steady.
    + apply eats_bind_r; [apply eats_emit | intros _].
      apply eats_bind_l; [apply eats_input | intros _]. steady.
    + apply eats_bind_r; [apply eats_emit | intros _].
      now apply eats_ret.
    + apply eats_bind_r; [apply eats_emit | intros _].
      apply eats_bind_l; [apply eats_input | intros _]. steady.
    + apply eats_bind_r; [apply eats_emit | intros _].
      apply eats_bind_l; [apply eats_input | intros _]. steady.
Qed.

Lemma menu_loop_steady : eats_when (fun _ => false) the_menu_loop.
Proof.
  intros s. unfold menu_loop.
  destruct (while_true_ends _ menu_pass_eats (S (length (keyboard s))) s) as [H1 H2];
    [lia|].
  split; [exact H1|]. split; [exact H2|]. discriminate.
Qed.

Local Notation "'main_body'" :=
  (app_bind (start W client_start)
     (fun _ => app_bind (print PrintRuleNL)
     (fun _ => app_bind (print PrintScanning)
     (fun _ => app_bind (print PrintRule)
     (fun _ => app_bind the_list_groups
     (fun _ => the_menu_loop)))))).

Local Notation "'main_guarded'" :=
  (try_except_Exception main_body
     (fun e => app_logger_error (LogMainError e))).

Lemma main_guarded_steady : eats_when (fun _ => false) main_guarded.
Proof.
  apply eats_try_except_Exception.
  - app_unfold.
    repeat first [ apply start_steady | apply list_groups_steady
                 | apply menu_loop_steady | steady_step ].
  - intros e. steady.
Qed.

(** The guarded body of [main] returns, or lets [KeyboardInterrupt]
    through: every [Exception] is caught and logged. *)
Lemma main_guarded_outcome (s : Session W) :
  outcome (main_guarded s) = Ok tt
  \/ outcome (main_guarded s) = Raise KeyboardInterrupt.
Proof.
  destruct (main_guarded_steady s) as (Hns & _).
  unfold try_except_Exception in *.
  destruct (main_body s) as [[[[]|e|] s1] t1]; cbn in *.
  - now left.
  - destruct e; cbn in *; auto.
  - contradiction.
Qed.

(** [main] is its guarded body followed, whatever happened, by [stop]. *)
Lemma main_run (s : Session W) :
  let g := main_guarded s in
  let w := client_disconnect (provider (session g)) in
  the_main s =
  match fst w with
  | None =>
      (outcome g, mkSession (snd w) (keyboard (session g)),
       events g ++ [ClientDisconnect; AppLogged INFO LogStopped])
  | Some e =>
      (Raise (ClientError e), mkSession (snd w) (keyboard (session g)),
       events g ++ [ClientDisconnect])
  end.
Proof.
  cbv zeta. unfold main, try_finally.
  destruct (main_guarded s) as [[r s1] t1].
  rewrite outcome_mk, session_mk, events_mk. unfold stop.
  destruct (client_disconnect (provider s1)) as [[e|] w]; reflexivity.
Qed.


(** *** Sessions of typed lines *)

Lemma list_groups_calm : calm the_list_groups.
Proof.
  unfold list_groups. apply calm_bind; [apply calm_engine | intros groups].
  destruct groups as [|g gs]; [calmly|].
  app_unfold.
  apply calm_bind; [apply calm_emit | intros _].
  apply calm_bind; [apply calm_emit | intros _].
  apply calm_for_each. intros [i group]. unfold list_entry. calmly.
Qed.

Lemma start_calm : calm (start W client_start).
Proof.
  intros s H; unfold start, outcome, session.
  destruct (client_start (provider s)) as [[e|] w]; cbn;
    (split; [exact H | discriminate]).
Qed.

Lemma option_3_calm : calm the_option_3.
Proof. unfold option_3, int_or_default. calmly. Qed.

Lemma option_4_calm : calm the_option_4.
Proof. unfold option_4, int_of. calmly. Qed.

Lemma menu_choice_calm (choice : string) : calm (the_menu_choice choice).
Proof.
  unfold menu_choice. app_unfold.
  repeat first [ apply list_groups_calm | apply option_3_calm
               | apply option_4_calm | calm_step ].
Qed.

Lemma menu_pass_calm : calm the_menu_pass.
Proof.
  unfold menu_pass, print_menu.
  apply calm_bind; [calmly | intros _].
  apply calm_try_except.
  - apply calm_bind; [apply calm_input | intros typed]. cbv zeta.
    apply calm_bind; [apply menu_choice_calm | intros flow].
    destruct flow; calmly.
  - intros e. destruct e; calmly.
Qed.

Lemma menu_loop_calm : calm the_menu_loop.
Proof.
  intros s H. unfold menu_loop. now apply calm_while; [apply menu_pass_calm|].
Qed.

Lemma main_guarded_calm : calm main_guarded.
Proof.
  apply calm_try_except_Exception.
  - app_unfold.
    repeat first [ apply start_calm | apply list_groups_calm
                 | apply menu_loop_calm | calm_step ].
  - intros e. calmly.
Qed.

(** X12: on every keyboard script of typed lines and every provider,
    [main] ends: the menu loop stops within the script, at the latest
    when [input] reaches end of file.  It then returns, or lets through
    the exception raised by [client.disconnect]; neither [EOFError] nor
    [ValueError] nor an exception of the engine escapes, and no key is
    put back. *)
Theorem main_always_ends :
  forall s : Session W,
    forallb is_line (keyboard s) = true ->
    (outcome (the_main s) = Ok tt
     \/ exists e, outcome (the_main s) = Raise (ClientError e))
    /\ (length (keyboard (session (the_main s))) <= length (keyboard s))%nat.
Proof.
  intros s Hs. rewrite main_run; cbv zeta.
  destruct (main_guarded_steady s) as (_ & Hk & _).
  destruct (main_guarded_calm s Hs) as (_ & Hc).
  destruct (fst (client_disconnect (provider (session (main_guarded s))))) as [e|];
    rewrite outcome_mk, session_mk; cbn [keyboard].
  - split; [|exact Hk]. right. now exists e.
  - split; [|exact Hk].
    destruct (main_guarded_outcome s) as [H|H]; [rewrite H; auto|].
    now elim Hc.
Qed.

End Sessions.

(** ** What a session can emit *)

Lemma forallb_all {A : Type} (p : A -> bool) (l : list A) :
  (forall a, p a = true) -> forallb p l = true.
Proof. intros H; apply forallb_forall; intros a _; apply H. Qed.

(** Sequencing when what comes next relies on a property of the value. *)
Lemma emits_bind_post {W A B : Type} (q : AppEvent -> bool) (P : A -> Prop)
    (m : App W A) (k : A -> App W B) :
  emits q m ->
  (forall s a, outcome (m s) = Ok a -> P a) ->
  (forall a, P a -> emits q (k a)) ->
  emits q (app_bind m k).
Proof.
  intros Hm HP Hk s. specialize (Hm s). specialize (HP s).
  unfold app_bind, events, outcome in *.
  destruct (m s) as [[[a|e|] s1] t1]; cbn in *; try exact Hm.
  specialize (Hk a (HP a eq_refl) s1). unfold events in Hk.
  destruct (k a s1) as [[r s2] t2]; cbn in *.
  now rewrite forallb_app, Hm, Hk.
Qed.

Ltac emits_step :=
  first
    [ apply emits_ret
    | apply emits_raise
    | apply emits_emit; solve [auto]
    | apply emits_input; solve [auto]
    | apply emits_bind; [|intros ?]
    | match goal with
      | |- emits _ (if ?c then _ else _) => destruct c eqn:?
      | |- emits _ (match ?x with _ => _ end) => destruct x eqn:?
      end ].

Ltac emits_then :=
  apply emits_bind; [solve [repeat emits_step] | intros ?].

Ltac emits_then_as x :=
  apply emits_bind; [solve [repeat emits_step] | intros x].

Section Emissions.

Variable W : Type.
Variable iter_dialogs : W -> IterResult * W.
Variable send_message : Entity -> string -> W -> SendResult * W.
Variable sleep : Z -> W -> W.
Variable client_start : W -> option PyExc * W.
Variable client_disconnect : W -> option PyExc * W.
Variable strip : string -> string.
Variable isdigit : string -> bool.
Variable int : string -> option Z.

Local Notation "'broadcast'" :=
  (broadcast_with_delay W iter_dialogs send_message sleep).

(** A property [q] of events, and a property [okn] of the numbers typed,
    such that [q] holds of everything the application itself emits, of the
    catalog resolution, and of every broadcast of a non-empty message with
    [okn] rounds and delay. *)
Variable q : AppEvent -> bool.
Variable okn : Z -> Prop.

Hypothesis q_print : forall p, q (Print p) = true.
Hypothesis q_asked : forall p, q (Asked p) = true.
Hypothesis q_logged : forall lvl r, q (AppLogged lvl r) = true.
Hypothesis q_start : q ClientStart = true.
Hypothesis q_catalog :
  forall w, forallb (fun e => q (Engine e))
                    (trace (get_all_groups W iter_dialogs w)) = true.
Hypothesis q_broadcast :
  forall message rounds delay w,
    message <> "" -> okn rounds -> okn delay ->
    forallb (fun e => q (Engine e))
            (trace (broadcast message rounds delay (Some []) w)) = true.
Hypothesis okn_int : forall s n, isdigit s = true -> int s = Some n -> okn n.
Hypothesis okn_0 : okn 0.
Hypothesis okn_1 : okn 1.
Hypothesis okn_2 : okn 2.
Hypothesis okn_10 : okn 10.

Lemma list_groups_emits : emits q (list_groups W iter_dialogs).
Proof.
  intros s. rewrite list_groups_run; cbv zeta. rewrite events_mk, forallb_app.
  rewrite forallb_map_engine, q_catalog.
  destruct (value (get_all_groups W iter_dialogs (provider s))) as [|g gs].
  - cbn. now rewrite q_logged.
  - cbn [andb forallb]. rewrite !q_logged. cbn [andb].
    apply forallb_forall. intros e He. apply in_flat_map in He as (x & _ & Hx).
    cbn in Hx.
    repeat (destruct Hx as [<-|Hx]; [apply q_logged|]). destruct Hx.
Qed.

Lemma print_menu_emits : emits q (@print_menu W).
Proof. unfold print_menu. app_unfold. repeat emits_step. Qed.

Lemma bot_broadcast_emits (message : string) (rounds delay : Z) :
  message <> "" -> okn rounds -> okn delay ->
  emits q (bot_broadcast_with_delay W iter_dialogs send_message sleep
                                    message rounds delay (Some [])).
Proof.
  intros Hm Hr Hd. apply emits_engine_call. intros w. now apply q_broadcast.
Qed.

Lemma int_or_default_emits (s : string) (d : Z) :
  emits q (int_or_default W isdigit int s d).
Proof. unfold int_or_default. repeat emits_step. Qed.

Lemma int_or_default_post (s : string) (d : Z) (st : Session W) (n : Z) :
  okn d -> outcome (int_or_default W isdigit int s d st) = Ok n -> okn n.
Proof.
  intros Hd. unfold int_or_default.
  destruct (isdigit s) eqn:Hs.
  - destruct (int s) as [n'|] eqn:Hi; cbn; intros H; inversion H; subst.
    exact (okn_int s n Hs Hi).
  - cbn; intros H; inversion H; subst. exact Hd.
Qed.

Lemma int_of_emits (s : string) : emits q (int_of W int s).
Proof. unfold int_of. repeat emits_step. Qed.

Lemma int_of_post (s : string) (st : Session W) (n : Z) :
  isdigit s = true -> outcome (int_of W int s st) = Ok n -> okn n.
Proof.
  intros Hs. unfold int_of.
  destruct (int s) as [n'|] eqn:Hi; cbn; intros H; inversion H; subst.
  exact (okn_int s n Hs Hi).
Qed.

Lemma option_3_emits :
  emits q (option_3 W iter_dialogs send_message sleep strip isdigit int).
Proof.
  unfold option_3. app_unfold. cbv zeta.
  emits_then. emits_then. emits_then_as typed.
  destruct (strip typed =? "")%string eqn:Hmsg; [repeat emits_step|].
  apply String.eqb_neq in Hmsg.
  emits_then_as typed_rounds.
  apply (emits_bind_post q okn); [apply int_or_default_emits | |].
  { intros st n. now apply int_or_default_post. }
  intros rounds Hrounds.
  apply (emits_bind_post q okn).
  - destruct (1 <? rounds); [|apply emits_ret].
    emits_then_as typed_delay. apply int_or_default_emits.
  - intros st delay. destruct (1 <? rounds).
    + unfold app_bind, input, outcome.
      destruct (keyboard st) as [|[l|] ks]; cbn; try discriminate.
      pose proof (int_or_default_post (strip l) 10 (mkSession (provider st) ks)) as Hp.
      unfold outcome in Hp.
      destruct (int_or_default W isdigit int (strip l) 10
                               (mkSession (provider st) ks)) as [[r s2] t2];
        cbn in *.
      intros H. now apply Hp.
    + cbn; intros H; inversion H; subst. exact okn_0.
  - intros delay Hdelay.
    emits_then.
    apply emits_bind; [now apply bot_broadcast_emits | intros _; apply emits_ret].
Qed.

Lemma option_4_emits :
  emits q (option_4 W iter_dialogs send_message sleep strip isdigit int).
Proof.
  unfold option_4. app_unfold. cbv zeta.
  emits_then. emits_then. emits_then_as typed.
  destruct (strip typed =? "")%string eqn:Hmsg; [repeat emits_step|].
  apply String.eqb_neq in Hmsg.
  emits_then_as typed_rounds.
  destruct (isdigit (strip typed_rounds)) eqn:Hr; cbn [negb]; [|repeat emits_step].
  apply (emits_bind_post q okn); [apply int_of_emits | |].
  { intros st n. now apply int_of_post. }
  intros rounds Hrounds.
  emits_then_as typed_delay.
  destruct (isdigit (strip typed_delay)) eqn:Hd; cbn [negb]; [|repeat emits_step].
  apply (emits_bind_post q okn); [apply int_of_emits | |].
  { intros st n. now apply int_of_post. }
  intros delay Hdelay.
  emits_then.
  apply emits_bind; [now apply bot_broadcast_emits | intros _; apply emits_ret].
Qed.

Lemma default_message_not_empty : default_message <> "".
Proof. discriminate. Qed.

Lemma menu_choice_emits (choice : string) :
  emits q (menu_choice W iter_dialogs send_message sleep strip isdigit int choice).
Proof.
  unfold menu_choice. app_unfold.
  repeat match goal with
         | |- emits _ (if ?c then _ else _) => destruct c
         end.
  - emits_then.
    apply emits_bind; [apply list_groups_emits | intros _; apply emits_ret].
  - emits_then.
    apply emits_bind; [|intros _; apply emits_ret].
    apply bot_broadcast_emits; auto using default_message_not_empty.
  - apply option_3_emits.
  - apply option_4_emits.
  - repeat emits_step.
  - repeat emits_step.
Qed.

Lemma menu_pass_emits :
  emits q (menu_pass W iter_dialogs send_message sleep strip isdigit int).
Proof.
  unfold menu_pass.
  apply emits_bind; [apply print_menu_emits | intros _].
  apply emits_try_except.
  - emits_then_as typed. cbv zeta.
    apply emits_bind; [apply menu_choice_emits | intros flow].
    destruct flow; repeat emits_step.
  - intros e. destruct e; app_unfold; repeat emits_step.
Qed.

Lemma menu_loop_emits :
  emits q (menu_loop W iter_dialogs send_message sleep strip isdigit int).
Proof.
  intros s. unfold menu_loop. apply emits_while, menu_pass_emits.
Qed.

Lemma start_emits : emits q (start W client_start).
Proof.
  intros s; unfold start, events.
  destruct (client_start (provider s)) as [[e|] w]; cbn;
    now rewrite q_start, ?q_logged.
Qed.

(** Everything [main] emits before it disconnects satisfies [q]. *)
Lemma main_guarded_emits :
  emits q
    (try_except_Exception
       (app_bind (start W client_start)
          (fun _ => app_bind (print PrintRuleNL)
          (fun _ => app_bind (print PrintScanning)
          (fun _ => app_bind (print PrintRule)
          (fun _ => app_bind (list_groups W iter_dialogs)
          (fun _ => menu_loop W iter_dialogs send_message sleep
                              strip isdigit int))))))
       (fun e => app_logger_error (LogMainError e))).
Proof.
  apply emits_try_except_Exception.
  - apply emits_bind; [apply start_emits | intros _].
    app_unfold. emits_then. emits_then. emits_then.
    apply emits_bind; [apply list_groups_emits | intros _; apply menu_loop_emits].
  - intros e. app_unfold. repeat emits_step.
Qed.

End Emissions.

(** ** What the engine emits, seen from the application *)

Lemma count_zero_forallb (p : Event -> bool) (t : Trace) :
  count p t = 0 -> forallb (fun e => negb (p e)) t = true.
Proof.
  induction t as [|e t IH]; [reflexivity|].
  rewrite count_cons. pose proof (count_nonneg p t).
  destruct (p e) eqn:E; cbn [forallb]; rewrite E; cbn [negb andb].
  - intros; exfalso; lia.
  - intros H0. apply IH. lia.
Qed.

Lemma filter_negb_none {A : Type} (p : A -> bool) (l : list A) :
  forallb (fun a => negb (p a)) l = true -> filter p l = [].
Proof.
  apply filter_none. intros a H. now destruct (p a).
Qed.

Section EngineSeen.

Variable W : Type.
Variable iter_dialogs : W -> IterResult * W.
Variable send_message : Entity -> string -> W -> SendResult * W.
Variable sleep : Z -> W -> W.

Local Notation "'dispatch'" :=
  (send_to_all_groups_once W iter_dialogs send_message sleep).
Local Notation "'broadcast'" :=
  (broadcast_with_delay W iter_dialogs send_message sleep).

(** A broadcast with an empty exclusion list logs no skip. *)
Lemma broadcast_skips_nothing (message : string) (rounds delay : Z) (w : W) :
  forallb (fun e => negb (is_skip_log e))
          (trace (broadcast message rounds delay (Some []) w)) = true.
Proof.
  apply broadcast_events.
  - intros w'. apply count_zero_forallb. now apply dispatch_skips_nothing.
  - intros [| | |lvl []]; cbn; intros; try reflexivity; discriminate.
  - reflexivity.
Qed.

(** The one start line of a broadcast carries its [rounds] and [delay]. *)
Lemma broadcast_start_line (P : Z -> Z -> bool) (message : string)
    (rounds delay : Z) (exclude_ids : option (list Z)) (w : W) :
  P rounds delay = true ->
  forallb (fun e => match e with
                    | EvLog _ (LogStart r d) => P r d
                    | _ => true
                    end)
          (trace (broadcast message rounds delay exclude_ids w)) = true.
Proof.
  intros HP. apply broadcast_events.
  - intros w'. eapply forallb_weaken; [|apply dispatch_events].
    intros [| | |lvl []]; cbn; intros; try reflexivity; discriminate.
  - intros [| | |lvl []]; cbn; intros; try reflexivity; discriminate.
  - exact HP.
Qed.

Lemma dispatch_sends_message (message : string) (exclude_ids : option (list Z))
    (w : W) (site : SendSite) (e : Entity) (m : string) :
  In (EvSendMessage site e m) (trace (dispatch message exclude_ids w)) ->
  m = message.
Proof.
  rewrite send_to_all_groups_once_run; cbv zeta.
  assert (Hquiet : ~ In (EvSendMessage site e m)
                        (trace (get_all_groups W iter_dialogs w))).
  { rewrite get_all_groups_run.
    destruct (raised (fst (iter_dialogs w))); rewrite trace_mk; cbn;
      intros [H|[H|[]]]; discriminate H. }
  destruct (value (get_all_groups W iter_dialogs w)) as [|g gs];
    rewrite trace_mk, in_app_iff.
  - intros [H|[H|[]]]; [contradiction | discriminate H].
  - intros [H|[H|H]]; [contradiction | discriminate H |].
    apply loop_sends_to in H. tauto.
Qed.

(** Every send of a broadcast carries the broadcast's message. *)
Lemma broadcast_sends_message (P : string -> bool) (message : string)
    (rounds delay : Z) (exclude_ids : option (list Z)) (w : W) :
  P message = true ->
  forallb (fun e => match e with
                    | EvSendMessage _ _ m => P m
                    | _ => true
                    end)
          (trace (broadcast message rounds delay exclude_ids w)) = true.
Proof.
  intros HP. apply broadcast_events.
  - intros w'. apply forallb_forall. intros [|site e m| |] He; try reflexivity.
    apply dispatch_sends_message in He. now subst m.
  - intros [| | |lvl []]; cbn; intros; try reflexivity; discriminate.
  - reflexivity.
Qed.

Lemma catalog_events (p : Event -> bool) (w : W) :
  p EvIterDialogs = true ->
  (forall n, p (EvLog INFO (LogFound n)) = true) ->
  (forall e, p (EvLog ERROR (LogGetGroupsError e)) = true) ->
  forallb p (trace (get_all_groups W iter_dialogs w)) = true.
Proof.
  intros H1 H2 H3. rewrite get_all_groups_run.
  destruct (raised (fst (iter_dialogs w))); rewrite trace_mk; cbn;
    now rewrite H1, ?H2, ?H3.
Qed.

End EngineSeen.

Lemma started_forall (P : Z -> Z -> bool) (t : list AppEvent) :
  forallb (fun e => match e with
                    | Engine (EvLog _ (LogStart r d)) => P r d
                    | _ => true
                    end) t = true ->
  Forall (fun rd => P (fst rd) (snd rd) = true) (broadcasts_started t).
Proof.
  induction t as [|e t IH]; cbn [forallb broadcasts_started flat_map];
    [constructor|].
  intros H; apply andb_true_iff in H as [He Ht].
  apply Forall_app; split; [|exact (IH Ht)].
  destruct e as [[| | |lvl []]| | | | |]; try constructor; auto.
Qed.

Lemma sent_forall (P : string -> bool) (t : list AppEvent) :
  forallb (fun e => match e with
                    | Engine (EvSendMessage _ _ m) => P m
                    | _ => true
                    end) t = true ->
  Forall (fun m => P m = true) (messages_sent t).
Proof.
  induction t as [|e t IH]; cbn [forallb messages_sent flat_map];
    [constructor|].
  intros H; apply andb_true_iff in H as [He Ht].
  apply Forall_app; split; [|exact (IH Ht)].
  destruct e as [[| | |]| | | | |]; try constructor; auto.
Qed.

(** ** A whole session *)

Section MainFacts.

Variable W : Type.
Variable iter_dialogs : W -> IterResult * W.
Variable send_message : Entity -> string -> W -> SendResult * W.
Variable sleep : Z -> W -> W.
Variable client_start : W -> option PyExc * W.
Variable client_disconnect : W -> option PyExc * W.
Variable strip : string -> string.
Variable isdigit : string -> bool.
Variable int : string -> option Z.

Local Notation "'the_main'" :=
  (main W iter_dialogs send_message sleep client_start client_disconnect
        strip isdigit int).

Local Notation "'main_guarded'" :=
  (try_except_Exception
     (app_bind (start W client_start)
        (fun _ => app_bind (print PrintRuleNL)
        (fun _ => app_bind (print PrintScanning)
        (fun _ => app_bind (print PrintRule)
        (fun _ => app_bind (list_groups W iter_dialogs)
        (fun _ => menu_loop W iter_dialogs send_message sleep
                            strip isdigit int))))))
     (fun e => app_logger_error (LogMainError e))).

(** The events of [main] are those of its guarded body followed by the
    disconnection and, when it succeeds, the "stopped" line. *)
Lemma main_events (s : Session W) :
  events (the_main s) = events (main_guarded s) ++ [ClientDisconnect; AppLogged INFO LogStopped]
  \/ events (the_main s) = events (main_guarded s) ++ [ClientDisconnect].
Proof.
  rewrite main_run; cbv zeta.
  destruct (fst (client_disconnect _)); rewrite events_mk; auto.
Qed.

Lemma main_emits (q : AppEvent -> bool) (okn : Z -> Prop) :
  (forall p, q (Print p) = true) ->
  (forall p, q (Asked p) = true) ->
  (forall lvl r, q (AppLogged lvl r) = true) ->
  q ClientStart = true ->
  q ClientDisconnect = true ->
  (forall w, forallb (fun e => q (Engine e))
                     (trace (get_all_groups W iter_dialogs w)) = true) ->
  (forall message rounds delay w,
      message <> "" -> okn rounds -> okn delay ->
      forallb (fun e => q (Engine e))
              (trace (broadcast_with_delay W iter_dialogs send_message sleep
                                           message rounds delay (Some []) w)) = true) ->
  (forall s n, isdigit s = true -> int s = Some n -> okn n) ->
  okn 0 -> okn 1 -> okn 2 -> okn 10 ->
  forall s, forallb q (events (the_main s)) = true.
Proof.
  intros Hp Ha Hl Hs Hd Hc Hb Hi H0 H1 H2 H10 s.
  pose proof (main_guarded_emits W iter_dialogs send_message sleep client_start
                strip isdigit int q okn Hp Ha Hl Hs Hc Hb Hi H0 H1 H2 H10 s) as Hg.
  destruct (main_events s) as [-> | ->]; rewrite forallb_app, Hg; cbn;
    now rewrite Hd, ?Hl.
Qed.

(** X13: on every path through [main] the client is disconnected exactly
    once, and that is the last thing [main] does apart from logging that it
    stopped: whether the start failed, the user chose to exit, the input
    ran out or was interrupted, no client call follows it and none of the
    menu's actions precedes a second one. *)
Theorem main_disconnects_once_at_the_end :
  forall s : Session W,
    filter is_disconnect (events (the_main s)) = [ClientDisconnect]
    /\ exists before,
        filter is_disconnect before = []
        /\ (events (the_main s) = before ++ [ClientDisconnect; AppLogged INFO LogStopped]
            \/ events (the_main s) = before ++ [ClientDisconnect]).
Proof.
  intros s.
  assert (Hg : filter is_disconnect (events (main_guarded s)) = []).
  { apply filter_negb_none.
    apply (main_guarded_emits W iter_dialogs send_message sleep client_start
             strip isdigit int (fun e => negb (is_disconnect e)) (fun _ => True));
      try reflexivity; auto; intros; now apply forallb_all. }
  split.
  - destruct (main_events s) as [-> | ->]; now rewrite filter_app, Hg.
  - exists (events (main_guarded s)). split; [exact Hg | apply main_events].
Qed.

(** X14: a session never skips a destination as excluded: every broadcast
    the menu starts is given an empty exclusion list. *)
Theorem menu_never_excludes :
  forall s : Session W, filter is_skip (events (the_main s)) = [].
Proof.
  intros s. apply filter_negb_none.
  apply (main_emits (fun e => negb (is_skip e)) (fun _ => True));
    try reflexivity; auto.
  - intros w. apply catalog_events; reflexivity.
  - intros message rounds delay w _ _ _.
    apply (broadcast_skips_nothing W iter_dialogs send_message sleep).
Qed.

(** X15: when [int] maps strings of digits to non-negative numbers, as
    Python's does, every broadcast a session starts has non-negative
    [rounds] and non-negative [delay]. *)
Theorem menu_broadcasts_are_well_formed :
  (forall s n, isdigit s = true -> int s = Some n -> 0 <= n) ->
  forall s : Session W,
    Forall (fun rd => 0 <= fst rd /\ 0 <= snd rd)
           (broadcasts_started (events (the_main s))).
Proof.
  intros Hint s.
  eapply Forall_impl;
    [|apply (started_forall (fun r d => (0 <=? r) && (0 <=? d)))].
  - intros [r d] H; cbn in *. apply andb_true_iff in H as [Hr Hd].
    split; now apply Z.leb_le.
  - apply (main_emits _ (fun n => 0 <= n)); try reflexivity; auto; try lia.
    + intros w. apply catalog_events; reflexivity.
    + intros message rounds delay w _ Hr Hd.
      apply (broadcast_start_line W iter_dialogs send_message sleep
               (fun r d => (0 <=? r) && (0 <=? d))).
      apply andb_true_iff; split; now apply Z.leb_le.
Qed.

(** X16: a session never sends an empty message: whatever is typed, every
    message handed to [send_message] is non-empty. *)
Theorem menu_never_sends_an_empty_message :
  forall s : Session W,
    Forall (fun m => m <> "") (messages_sent (events (the_main s))).
Proof.
  intros s.
  eapply Forall_impl;
    [|apply (sent_forall (fun m => negb (m =? "")%string))].
  - intros m H; cbn in H. apply negb_true_iff in H. now apply String.eqb_neq.
  - apply (main_emits _ (fun _ => True)); try reflexivity; auto.
    + intros w. apply catalog_events; reflexivity.
    + intros message rounds delay w Hm _ _.
      apply (broadcast_sends_message W iter_dialogs send_message sleep
               (fun m => negb (m =? "")%string)).
      apply negb_true_iff. now apply String.eqb_neq.
Qed.

End MainFacts.

(** ** The options of the menu *)

Ltac crunch :=
  repeat (cbn -[broadcast_with_delay get_all_groups];
          match goal with
          | |- context [match ?x with _ => _ end] =>
              lazymatch x with
              | context [match _ with _ => _ end] => fail
              | _ => destruct x eqn:?
              end
          end).

Section Options.

Variable W : Type.
Variable iter_dialogs : W -> IterResult * W.
Variable send_message : Entity -> string -> W -> SendResult * W.
Variable sleep : Z -> W -> W.
Variable client_start : W -> option PyExc * W.
Variable client_disconnect : W -> option PyExc * W.
Variable strip : string -> string.
Variable isdigit : string -> bool.
Variable int : string -> option Z.

Local Notation "'the_option_3'" :=
  (option_3 W iter_dialogs send_message sleep strip isdigit int).
Local Notation "'the_option_4'" :=
  (option_4 W iter_dialogs send_message sleep strip isdigit int).
Local Notation "'the_main'" :=
  (main W iter_dialogs send_message sleep client_start client_disconnect
        strip isdigit int).

(** X17: options 3 and 4 touch the client only through the broadcast
    they end with: if the message typed is empty or a number is refused
    (the option ends in [continue]), if the input ends or is interrupted,
    or if [int] raises, they have made no client call at all and the
    provider is as it was. *)
Theorem options_call_nothing_unless_completed :
  forall s : Session W,
    let stopped_early (r : Result Flow) :=
      r = Ok Continue \/ r = Raise EOFError \/ r = Raise KeyboardInterrupt
      \/ exists t, r = Raise (ValueError t) in
    (stopped_early (outcome (the_option_3 s)) ->
     provider (session (the_option_3 s)) = provider s
     /\ filter is_engine (events (the_option_3 s)) = [])
    /\ (stopped_early (outcome (the_option_4 s)) ->
        provider (session (the_option_4 s)) = provider s
        /\ filter is_engine (events (the_option_4 s)) = []).
Proof.
  intros s stopped_early. subst stopped_early. cbv beta. split.
  - unfold option_3, app_bind, print, app_emit, input, int_or_default,
      app_ret, app_raise, bot_broadcast_with_delay, run_engine_call,
      outcome, session, events.
    crunch; intros H;
      first [ split; reflexivity
            | exfalso; cbn [fst] in H;
              destruct H as [H|[H|[H|[? H]]]]; discriminate H ].
  - unfold option_4, app_bind, print, app_emit, input, int_of,
      app_ret, app_raise, bot_broadcast_with_delay, run_engine_call,
      outcome, session, events.
    crunch; intros H;
      first [ split; reflexivity
            | exfalso; cbn [fst] in H;
              destruct H as [H|[H|[H|[? H]]]]; discriminate H ].
Qed.

(** What option 3 emits: the one broadcast it may start has delay 0
    unless it has more than one round. *)
Lemma option_3_start_line :
  emits (fun e => match e with
                  | Engine (EvLog _ (LogStart r d)) => (1 <? r) || (d =? 0)
                  | _ => true
                  end) the_option_3.
Proof.
  unfold option_3. app_unfold. cbv zeta.
  emits_then. emits_then. emits_then_as typed.
  destruct (strip typed =? "")%string; [repeat emits_step|].
  emits_then_as typed_rounds.
  apply emits_bind; [unfold int_or_default; repeat emits_step | intros rounds].
  apply (emits_bind_post _ (fun d => (1 <? rounds) || (d =? 0) = true)).
  - destruct (1 <? rounds); [|apply emits_ret].
    emits_then_as typed_delay. unfold int_or_default; repeat emits_step.
  - intros st delay. destruct (1 <? rounds); [reflexivity|].
    cbn; intros H; inversion H; reflexivity.
  - intros delay Hd. emits_then.
    apply emits_bind; [|intros _; apply emits_ret].
    apply emits_engine_call. intros w.
    apply (broadcast_start_line W iter_dialogs send_message sleep
             (fun r d => (1 <? r) || (d =? 0))).
    exact Hd.
Qed.

(** X18: option 3 never pauses a single-round send: a broadcast it starts
    has more than one round, or a delay of 0. *)
Theorem custom_send_delays_only_between_rounds :
  forall s : Session W,
    Forall (fun rd => 1 < fst rd \/ snd rd = 0)
           (broadcasts_started (events (the_option_3 s))).
Proof.
  intros s.
  eapply Forall_impl;
    [|apply (started_forall (fun r d => (1 <? r) || (d =? 0)));
      apply option_3_start_line].
  intros [r d] H; cbn in *. apply orb_true_iff in H as [H|H].
  - left. now apply Z.ltb_lt.
  - right. now apply Z.eqb_eq.
Qed.

(** X19: when [client.start] raises, [main] shows no menu and reads no
    key: it logs the error, disconnects, and that is all. *)
Theorem failed_start_goes_straight_to_disconnect :
  forall (s : Session W) (e : PyExc),
    fst (client_start (provider s)) = Some e ->
    events (the_main s) =
    [ClientStart; AppLogged ERROR (LogMainError (ClientError e)); ClientDisconnect]
    ++ match fst (client_disconnect (snd (client_start (provider s)))) with
       | None => [AppLogged INFO LogStopped]
       | Some _ => []
       end
    /\ keyboard (session (the_main s)) = keyboard s.
Proof.
  intros s e H.
  unfold main, try_finally, try_except_Exception, app_bind, start, stop,
    app_logger_error, app_emit, events, session.
  destruct (client_start (provider s)) as [r w1]; cbn in H; subst r. cbn.
  destruct (client_disconnect w1) as [[e2|] w2]; split; reflexivity.
Qed.

(** X20: when the keyboard is at end of file as the menu first asks for a
    choice, the menu is shown once and the loop stops: the [EOFError] of
    [input] is printed by the handler, raised again by the handler's own
    [input], logged by [main], and the client is disconnected. *)
Theorem end_of_input_stops_the_menu :
  forall s : Session W,
    keyboard s = [] ->
    fst (client_start (provider s)) = None ->
    filter is_menu_shown (events (the_main s)) = [Print PrintMenuTitle]
    /\ exists before after,
        events (the_main s) =
        before
        ++ [Asked PromptChoice; Print (PrintError EOFError);
            Asked PromptContinueAfterError;
            AppLogged ERROR (LogMainError EOFError); ClientDisconnect]
        ++ after.
Proof.
  intros [w ks] Hk Hs; cbn in Hk, Hs; subst ks.
  assert (Hg : exists listing,
             filter is_menu_shown listing = []
             /\ events
                  (try_except_Exception
                     (app_bind (start W client_start)
                        (fun _ => app_bind (print PrintRuleNL)
                        (fun _ => app_bind (print PrintScanning)
                        (fun _ => app_bind (print PrintRule)
                        (fun _ => app_bind (list_groups W iter_dialogs)
                        (fun _ => menu_loop W iter_dialogs send_message sleep
                                            strip isdigit int))))))
                     (fun e => app_logger_error (LogMainError e))
                     (mkSession w [])) =
                [ClientStart; AppLogged INFO LogStarted; Print PrintRuleNL;
                 Print PrintScanning; Print PrintRule]
                ++ listing
                ++ [Print PrintRuleNL; Print PrintMenuTitle; Print PrintRule;
                    Print (PrintOption 1); Print (PrintOption 2);
                    Print (PrintOption 3); Print (PrintOption 4);
                    Print (PrintOption 5); Print PrintRule]
                ++ [Asked PromptChoice; Print (PrintError EOFError);
                    Asked PromptContinueAfterError;
                    AppLogged ERROR (LogMainError EOFError)]).
  { exists (events (list_groups W iter_dialogs
                                (mkSession (snd (client_start w)) []))).
    split.
    - apply filter_negb_none.
      apply (list_groups_emits W iter_dialogs (fun e => negb (is_menu_shown e)));
        [reflexivity|]. intros w'. now apply forallb_all.
    - pose proof (list_groups_run W iter_dialogs
                    (mkSession (snd (client_start w)) [])) as Hrun.
      cbv zeta in Hrun. cbn [keyboard provider] in Hrun.
      unfold try_except_Exception, app_bind, start, print, app_emit.
      cbn [provider keyboard].
      destruct (client_start w) as [r w1]; cbn in Hs; subst r.
      cbn [snd] in *.
      destruct (list_groups W iter_dialogs (mkSession w1 [])) as [[rl sl] tl].
      inversion Hrun; subst rl sl. clear Hrun.
      unfold menu_loop, while_true, menu_pass, print_menu, try_except, app_bind,
        print, app_emit, input, app_logger_error, app_ret.
      cbn. rewrite <- !app_assoc. reflexivity. }
  destruct Hg as (listing & Hl & Hg).
  destruct (main_events W iter_dialogs send_message sleep client_start
              client_disconnect strip isdigit int (mkSession w []))
    as [H|H]; rewrite H, Hg; clear H Hg.
  - split; [rewrite !filter_app, Hl; reflexivity|].
    exists ([ClientStart; AppLogged INFO LogStarted; Print PrintRuleNL;
             Print PrintScanning; Print PrintRule]
            ++ listing
            ++ [Print PrintRuleNL; Print PrintMenuTitle; Print PrintRule;
                Print (PrintOption 1); Print (PrintOption 2);
                Print (PrintOption 3); Print (PrintOption 4);
                Print (PrintOption 5); Print PrintRule]),
           [AppLogged INFO LogStopped].
    rewrite <- !app_assoc. reflexivity.
  - split; [rewrite !filter_app, Hl; reflexivity|].
    exists ([ClientStart; AppLogged INFO LogStarted; Print PrintRuleNL;
             Print PrintScanning; Print PrintRule]
            ++ listing
            ++ [Print PrintRuleNL; Print PrintMenuTitle; Print PrintRule;
                Print (PrintOption 1); Print (PrintOption 2);
                Print (PrintOption 3); Print (PrintOption 4);
                Print (PrintOption 5); Print PrintRule]),
           (@nil AppEvent).
    rewrite <- !app_assoc. reflexivity.
Qed.

End Options.

(** ** Instances on a scripted session *)

Lemma digits_value_nonneg (s : string) (acc : Z) :
  0 <= acc -> 0 <= Ascii_builtins.digits_value s acc.
Proof.
  revert acc; induction s as [|c s IH]; intros acc H;
    cbn [Ascii_builtins.digits_value]; [exact H|].
  apply IH. lia.
Qed.

(** On ASCII text, a string of digits denotes a non-negative number. *)
Lemma ascii_int_nonneg (s : string) (n : Z) :
  Ascii_builtins.isdigit s = true -> Ascii_builtins.int s = Some n -> 0 <= n.
Proof.
  intros Hs. unfold Ascii_builtins.int. rewrite Hs.
  destruct (Z.of_nat (String.length s) <=? int_max_str_digits); [|discriminate].
  intros H; inversion H. apply digits_value_nonneg. lia.
Qed.

Lemma list_groups_numbers_the_catalog_witness :
  value (Scripted.get_all_groups Scripted.failing_enumeration) = []
  /\ filter is_app_log
       (events (Session_double.list_groups
                  (mkSession Scripted.failing_enumeration []))) =
     [AppLogged INFO LogNoGroupsFound].
Proof.
  split; [reflexivity|].
  pose proof (list_groups_numbers_the_catalog
                Scripted.World Scripted.iter_dialogs
                (mkSession Scripted.failing_enumeration [])) as H.
  cbv zeta in H. destruct H as (_ & _ & H). apply H. reflexivity.
Defined.

Lemma menu_broadcasts_are_well_formed_witness :
  (forall s n,
      Ascii_builtins.isdigit s = true -> Ascii_builtins.int s = Some n -> 0 <= n)
  /\ Forall (fun rd => 0 <= fst rd /\ 0 <= snd rd)
            (broadcasts_started
               (events (Session_double.main
                          (Session_double.typing
                             [Line "4"; Line "hello"; Line "3"; Line "7";
                              Line ""; Line "5"])))).
Proof.
  split; [exact ascii_int_nonneg|].
  apply (menu_broadcasts_are_well_formed
           Scripted.World Scripted.iter_dialogs Scripted.send_message Scripted.sleep
           Session_double.client_start Session_double.client_disconnect
           Ascii_builtins.strip Ascii_builtins.isdigit Ascii_builtins.int).
  exact ascii_int_nonneg.
Defined.

Lemma options_call_nothing_unless_completed_witness :
  outcome (Session_double.option_4 (Session_double.typing [Line "yo"; Line "x"]))
  = Ok Continue
  /\ provider (session (Session_double.option_4
                          (Session_double.typing [Line "yo"; Line "x"]))) =
     Scripted.one_chat
  /\ filter is_engine
       (events (Session_double.option_4
                  (Session_double.typing [Line "yo"; Line "x"]))) = [].
Proof.
  assert (H : outcome (Session_double.option_4
                         (Session_double.typing [Line "yo"; Line "x"]))
              = Ok Continue) by (vm_compute; reflexivity).
  split; [exact H|].
  exact (proj2 (options_call_nothing_unless_completed
                  Scripted.World Scripted.iter_dialogs Scripted.send_message
                  Scripted.sleep Ascii_builtins.strip Ascii_builtins.isdigit
                  Ascii_builtins.int
                  (Session_double.typing [Line "yo"; Line "x"]))
               (or_introl H)).
Defined.

Lemma main_always_ends_witness :
  forallb is_line [Line "1"; Line ""; Line "5"] = true
  /\ (outcome (Session_double.main
                 (Session_double.typing [Line "1"; Line ""; Line "5"])) = Ok tt
      \/ exists e,
           outcome (Session_double.main
                      (Session_double.typing [Line "1"; Line ""; Line "5"]))
           = Raise (ClientError e)).
Proof.
  split; [reflexivity|].
  exact (proj1 (main_always_ends
                  Scripted.World Scripted.iter_dialogs Scripted.send_message
                  Scripted.sleep Session_double.client_start
                  Session_double.client_disconnect
                  Ascii_builtins.strip Ascii_builtins.isdigit Ascii_builtins.int
                  (Session_double.typing [Line "1"; Line ""; Line "5"])
                  eq_refl)).
Defined.


Lemma failed_start_goes_straight_to_disconnect_witness :
  fst (Session_double.client_refuses Scripted.one_chat) =
  Some (OtherException "unauthorized")
  /\ events (Session_double.main_refused (Session_double.typing [Line "2"])) =
     [ClientStart;
      AppLogged ERROR (LogMainError (ClientError (OtherException "unauthorized")));
      ClientDisconnect; AppLogged INFO LogStopped]
  /\ keyboard (session (Session_double.main_refused
                          (Session_double.typing [Line "2"]))) = [Line "2"].
Proof.
  split; [reflexivity|].
  exact (failed_start_goes_straight_to_disconnect
           Scripted.World Scripted.iter_dialogs Scripted.send_message Scripted.sleep
           Session_double.client_refuses Session_double.client_disconnect
           Ascii_builtins.strip Ascii_builtins.isdigit Ascii_builtins.int
           (Session_double.typing [Line "2"]) _ eq_refl).
Defined.

Lemma end_of_input_stops_the_menu_witness :
  keyboard (Session_double.typing []) = []
  /\ fst (Session_double.client_start Scripted.one_chat) = None
  /\ filter is_menu_shown (events (Session_double.main (Session_double.typing []))) =
     [Print PrintMenuTitle].
Proof.
  split; [reflexivity|]. split; [reflexivity|].
  exact (proj1 (end_of_input_stops_the_menu
                  Scripted.World Scripted.iter_dialogs Scripted.send_message
                  Scripted.sleep Session_double.client_start
                  Session_double.client_disconnect
                  Ascii_builtins.strip Ascii_builtins.isdigit Ascii_builtins.int
                  (Session_double.typing []) eq_refl eq_refl)).
Defined.

(** A session in full: option 4 with three rounds and no delay, typed
    with spaces around the message, then exit, on the provider of Scenario
    D: the first enumeration goes to the initial listing, the next two
    rounds each find G1 and fail to send, the third finds nothing. *)
Example session_run :
  let r := Session_double.main
             (mkSession Scripted.scenario_D
                [Line "4"; Line " hello "; Line "3"; Line "0"; Line ""; Line "5"]) in
  outcome r = Ok tt
  /\ keyboard (session r) = []
  /\ broadcasts_started (events r) = [(3, 0)]
  /\ messages_sent (events r) = ["hello"; "hello"]
  /\ filter is_client_call (events r) =
     [ClientStart; Engine EvIterDialogs;
      Engine EvIterDialogs; Engine (EvSendMessage FirstAttempt (Chat 1) "hello");
      Engine EvIterDialogs; Engine (EvSendMessage FirstAttempt (Chat 1) "hello");
      Engine EvIterDialogs; ClientDisconnect].
Proof. vm_compute. repeat split. Qed.

(** A session in which a broadcast fails: option 4 with two rounds and a
    delay of [10^400] seconds, on the provider of Scenario D.  The first
    round is dispatched, the pause raises [OverflowError], the handler of
    the menu prints it and waits for Enter, and the session goes on to
    the exit: the second round is never made. *)
Example failing_broadcast_session_run :
  let r := Session_double.main
             (mkSession Scripted.scenario_D
                [Line "4"; Line "hi"; Line "2"; Line Session_double.long_delay;
                 Line ""; Line "5"]) in
  outcome r = Ok tt
  /\ keyboard (session r) = []
  /\ messages_sent (events r) = ["hi"]
  /\ filter (fun e => match e with Print (PrintError _) => true | _ => false end)
             (events r)
     = [Print (PrintError (EngineError OverflowError_float))]
  /\ filter is_client_call (events r) =
     [ClientStart; Engine EvIterDialogs;
      Engine EvIterDialogs; Engine (EvSendMessage FirstAttempt (Chat 1) "hi");
      ClientDisconnect].
Proof. vm_compute. repeat split. Qed.
